(** * Intruder detection: notifier and record store

    A shallow embedding of [src/AI-backend/alert.py] and [src/storage.py].

    The two Python modules are straight-line glue around four collaborators
    (the SQLite file [alerts.db], the geocoder, the image host and the
    document store) plus the messaging endpoint.  Python code becomes a
    computation in a state-and-exception monad over a [world] holding the
    database, the lines printed so far and the outbound requests made so
    far.  What the collaborators answer is not decided by the program, so it
    is an [env] of oracles passed to every function.  The SQL statements the
    program sends are given the meaning SQLite gives them on the one table
    [alerts]. *)

From stdpp Require Import base gmap strings list sorting pretty.

Open Scope Z_scope.

(** ** Python runtime *)

Module Py.

(** An exception object: its class and the text [str(e)] gives.  Every
    exception the collaborators raise derives from [Exception]. *)
Record exn := Exn { exn_type : string; exn_text : string }.

Inductive outcome (A : Type) :=
| Ok (a : A)
| Raise (e : exn).
Arguments Ok {A} a.
Arguments Raise {A} e.

(** A Python float; the program only moves floats around, so one is kept
    as its 64-bit pattern (IEEE 754 binary64: the sign in bit 63, eleven
    bits of exponent, 52 bits of fraction). *)
Record float := Float { float_bits : Z }.

Definition exponent (x : float) : Z :=
  Z.land (Z.shiftr (float_bits x) 52) 2047.

Definition fraction (x : float) : Z := Z.land (float_bits x) (Z.ones 52).

(** [math.isnan]: the exponent is all ones and the fraction is not zero. *)
Definition isnan (x : float) : bool :=
  bool_decide (exponent x = 2047 ∧ fraction x ≠ 0).

Definition pos_zero : float := Float 0.

(** [-0.0]: only the sign bit is set. *)
Definition neg_zero : float := Float (Z.shiftl 1 63).

Definition is_neg_zero (x : float) : bool :=
  bool_decide (Z.land (float_bits x) (Z.ones 64) = float_bits neg_zero).

Arguments isnan : simpl never.
Arguments is_neg_zero : simpl never.

Inductive pyval :=
| PyNone
| PyInt (n : Z)
| PyFloat (x : float)
| PyStr (s : string).

Definition of_opt_str (o : option string) : pyval :=
  match o with Some s => PyStr s | None => PyNone end.

Definition of_opt_float (o : option float) : pyval :=
  match o with Some x => PyFloat x | None => PyNone end.

(** Truth value of a [str]: the empty string is false. *)
Definition truthy_str (s : string) : bool :=
  match s with EmptyString => false | _ => true end.

(** Truth value of a [str] or [None]. *)
Definition truthy (o : option string) : bool :=
  match o with Some s => truthy_str s | None => false end.

(** [f"{x}"] for a [str] or [None]. *)
Definition fmt (o : option string) : string :=
  match o with Some s => s | None => "None" end.

(** [repr] of a list of [str] whose items need no escaping. *)
Definition repr_list (l : list string) : string :=
  "[" +:+ String.concat ", " (map (λ s, "'" +:+ s +:+ "'") l) +:+ "]".

Global Instance exn_eq_dec : EqDecision exn.
Proof. solve_decision. Defined.
Global Instance float_eq_dec : EqDecision float.
Proof. solve_decision. Defined.
Global Instance pyval_eq_dec : EqDecision pyval.
Proof. solve_decision. Defined.

End Py.
Export Py.

(** ** The SQLite table [alerts] *)

Module Sqlite.

Inductive value :=
| Null
| Integer (n : Z)
| Real (x : float)
| Text (s : string).

Global Instance value_eq_dec : EqDecision value.
Proof. solve_decision. Defined.

(** One stored row.  [id INTEGER PRIMARY KEY AUTOINCREMENT] is the rowid;
    the other columns are kept by name, under the lower-case spelling the
    statements of the program use for them. *)
Record row := Row { rowid : Z; cells : gmap string value }.

Global Instance row_eq_dec : EqDecision row.
Proof. solve_decision. Defined.

(** The table: its column names in declaration order and as they were
    spelled when declared, its rows in storage order, and the
    [sqlite_sequence] entry AUTOINCREMENT keeps for it, the largest rowid
    ever handed out.  The columns have the types the program declares
    them with, in CREATE TABLE or in ALTER TABLE. *)
Record table := Table { columns : list string; rows : list row; seq : Z }.

(** [alerts.db]: [None] while the file holds no table [alerts]. *)
Definition database := option table.

Definition MAX_ROWID : Z := 9223372036854775807.

Definition OperationalError (msg : string) : exn :=
  Exn "sqlite3.OperationalError" msg.

Definition OverflowError (msg : string) : exn :=
  Exn "OverflowError" msg.

(** The value of a row in the column a statement of the program calls
    [c]; a column with no stored value reads as NULL. *)
Definition cell (r : row) (c : string) : value :=
  default Null (cells r !! c).

(** SQL [=]: never true on NULL; text is compared byte for byte. *)
Definition sql_eq (a b : value) : bool :=
  match a, b with
  | Null, _ | _, Null => false
  | _, _ => bool_decide (a = b)
  end.

Definition coalesce (a b : value) : value :=
  match a with Null => b | _ => a end.

(** SQLite compares the names of columns without regard to the case of
    the ASCII letters. *)
Definition fold_ascii (a : Ascii.ascii) : Ascii.ascii :=
  let n := Ascii.N_of_ascii a in
  if bool_decide (65 ≤ n ≤ 90)%N then Ascii.ascii_of_N (n + 32) else a.

Fixpoint fold_case (s : string) : string :=
  match s with
  | EmptyString => EmptyString
  | String a s' => String (fold_ascii a) (fold_case s')
  end.

(** The table has a column a statement calls [c]. *)
Definition has_column (c : string) (t : table) : bool :=
  bool_decide (fold_case c ∈ fold_case <$> columns t).

(** The first of the columns a statement names that the table lacks. *)
Definition missing (cs : list string) (t : table) : option string :=
  List.find (λ c, negb (has_column c t)) cs.

(** Values bound to [?] placeholders.  A float that is a NaN is bound as
    NULL. *)
Definition bind_str (s : string) : value := Text s.
Definition bind_opt_str (o : option string) : value :=
  match o with Some s => Text s | None => Null end.
Definition bind_opt_float (o : option float) : value :=
  match o with
  | Some x => if isnan x then Null else Real x
  | None => Null
  end.

(** What a column declared REAL keeps of a value written to it.  A real
    without a fractional part is written as an integer and read back as a
    real, which makes 0.0 of -0.0 and changes no other real.  (An integer
    would be read back as a real too; the program binds a float or [None]
    to such a column.) *)
Definition real_affinity (v : value) : value :=
  match v with
  | Real x => if is_neg_zero x then Real pos_zero else Real x
  | _ => v
  end.

(** What [fetchall] hands back for a stored value. *)
Definition to_py (v : value) : pyval :=
  match v with
  | Null => PyNone
  | Integer n => PyInt n
  | Real x => PyFloat x
  | Text s => PyStr s
  end.

(** *** CREATE TABLE IF NOT EXISTS alerts (...) *)

Definition declared_columns : list string :=
  ["id"; "label"; "timestamp"; "image_path"; "cloud_url"; "synced";
   "telegram_sent"; "latitude"; "longitude"; "location"].

Definition create_table_if_not_exists (d : database) : outcome database :=
  match d with
  | Some t => Ok (Some t)
  | None => Ok (Some (Table declared_columns [] 0))
  end.

(** *** PRAGMA table_info(alerts), second field of every line *)

Definition table_info (d : database) : outcome (list string) :=
  match d with
  | Some t => Ok (columns t)
  | None => Ok []
  end.

(** *** ALTER TABLE alerts ADD COLUMN col col_type *)

(** The DEFAULT clause of a column declaration; the two declarations with
    one are spelled [INTEGER DEFAULT 0].  The statement fails when the
    table has a column of that name in any spelling; otherwise every row
    gets the default under the name given, which the program spells in
    lower case. *)
Definition default_of (col_type : string) : value :=
  if bool_decide (col_type = "INTEGER DEFAULT 0") then Integer 0 else Null.

Definition add_column (col col_type : string) (d : database)
  : outcome database :=
  match d with
  | None => Raise (OperationalError "no such table: alerts")
  | Some t =>
      if has_column col t
      then Raise (OperationalError ("duplicate column name: " +:+ col))
      else Ok (Some (Table (columns t ++ [col])
                       (map (λ r, Row (rowid r)
                                      (<[col := default_of col_type]> (cells r)))
                            (rows t))
                       (seq t)))
  end.

(** *** INSERT OR REPLACE INTO alerts (label, timestamp, image_path,
        cloud_url, synced, telegram_sent, latitude, longitude, location)
        VALUES (?, ?, ?, ?, ?,
                COALESCE((SELECT telegram_sent FROM alerts
                          WHERE image_path = ?), 0), ?, ?, ?) *)

Definition insert_columns : list string :=
  ["label"; "timestamp"; "image_path"; "cloud_url"; "synced";
   "telegram_sent"; "latitude"; "longitude"; "location"].

(** The scalar subquery: the first row found, NULL when there is none. *)
Definition select_telegram_sent (p : value) (t : table) : value :=
  match List.filter (λ r, sql_eq (cell r "image_path") p) (rows t) with
  | r :: _ => cell r "telegram_sent"
  | [] => Null
  end.

(** The largest rowid in use, 0 on an empty table. *)
Definition max_rowid (l : list row) : Z :=
  foldr (λ r m, Z.max (rowid r) m) 0 l.

(** AUTOINCREMENT hands out one more than the largest rowid the table
    holds or ever held, and refuses once that is the largest integer. *)
Definition top (t : table) : Z := Z.max (seq t) (max_rowid (rows t)).

Definition insert_or_replace
    (label timestamp image_path cloud_url synced sub_path
     latitude longitude location : value) (d : database)
  : outcome database :=
  match d with
  | None => Raise (OperationalError "no such table: alerts")
  | Some t =>
      match missing insert_columns t with
      | Some c =>
          Raise (OperationalError ("table alerts has no column named " +:+ c))
      | None =>
          let sent := coalesce (select_telegram_sent sub_path t) (Integer 0) in
          if bool_decide (MAX_ROWID ≤ top t)
          then Raise (OperationalError "database or disk is full")
          else
            let new :=
              Row (top t + 1)
                (list_to_map
                   [("label", label); ("timestamp", timestamp);
                    ("image_path", image_path); ("cloud_url", cloud_url);
                    ("synced", synced); ("telegram_sent", sent);
                    ("latitude", real_affinity latitude);
                    ("longitude", real_affinity longitude);
                    ("location", location)]) in
            let kept :=
              List.filter
                (λ r, negb (sql_eq (cell r "image_path") image_path))
                (rows t) in
            Ok (Some (Table (columns t) (kept ++ [new]) (top t + 1)))
      end
  end.

(** *** UPDATE alerts SET c1 = ?, ... WHERE image_path = ? *)

Definition assign (sets : list (string * value)) (r : row) : row :=
  Row (rowid r) (foldr (λ cv m, <[cv.1 := cv.2]> m) (cells r) sets).

Definition update_where_path
    (sets : list (string * value)) (p : value) (d : database)
  : outcome database :=
  match d with
  | None => Raise (OperationalError "no such table: alerts")
  | Some t =>
      match missing (map fst sets ++ ["image_path"]) t with
      | Some c => Raise (OperationalError ("no such column: " +:+ c))
      | None =>
          Ok (Some (Table (columns t)
                      (map (λ r, if sql_eq (cell r "image_path") p
                                 then assign sets r else r)
                           (rows t))
                      (seq t)))
      end
  end.

(** *** SELECT label, timestamp, cloud_url, latitude, longitude, location
        FROM alerts ORDER BY id DESC LIMIT ? *)

Definition select_columns : list string :=
  ["label"; "timestamp"; "cloud_url"; "latitude"; "longitude"; "location"].

Definition by_id_desc (a b : row) : Prop := rowid b ≤ rowid a.

Global Instance by_id_desc_dec : RelDecision by_id_desc.
Proof. intros a b. unfold by_id_desc. apply _. Defined.

(** LIMIT n: a negative n puts no bound on the number of rows. *)
Definition sql_limit {A} (n : Z) (l : list A) : list A :=
  if bool_decide (n < 0) then l else take (Z.to_nat n) l.

Definition project (r : row) : list pyval :=
  map (λ c, to_py (cell r c)) select_columns.

Definition select_latest (limit : Z) (d : database)
  : outcome (list (list pyval)) :=
  match d with
  | None => Raise (OperationalError "no such table: alerts")
  | Some t =>
      match missing (select_columns ++ ["id"]) t with
      | Some c => Raise (OperationalError ("no such column: " +:+ c))
      | None =>
          if bool_decide (- MAX_ROWID - 1 ≤ limit ≤ MAX_ROWID)
          then Ok (map project
                     (sql_limit limit (merge_sort by_id_desc (rows t))))
          else Raise (OverflowError
                        "Python int too large to convert to SQLite INTEGER")
      end
  end.

End Sqlite.
Export Sqlite.

(** ** The world the program runs in *)

Module World.

Record file := File { file_name : string; file_bytes : list Byte.byte }.

Record response := Response { status_code : Z; text : string }.

(** What [geocoder.ip] hands back: the attributes the program reads. *)
Record geocode := Geocode { latlng : list float; city : option string }.

(** The document-store client built at import time.  [doc_set] is what
    writing a new auto-identified document of a collection does. *)
Record firestore_client :=
  FirestoreClient { doc_set : string → gmap string pyval → option exn }.

(** Requests that leave the process. *)
Inductive request :=
| GeoIp (who : string)
| CloudinaryUpload (path folder : string) (context : gmap string string)
| FirestoreSet (collection : string) (doc : gmap string pyval)
| HttpPost (url : string) (files : gmap string file)
           (data : gmap string pyval).

Record world := World {
  db : database;
  stdout : list string;
  net : list request
}.

(** The collaborators' answers and the process configuration, for one call.
    [sqlite3_connect] is what opening [alerts.db] does: [None] when it
    opens, the exception otherwise.  It is the one database fault that
    comes from outside; every other database error is the one SQLite
    derives from the table and the statement. *)
Record env := Env {
  BOT_TOKEN : option string;
  CHAT_ID : option string;
  firestore_db : option firestore_client;
  now : string;
  sqlite3_connect : option exn;
  geocoder_ip : string → outcome geocode;
  cloudinary_upload :
    string → string → gmap string string → outcome (gmap string string);
  open_rb : string → outcome file;
  requests_post :
    string → gmap string file → gmap string pyval → outcome response
}.

(** State and exceptions. *)
Definition M (A : Type) : Type := world → outcome A * world.

Definition ret {A} (a : A) : M A := λ w, (Ok a, w).

Definition raise {A} (e : exn) : M A := λ w, (Raise e, w).

Definition bind {A B} (m : M A) (k : A → M B) : M B :=
  λ w, match m w with
       | (Ok a, w') => k a w'
       | (Raise e, w') => (Raise e, w')
       end.

(** [try: m  except Exception as e: h e] *)
Definition try_except {A} (m : M A) (h : exn → M A) : M A :=
  λ w, match m w with
       | (Ok a, w') => (Ok a, w')
       | (Raise e, w') => h e w'
       end.

Definition lift {A} (o : outcome A) : M A := λ w, (o, w).

Definition print (line : string) : M unit :=
  λ w, (Ok tt, World (db w) (stdout w ++ [line]) (net w)).

Definition send (r : request) : M unit :=
  λ w, (Ok tt, World (db w) (stdout w) (net w ++ [r])).

(** [c.execute] of a statement that writes. *)
Definition execute (stmt : database → outcome database) : M unit :=
  λ w, match stmt (db w) with
       | Ok d => (Ok tt, World d (stdout w) (net w))
       | Raise e => (Raise e, w)
       end.

(** [c.execute(...).fetchall()] of a statement that reads. *)
Definition fetchall {A} (stmt : database → outcome A) : M A :=
  λ w, (stmt (db w), w).

(** [l[i]] *)
Definition index {A} (l : list A) (i : nat) : M A :=
  match l !! i with
  | Some x => ret x
  | None => raise (Exn "IndexError" "list index out of range")
  end.

End World.
Export World.

Notation "'let*' x ':=' m 'in' k" := (bind m (λ x, k))
  (at level 10, x name, m at level 100, k at level 200, only parsing).
Notation "'let*' ' pat ':=' m 'in' k" :=
  (bind m (λ x, match x with pat => k end))
  (at level 10, pat pattern, m at level 100, k at level 200, only parsing).
Notation "m1 ';;' m2" := (bind m1 (λ _, m2))
  (at level 100, m2 at level 200, right associativity, only parsing).

(** ** storage.py *)

Module Storage.

Definition DB_FILE : string := "alerts.db".

(** [sqlite3.connect(DB_FILE)] *)
Definition connect (E : env) : M unit :=
  match sqlite3_connect E with
  | None => ret tt
  | Some e => raise e
  end.

(** [conn.commit()] and [conn.close()]: every statement above already
    acted on the file. *)
Definition commit : M unit := ret tt.
Definition close : M unit := ret tt.

Definition upgrades : list (string * string) :=
  [("synced", "INTEGER DEFAULT 0");
   ("telegram_sent", "INTEGER DEFAULT 0");
   ("latitude", "REAL");
   ("longitude", "REAL");
   ("location", "TEXT")].

(** [for col, col_type in upgrades.items(): ...] *)
Fixpoint upgrade_loop (columns : list string) (todo : list (string * string))
  : M unit :=
  match todo with
  | [] => ret tt
  | (col, col_type) :: todo' =>
      (if bool_decide (col ∉ columns)
       then execute (add_column col col_type) ;;
            print ("[DB Upgrade] Added missing column: " +:+ col)
       else ret tt) ;;
      upgrade_loop columns todo'
  end.

Definition init_db (E : env) : M unit :=
  connect E ;;
  execute create_table_if_not_exists ;;
  let* columns := fetchall table_info in
  upgrade_loop columns upgrades ;;
  commit ;;
  close ;;
  print ("[DB] Alerts table ready with columns: "
         +:+ repr_list (columns ++ map fst upgrades)).

(** The block under [# Get geolocation]. *)
Definition get_geolocation (E : env)
  : M (option float * option float * string) :=
  try_except
    (send (GeoIp "me") ;;
     let* g := lift (geocoder_ip E "me") in
     let* latitude :=
       match latlng g with
       | [] => ret None
       | _ => let* x := index (latlng g) 0 in ret (Some x)
       end in
     let* longitude :=
       match latlng g with
       | [] => ret None
       | _ => let* x := index (latlng g) 1 in ret (Some x)
       end in
     let location := if truthy (city g) then fmt (city g) else "Unknown" in
     ret (latitude, longitude, location))
    (λ _, ret (None, None, "Unknown")).

(** [context={"label": label, "timestamp": timestamp}] *)
Definition upload_context (label timestamp : string) : gmap string string :=
  <["label" := label]> (<["timestamp" := timestamp]> ∅).

(** The block under [# Upload to Cloudinary]. *)
Definition upload_to_cloudinary (E : env) (label img_path timestamp : string)
  : M (option string * option string) :=
  try_except
    (let context := upload_context label timestamp in
     send (CloudinaryUpload img_path "wildlife_alerts" context) ;;
     let* res := lift (cloudinary_upload E img_path "wildlife_alerts" context) in
     let cloud_url := res !! "secure_url" in
     let public_id := res !! "public_id" in
     print ("[Cloudinary] Uploaded: " +:+ fmt cloud_url) ;;
     ret (cloud_url, public_id))
    (λ e,
     print ("[Cloudinary Error] " +:+ exn_text e) ;;
     ret (None, None)).

(** The block under [# Store in SQLite]. *)
Definition store_in_sqlite (E : env) (label timestamp img_path : string)
    (cloud_url : option string) (latitude longitude : option float)
    (location : string) : M unit :=
  try_except
    (connect E ;;
     execute (insert_or_replace
                (bind_str label) (bind_str timestamp) (bind_str img_path)
                (bind_opt_str cloud_url)
                (Integer (if truthy cloud_url then 1 else 0))
                (bind_str img_path)
                (bind_opt_float latitude) (bind_opt_float longitude)
                (bind_str location)) ;;
     commit ;;
     close)
    (λ e, print ("[SQLite Error] " +:+ exn_text e)).

Definition alert_document (label timestamp : string)
    (cloud_url : option string) (img_path : string)
    (latitude longitude : option float) (location : string)
  : gmap string pyval :=
  list_to_map
    [("label", PyStr label); ("timestamp", PyStr timestamp);
     ("cloud_url", of_opt_str cloud_url); ("local_path", PyStr img_path);
     ("latitude", of_opt_float latitude);
     ("longitude", of_opt_float longitude);
     ("location", PyStr location)].

(** The block under [# Store in Firebase]. *)
Definition store_in_firebase (E : env) (label timestamp img_path : string)
    (cloud_url : option string) (latitude longitude : option float)
    (location : string) : M unit :=
  match firestore_db E with
  | Some client =>
      if truthy cloud_url
      then
        try_except
          (let doc := alert_document label timestamp cloud_url img_path
                        latitude longitude location in
           send (FirestoreSet "animal_alerts" doc) ;;
           match doc_set client "animal_alerts" doc with
           | Some e => raise e
           | None => print ("[Firebase] Alert stored for " +:+ label)
           end)
          (λ e, print ("[Firebase Error] " +:+ exn_text e))
      else ret tt
  | None => ret tt
  end.

Definition store_alert (E : env) (label img_path : string)
  : M (option string * option string) :=
  let timestamp := now E in
  let* '(latitude, longitude, location) := get_geolocation E in
  let* '(cloud_url, public_id) :=
    upload_to_cloudinary E label img_path timestamp in
  store_in_sqlite E label timestamp img_path cloud_url
    latitude longitude location ;;
  store_in_firebase E label timestamp img_path cloud_url
    latitude longitude location ;;
  ret (cloud_url, public_id).

Definition default_limit : Z := 20.

Definition get_latest_alerts (E : env) (limit : Z) : M (list (list pyval)) :=
  connect E ;;
  let* rows := fetchall (select_latest limit) in
  close ;;
  ret rows.

Definition flag (b : bool) : value := Integer (if b then 1 else 0).

Definition update_alert_status (E : env) (img_path : string)
    (telegram_ok synced : option bool) : M unit :=
  try_except
    (connect E ;;
     match telegram_ok, synced with
     | None, None => close
     | Some t, Some s =>
         execute (update_where_path
                    [("telegram_sent", flag t); ("synced", flag s)]
                    (bind_str img_path)) ;;
         commit ;; close
     | Some t, None =>
         execute (update_where_path [("telegram_sent", flag t)]
                    (bind_str img_path)) ;;
         commit ;; close
     | None, Some s =>
         execute (update_where_path [("synced", flag s)]
                    (bind_str img_path)) ;;
         commit ;; close
     end)
    (λ e, print ("[SQLite update error] " +:+ exn_text e)).

End Storage.

(** ** AI-backend/alert.py *)

Module Alert.

Definition newline : string := String (Ascii.ascii_of_nat 10) EmptyString.

Definition caption (label timestamp : string) (extra_msg : option string)
  : string :=
  let caption := "[ALERT] " +:+ label +:+ " detected at " +:+ timestamp in
  if truthy extra_msg then caption +:+ newline +:+ fmt extra_msg
  else caption.

Definition url (E : env) : string :=
  "https://api.telegram.org/bot" +:+ fmt (BOT_TOKEN E) +:+ "/sendPhoto".

Definition files (img_file : file) : gmap string file :=
  {[ "photo" := img_file ]}.

Definition data (E : env) (caption : string) : gmap string pyval :=
  <["chat_id" := of_opt_str (CHAT_ID E)]> (<["caption" := PyStr caption]> ∅).

Definition send_alert (E : env) (label timestamp img_path : string)
    (extra_msg : option string) : M bool :=
  try_except
    (let caption := caption label timestamp extra_msg in
     let url := url E in
     let* img_file := lift (open_rb E img_path) in
     let files := files img_file in
     let data := data E caption in
     send (HttpPost url files data) ;;
     let* resp := lift (requests_post E url files data) in
     if bool_decide (status_code resp = 200)
     then print ("[Telegram] Alert sent for " +:+ label) ;; ret true
     else print ("[Telegram Error] " +:+ pretty (status_code resp)
                 +:+ ": " +:+ text resp) ;;
          ret false)
    (λ e, print ("[Telegram Exception] " +:+ exn_text e) ;; ret false).

End Alert.

(** ** Predicates the statements below are written with *)

Module Props.
Import Storage.

(** The rows of [t] whose [image_path] is [v]. *)
Definition rows_at (v : value) (t : table) : list row :=
  List.filter (λ r, sql_eq (cell r "image_path") v) (rows t).

(** What every table the program has written satisfies: [image_path] is
    UNIQUE, and a [telegram_sent] the table has is never NULL (it is
    declared DEFAULT 0 and only ever written as 0 or 1). *)
Record wf_table (t : table) : Prop := WfTable {
  wf_unique : ∀ v, (length (rows_at v t) ≤ 1)%nat;
  wf_sent :
    has_column "telegram_sent" t = true →
    ∀ r, r ∈ rows t → cell r "telegram_sent" ≠ Null
}.

Definition wf_db (d : database) : Prop :=
  match d with Some t => wf_table t | None => True end.

(** The table has the declared columns and AUTOINCREMENT has rowids left. *)
Definition ready (t : table) : Prop :=
  declared_columns ⊆ columns t ∧ top t < MAX_ROWID.

(** The rows of [t] stored under [path]. *)
Definition stored_at (path : string) (t : table) : list row :=
  rows_at (Text path) t.

(** The nine values an alert row holds. *)
Definition row_is (r : row)
    (label timestamp image_path cloud_url synced telegram_sent
     latitude longitude location : value) : Prop :=
  cell r "label" = label ∧ cell r "timestamp" = timestamp ∧
  cell r "image_path" = image_path ∧ cell r "cloud_url" = cloud_url ∧
  cell r "synced" = synced ∧ cell r "telegram_sent" = telegram_sent ∧
  cell r "latitude" = latitude ∧ cell r "longitude" = longitude ∧
  cell r "location" = location.

(** The geolocation lookup failed: it raised, it found nothing, or its
    coordinates are not a pair. *)
Definition geo_failure (E : env) : Prop :=
  match geocoder_ip E "me" with
  | Raise _ => True
  | Ok g =>
      (latlng g = [] ∧ truthy (city g) = false) ∨ length (latlng g) = 1%nat
  end.

(** What the image host answers to the upload [store_alert] makes. *)
Definition upload_of (E : env) (label img_path : string)
  : outcome (gmap string string) :=
  cloudinary_upload E img_path "wildlife_alerts"
    (upload_context label (now E)).

(** The image host keeps its contract: a successful upload answers with a
    [secure_url], which is a URL and so not empty, and a [public_id]. *)
Definition upload_contract (o : outcome (gmap string string)) : Prop :=
  match o with
  | Raise _ => True
  | Ok res =>
      ∃ u i, res !! "secure_url" = Some u ∧ u ≠ "" ∧
             res !! "public_id" = Some i
  end.

(** The same process with another document-store client. *)
Definition with_firestore (c : option firestore_client) (E : env) : env :=
  Env (BOT_TOKEN E) (CHAT_ID E) c (now E) (sqlite3_connect E)
      (geocoder_ip E) (cloudinary_upload E) (open_rb E) (requests_post E).

Definition is_firestore_set (r : request) : bool :=
  match r with FirestoreSet _ _ => true | _ => false end.

(** *** One call of [store_alert], component by component

    What each block of [store_alert] computes depends on the collaborators
    only, never on the world it starts in.  The definitions below name
    those values; [store_alert_run] proves they are what the code does. *)

(** Coordinates and place the geolocation block ends with. *)
Definition located (E : env) : option float * option float * string :=
  match (get_geolocation E (World None [] [])).1 with
  | Ok r => r
  | Raise _ => (None, None, "Unknown")
  end.

(** URL and identifier the upload block ends with. *)
Definition uploaded (o : outcome (gmap string string))
  : option string * option string :=
  match o with
  | Ok res => (res !! "secure_url", res !! "public_id")
  | Raise _ => (None, None)
  end.

Definition upload_line (o : outcome (gmap string string)) : string :=
  match o with
  | Ok res => "[Cloudinary] Uploaded: " +:+ fmt (res !! "secure_url")
  | Raise e => "[Cloudinary Error] " +:+ exn_text e
  end.

(** The statement the SQLite block sends, applied to the database. *)
Definition local_insert (E : env) (label img_path : string) (d : database)
  : outcome database :=
  match sqlite3_connect E with
  | Some e => Raise e
  | None =>
      let cloud_url := (uploaded (upload_of E label img_path)).1 in
      insert_or_replace
        (Text label) (Text (now E)) (Text img_path) (bind_opt_str cloud_url)
        (Integer (if truthy cloud_url then 1 else 0)) (Text img_path)
        (bind_opt_float (located E).1.1) (bind_opt_float (located E).1.2)
        (Text (located E).2) d
  end.

Definition sqlite_lines (o : outcome database) : list string :=
  match o with
  | Ok _ => []
  | Raise e => ["[SQLite Error] " +:+ exn_text e]
  end.

(** The document [store_alert] would mirror. *)
Definition mirror_document (E : env) (label img_path : string)
  : gmap string pyval :=
  alert_document label (now E) (uploaded (upload_of E label img_path)).1
    img_path (located E).1.1 (located E).1.2 (located E).2.

Definition mirror_requests (E : env) (label img_path : string)
  : list request :=
  match firestore_db E with
  | Some _ =>
      if truthy (uploaded (upload_of E label img_path)).1
      then [FirestoreSet "animal_alerts" (mirror_document E label img_path)]
      else []
  | None => []
  end.

Definition mirror_lines (E : env) (label img_path : string) : list string :=
  match firestore_db E with
  | Some client =>
      if truthy (uploaded (upload_of E label img_path)).1
      then match doc_set client "animal_alerts"
                   (mirror_document E label img_path) with
           | Some e => ["[Firebase Error] " +:+ exn_text e]
           | None => ["[Firebase] Alert stored for " +:+ label]
           end
      else []
  | None => []
  end.

(** What the table keeps of a coordinate [store_alert] binds: NULL for
    [None] and for a NaN, 0.0 for -0.0, the float itself otherwise. *)
Definition stored_float (o : option float) : value :=
  real_affinity (bind_opt_float o).

(** A coordinate the table gives back as it was computed. *)
Definition kept_float (o : option float) : Prop :=
  ∀ x, o = Some x → isnan x = false ∧ is_neg_zero x = false.

(** The tuple [get_latest_alerts] gives for the row [store_alert] writes. *)
Definition alert_record (E : env) (label img_path : string) : list pyval :=
  [PyStr label; PyStr (now E);
   of_opt_str (uploaded (upload_of E label img_path)).1;
   to_py (stored_float (located E).1.1);
   to_py (stored_float (located E).1.2);
   PyStr (located E).2].

(** The assignments [update_alert_status] sends for the flags given. *)
Definition flag_sets (telegram_ok synced : option bool)
  : list (string * value) :=
  match telegram_ok, synced with
  | Some t, Some s => [("telegram_sent", flag t); ("synced", flag s)]
  | Some t, None => [("telegram_sent", flag t)]
  | None, Some s => [("synced", flag s)]
  | None, None => []
  end.

(** The columns [init_db] finds once its CREATE TABLE has run. *)
Definition found_columns (d : database) : list string :=
  match d with Some t => columns t | None => declared_columns end.

(** An upgrade column that is not among the columns [cols] found, which
    Python compares letter for letter, while the table has it under
    another spelling. *)
Definition respelled_in (cols : list string) (t : table) (c : string) : bool :=
  bool_decide (c ∉ cols) && has_column c t.

(** The first upgrade column the table has under another spelling. *)
Definition respelled (d : database) : option string :=
  match d with
  | Some t => List.find (respelled_in (columns t) t) (map fst upgrades)
  | None => None
  end.

(** The upgrade columns [init_db] adds to a table with columns [cols]. *)
Definition added_columns (cols : list string) : list string :=
  List.filter (λ c, bool_decide (c ∉ cols)) (map fst upgrades).

Definition upgrade_line (col : string) : string :=
  "[DB Upgrade] Added missing column: " +:+ col.

Definition ready_line (cols : list string) : string :=
  "[DB] Alerts table ready with columns: "
  +:+ repr_list (cols ++ map fst upgrades).

End Props.
Export Props.

(** ** Concrete worlds the statements are exercised on *)

Module Sample.
Import Storage.

Definition empty_world : world := World None [] [].

(** Every collaborator answers. *)
Definition E_up : env :=
  Env (Some "123:abc") (Some "42")
      (Some (FirestoreClient (λ _ _, None)))
      "2024-05-01 10:00:00" None
      (λ _, Ok (Geocode [Float 4632251; Float 4617315] (Some "Chennai")))
      (λ p _ _, Ok (<["secure_url" := "https://img.example/" +:+ p]>
                      (<["public_id" := "wildlife_alerts/" +:+ p]> ∅)))
      (λ p, Ok (File p []))
      (λ _ _ _, Ok (Response 200 "{}")).

Definition timeout : exn := Exn "ConnectionError" "timed out".

Definition client_down : firestore_client :=
  FirestoreClient (λ _ _, Some timeout).

(** The database answers, nothing on the network does, and the bot token
    is refused. *)
Definition E_offline : env :=
  Env (Some "bad") (Some "42") (Some client_down)
      "2024-05-01 10:05:00" None
      (λ _, Raise timeout)
      (λ _ _ _, Raise timeout)
      (λ p, Ok (File p []))
      (λ _ _ _, Ok (Response 401 "Unauthorized")).

(** The image host answers, the document store refuses the write. *)
Definition E_mirror_down : env := with_firestore (Some client_down) E_up.

Definition locked : exn :=
  OperationalError "unable to open database file".

(** The database file cannot be opened. *)
Definition E_nodb : env :=
  Env (Some "123:abc") (Some "42") None "2024-05-01 10:10:00" (Some locked)
      (λ _, Ok (Geocode [] None))
      (λ p _ _, Ok (<["secure_url" := "https://img.example/" +:+ p]>
                      (<["public_id" := "wildlife_alerts/" +:+ p]> ∅)))
      (λ p, Raise (Exn "FileNotFoundError" p))
      (λ _ _ _, Raise timeout).

(** The world after [init_db] on an empty directory. *)
Definition w_init : world := (init_db E_up empty_world).2.

(** ... after a first alert was stored, *)
Definition w_one : world := (store_alert E_up "tiger" "cam/0001.jpg" w_init).2.

(** ... after its notification was recorded as sent, *)
Definition w_sent : world :=
  (update_alert_status E_up "cam/0001.jpg" (Some true) None w_one).2.

(** ... and after two more alerts. *)
Definition w_two : world := (store_alert E_up "boar" "cam/0002.jpg" w_sent).2.
Definition w_three : world := (store_alert E_up "deer" "cam/0003.jpg" w_two).2.

Definition t_of (w : world) : table := default (Table [] [] 0) (db w).

(** The oldest row of the table. *)
Definition first_row (w : world) : row :=
  default (Row 0 ∅) (rows (t_of w) !! 0%nat).

End Sample.

(** ** storage.py: the document-store client built at import time *)

Module Boot.

(** What [credentials.Certificate] makes of a key file. *)
Record credential := Credential { key_file : string }.

(** What the process finds when the module is imported: the environment
    variable, the file system and the document-store SDK. *)
Record boot := Build_boot {
  FIREBASE_CREDENTIALS : option string;
  path_exists : string → bool;
  Certificate : string → outcome credential;
  initialize_app : credential → outcome unit;
  firestore_client_new : outcome firestore_client
}.

(** [os.getenv(name, default)]: the default only when the variable is not
    set; a variable set to the empty string is the empty string. *)
Definition getenv (value : option string) (default : string) : string :=
  match value with Some v => v | None => default end.

Definition firebase_json (B : boot) : string :=
  getenv (FIREBASE_CREDENTIALS B) "serviceAccountKey.json".

(** The block under [# Firebase init]; its result is the module's
    [firestore_db]. *)
Definition firebase_init (B : boot) : M (option firestore_client) :=
  try_except
    (if path_exists B (firebase_json B)
     then
       let* cred := lift (Certificate B (firebase_json B)) in
       lift (initialize_app B cred) ;;
       let* client := lift (firestore_client_new B) in
       print ("[INFO] Firebase connected using " +:+ firebase_json B) ;;
       ret (Some client)
     else
       print "[WARN] Firebase credentials file not found. Firebase disabled." ;;
       ret None)
    (λ e,
     print ("[ERROR] Firebase initialization failed: " +:+ exn_text e) ;;
     ret None).

End Boot.

(** ** Sequences of calls *)

Module Session.
Import Storage.

(** One call a caller of the two modules can make. *)
Inductive call :=
| InitDb
| StoreAlert (label img_path : string)
| GetLatestAlerts (limit : Z)
| UpdateAlertStatus (img_path : string) (telegram_ok synced : option bool)
| SendAlert (label timestamp img_path : string) (extra_msg : option string).

(** The world a call leaves, whether it returned or raised. *)
Definition after (E : env) (c : call) (w : world) : world :=
  match c with
  | InitDb => (init_db E w).2
  | StoreAlert label img_path => (store_alert E label img_path w).2
  | GetLatestAlerts limit => (get_latest_alerts E limit w).2
  | UpdateAlertStatus img_path telegram_ok synced =>
      (update_alert_status E img_path telegram_ok synced w).2
  | SendAlert label timestamp img_path extra_msg =>
      (Alert.send_alert E label timestamp img_path extra_msg w).2
  end.

(** Calls made one after the other, each against what the collaborators
    answer at that moment. *)
Definition session (calls : list (env * call)) (w : world) : world :=
  foldl (λ w ec, after ec.1 ec.2 w) w calls.

Definition id_asc (a b : row) : Prop := rowid a < rowid b.

Definition is_flag (v : value) : Prop := v = Integer 0 ∨ v = Integer 1.

Definition is_text (v : value) : Prop := ∃ s, v = Text s.

(** What holds of the table in every world the calls above can reach from
    an empty directory. *)
Record store_inv (t : table) : Prop := StoreInv {
  inv_columns : columns t = declared_columns;
  inv_unique : ∀ v, (length (rows_at v t) ≤ 1)%nat;
  inv_sorted : StronglySorted id_asc (rows t);
  inv_ids : ∀ r, r ∈ rows t → 0 < rowid r ≤ seq t;
  inv_seq : 0 ≤ seq t;
  inv_text :
    ∀ r, r ∈ rows t →
         is_text (cell r "label") ∧ is_text (cell r "timestamp") ∧
         is_text (cell r "image_path") ∧ is_text (cell r "location");
  inv_flags :
    ∀ r, r ∈ rows t →
         is_flag (cell r "synced") ∧ is_flag (cell r "telegram_sent")
}.

Definition inv_db (d : database) : Prop :=
  match d with Some t => store_inv t | None => True end.

(** An empty directory, nothing printed, nothing sent. *)
Definition fresh : world := World None [] [].

(** The rows of [t] stored under another path than [path]. *)
Definition rows_elsewhere (path : string) (t : table) : list row :=
  List.filter (λ r, negb (sql_eq (cell r "image_path") (Text path))) (rows t).

Definition base_columns : list string :=
  ["id"; "label"; "timestamp"; "image_path"; "cloud_url"].

End Session.
Export Session.

(** ** More concrete worlds *)

Module Sample2.
Import Storage Boot.

Definition key : credential := Credential "serviceAccountKey.json".

(** The key file is there and the SDK accepts it. *)
Definition B_up : boot :=
  Build_boot None (λ p, bool_decide (p = "serviceAccountKey.json"))
    (λ p, Ok (Credential p)) (λ _, Ok tt)
    (Ok (FirestoreClient (λ _ _, None))).

(** No key file. *)
Definition B_nokey : boot :=
  Build_boot (Some "keys/prod.json") (λ _, false)
    (λ p, Ok (Credential p)) (λ _, Ok tt)
    (Ok (FirestoreClient (λ _ _, None))).

(** A table written by the first version of the schema. *)
Definition w_legacy : world :=
  World (Some (Table ["id"; "label"; "timestamp"; "image_path"; "cloud_url"]
                 [Row 1 (<["label" := Text "fox"]>
                           (<["timestamp" := Text "2023-01-01 08:00:00"]>
                              (<["image_path" := Text "cam/old.jpg"]> ∅)))]
                 1)) [] [].


(** The image host answers without a URL. *)
Definition res_nourl : gmap string string :=
  {[ "public_id" := "wildlife_alerts/x1" ]}.

Definition E_nourl : env :=
  Env (Some "123:abc") (Some "42")
      (Some (FirestoreClient (λ _ _, None)))
      "2024-05-01 10:20:00" None
      (λ _, Ok (Geocode [Float 4632251] (Some "Chennai")))
      (λ _ _ _, Ok res_nourl)
      (λ p, Ok (File p []))
      (λ _ _ _, Ok (Response 200 "{}")).

(** A quiet NaN. *)
Definition nan : float := Float 9221120237041090560.

(** The geocoder answers with coordinates that are not numbers one can
    place: a NaN and -0.0. *)
Definition E_odd : env :=
  Env (Some "123:abc") (Some "42")
      (Some (FirestoreClient (λ _ _, None)))
      "2024-05-01 10:30:00" None
      (λ _, Ok (Geocode [nan; neg_zero] (Some "Chennai")))
      (λ p _ _, Ok (<["secure_url" := "https://img.example/" +:+ p]>
                      (<["public_id" := "wildlife_alerts/" +:+ p]> ∅)))
      (λ p, Ok (File p []))
      (λ _ _ _, Ok (Response 200 "{}")).

(** A day of the pipeline. *)
Definition day : list (env * call) :=
  [(Sample.E_up, InitDb);
   (Sample.E_up, StoreAlert "tiger" "cam/0001.jpg");
   (Sample.E_offline, SendAlert "tiger" "2024-05-01 10:00:00" "cam/0001.jpg" None);
   (Sample.E_up, UpdateAlertStatus "cam/0001.jpg" (Some false) None);
   (Sample.E_offline, StoreAlert "boar" "cam/0002.jpg");
   (Sample.E_nodb, StoreAlert "deer" "cam/0003.jpg");
   (Sample.E_up, StoreAlert "tiger" "cam/0001.jpg");
   (Sample.E_up, GetLatestAlerts 20)].

End Sample2.

(** ** Running the monad *)

Ltac run_monad :=
  unfold bind, try_except, lift, ret, raise, send, print, execute, fetchall,
    index in *;
  simpl in *.

(** ** alert.py: the notifier *)

Module AlertSpec.
Import Alert.

(** C4.  [send_alert] always returns a boolean, whatever the file system and
    the endpoint do: no exception reaches the caller.  The boolean is true
    exactly when the image could be opened and the endpoint answered the
    request with status 200.  When it is false one line was printed: the
    status and body for any other status, the exception text when opening
    the file or the transport raised.  The database is not touched. *)
Theorem send_alert_true_iff_http_200
    (E : env) (label timestamp img_path : string)
    (extra_msg : option string) (w : world) :
  ∃ (b : bool) (w' : world),
    send_alert E label timestamp img_path extra_msg w = (Ok b, w') ∧
    db w' = db w ∧
    (b = true ↔
     ∃ img resp,
       open_rb E img_path = Ok img ∧
       requests_post E (url E) (files img)
         (data E (caption label timestamp extra_msg)) = Ok resp ∧
       status_code resp = 200) ∧
    (b = false →
     ∃ line, stdout w' = stdout w ++ [line] ∧
       ((∃ e, line = "[Telegram Exception] " +:+ exn_text e ∧
              (open_rb E img_path = Raise e ∨
               ∃ img, open_rb E img_path = Ok img ∧
                      requests_post E (url E) (files img)
                        (data E (caption label timestamp extra_msg))
                      = Raise e)) ∨
        (∃ img resp,
            open_rb E img_path = Ok img ∧
            requests_post E (url E) (files img)
              (data E (caption label timestamp extra_msg)) = Ok resp ∧
            status_code resp ≠ 200 ∧
            line = "[Telegram Error] " +:+ pretty (status_code resp)
                   +:+ ": " +:+ text resp))).
Proof.
  unfold send_alert. run_monad.
  destruct (open_rb E img_path) as [img|e] eqn:Hopen; simpl.
  - destruct (requests_post E (url E) (files img) _) as [resp|e] eqn:Hpost;
      simpl.
    + case_bool_decide as Hst; simpl.
      * exists true. eexists. repeat split; try done.
        intros _. exists img, resp. done.
      * exists false. eexists. repeat split; try done.
        -- intros (img' & resp' & Himg & Hresp & H200).
           simplify_eq. congruence.
        -- intros _. eexists. split; [done|]. right.
           exists img, resp. done.
    + exists false. eexists. repeat split; try done.
      * intros (img' & resp' & Himg & Hresp & _). simplify_eq.
        congruence.
      * intros _. eexists. split; [done|]. left. exists e. split; [done|].
        right. exists img. done.
  - exists false. eexists. repeat split; try done.
    + intros (img' & resp' & Himg & _). congruence.
    + intros _. eexists. split; [done|]. left. exists e. split; [done|].
      by left.
Qed.

(** The scenario of an invalid bot token: the endpoint answers 401. *)
Lemma send_alert_true_iff_http_200_witness :
  ∃ (b : bool) (w' : world),
    send_alert Sample.E_offline "tiger" "2024-05-01 10:05:00"
      "cam/0001.jpg" None Sample.empty_world = (Ok b, w') ∧
    db w' = db Sample.empty_world ∧
    (b = true ↔
     ∃ img resp,
       open_rb Sample.E_offline "cam/0001.jpg" = Ok img ∧
       requests_post Sample.E_offline (url Sample.E_offline) (files img)
         (data Sample.E_offline
            (caption "tiger" "2024-05-01 10:05:00" None)) = Ok resp ∧
       status_code resp = 200) ∧
    (b = false →
     ∃ line, stdout w' = stdout Sample.empty_world ++ [line] ∧
       ((∃ e, line = "[Telegram Exception] " +:+ exn_text e ∧
              (open_rb Sample.E_offline "cam/0001.jpg" = Raise e ∨
               ∃ img, open_rb Sample.E_offline "cam/0001.jpg" = Ok img ∧
                      requests_post Sample.E_offline (url Sample.E_offline)
                        (files img)
                        (data Sample.E_offline
                           (caption "tiger" "2024-05-01 10:05:00" None))
                      = Raise e)) ∨
        (∃ img resp,
            open_rb Sample.E_offline "cam/0001.jpg" = Ok img ∧
            requests_post Sample.E_offline (url Sample.E_offline)
              (files img)
              (data Sample.E_offline
                 (caption "tiger" "2024-05-01 10:05:00" None)) = Ok resp ∧
            status_code resp ≠ 200 ∧
            line = "[Telegram Error] " +:+ pretty (status_code resp)
                   +:+ ": " +:+ text resp))).
Proof.
  exact (send_alert_true_iff_http_200 Sample.E_offline "tiger"
           "2024-05-01 10:05:00" "cam/0001.jpg" None Sample.empty_world).
Defined.

Example send_alert_invalid_token :
  send_alert Sample.E_offline "tiger" "2024-05-01 10:05:00" "cam/0001.jpg"
    None Sample.empty_world
  = (Ok false,
     World None ["[Telegram Error] 401: Unauthorized"]
       [HttpPost "https://api.telegram.org/botbad/sendPhoto"
          (files (File "cam/0001.jpg" []))
          (data Sample.E_offline "[ALERT] tiger detected at 2024-05-01 10:05:00")]).
Proof. vm_compute. reflexivity. Qed.

End AlertSpec.

(** ** Facts about the statements *)

Module SqliteFacts.

(** A column declared under the very name a statement uses is found. *)
Lemma has_column_elem (c : string) (t : table) :
  c ∈ columns t → has_column c t = true.
Proof.
  intros Hc. unfold has_column. apply bool_decide_eq_true_2.
  apply list_elem_of_fmap. by exists c.
Qed.

Lemma has_column_add (c col : string) (t : table) (rs : list row) (s : Z) :
  has_column c (Table (columns t ++ [col]) rs s)
  = has_column c t || bool_decide (fold_case c = fold_case col).
Proof.
  unfold has_column. simpl. rewrite fmap_app. simpl.
  rewrite <- bool_decide_or. apply bool_decide_ext.
  by rewrite elem_of_app, list_elem_of_singleton.
Qed.

Lemma missing_None (cs : list string) (t : table) :
  cs ⊆ columns t → missing cs t = None.
Proof.
  unfold missing. induction cs as [|c cs IH]; intros Hsub; [done|].
  simpl. rewrite has_column_elem.
  - simpl. apply IH. intros x Hx. apply Hsub. by right.
  - apply Hsub. by left.
Qed.

Lemma missing_has (cs : list string) (t : table) :
  missing cs t = None → ∀ c, c ∈ cs → has_column c t = true.
Proof.
  intros Hmiss c Hc. apply list_elem_of_In in Hc.
  pose proof (List.find_none _ _ Hmiss c Hc) as Hf. simpl in Hf.
  by apply negb_false_iff in Hf.
Qed.

(** The first column found missing is one of those named, and the table
    has none of that name. *)
Lemma missing_Some (cs : list string) (t : table) (c : string) :
  missing cs t = Some c → c ∈ cs ∧ has_column c t = false.
Proof.
  intros [Hin Hc]%List.find_some. split; [by apply list_elem_of_In|].
  by apply negb_true_iff in Hc.
Qed.

Lemma rowid_le_max (l : list row) (r : row) :
  r ∈ l → rowid r ≤ max_rowid l.
Proof.
  induction 1 as [r l|r r0 l _ IH]; simpl; lia.
Qed.

Lemma rowid_le_top (t : table) (r : row) : r ∈ rows t → rowid r ≤ top t.
Proof. intros H%rowid_le_max. unfold top. lia. Qed.

Lemma sql_eq_Text (v : value) (p : string) :
  sql_eq v (Text p) = true ↔ v = Text p.
Proof.
  destruct v; simpl; rewrite ?bool_decide_eq_true; split; congruence.
Qed.

Lemma sql_eq_Text_l (v : value) (p : string) :
  sql_eq (Text p) v = true ↔ v = Text p.
Proof.
  destruct v; simpl; rewrite ?bool_decide_eq_true; split; congruence.
Qed.

(** Rows stored under a path, and the subquery over them. *)
Lemma elem_of_stored_at (path : string) (t : table) (r : row) :
  r ∈ stored_at path t ↔ r ∈ rows t ∧ cell r "image_path" = Text path.
Proof.
  unfold stored_at, rows_at. rewrite !list_elem_of_In, List.filter_In.
  by rewrite sql_eq_Text.
Qed.

Lemma stored_at_unique (path : string) (t : table) (r : row) :
  wf_table t → r ∈ rows t → cell r "image_path" = Text path →
  stored_at path t = [r].
Proof.
  intros Hwf Hr Hp.
  assert (r ∈ stored_at path t) as Hin by by apply elem_of_stored_at.
  pose proof (wf_unique t Hwf (Text path)) as Hlen.
  unfold stored_at in *.
  destruct (rows_at (Text path) t) as [|a [|b l]]; simpl in *;
    [by inversion Hin| |lia].
  by apply list_elem_of_singleton in Hin as ->.
Qed.

Lemma select_telegram_sent_stored (path : string) (t : table) :
  select_telegram_sent (Text path) t
  = match stored_at path t with
    | r :: _ => cell r "telegram_sent"
    | [] => Null
    end.
Proof. done. Qed.

Lemma insert_or_replace_Ok
    (l ts cu sy la lo loc : value) (p : string) (d d' : database) :
  insert_or_replace l ts (Text p) cu sy (Text p) la lo loc d = Ok d' →
  ∃ t r',
    d = Some t ∧ (∀ c, c ∈ insert_columns → has_column c t = true) ∧
    top t < MAX_ROWID ∧
    d' = Some (Table (columns t)
                 (List.filter
                    (λ r, negb (sql_eq (cell r "image_path") (Text p)))
                    (rows t) ++ [r'])
                 (top t + 1)) ∧
    rowid r' = top t + 1 ∧
    row_is r' l ts (Text p) cu sy
      (coalesce (select_telegram_sent (Text p) t) (Integer 0))
      (real_affinity la) (real_affinity lo) loc.
Proof.
  unfold insert_or_replace. destruct d as [t|]; [|done].
  destruct (missing insert_columns t) as [c|] eqn:Hmiss; [done|].
  case_bool_decide as Hfull; [done|]. intros [= <-].
  eexists t, _. split_and!; try done.
  - by apply missing_has.
  - lia.
Qed.

Lemma insert_columns_declared : insert_columns ⊆ declared_columns.
Proof.
  intros c Hc. unfold declared_columns. by right.
Qed.

Lemma insert_or_replace_ready
    (l ts ip cu sy sp la lo loc : value) (t : table) :
  ready t →
  ∃ d', insert_or_replace l ts ip cu sy sp la lo loc (Some t) = Ok d'.
Proof.
  intros [Hcols Htop]. unfold insert_or_replace.
  rewrite missing_None.
  - rewrite bool_decide_eq_false_2 by lia. eauto.
  - intros c Hc. by apply Hcols, insert_columns_declared.
Qed.

Lemma coalesce_not_null (v : value) : coalesce v (Integer 0) ≠ Null.
Proof. by destruct v. Qed.

Lemma filter_neg_filter {A} (P : A → bool) (l : list A) :
  List.filter P (List.filter (λ x, negb (P x)) l) = [].
Proof.
  induction l as [|a l IH]; [done|]. simpl.
  destruct (P a) eqn:Ha; simpl; [done|]. by rewrite Ha.
Qed.

Lemma length_filter_filter {A} (P Q : A → bool) (l : list A) :
  (length (List.filter P (List.filter Q l)) ≤ length (List.filter P l))%nat.
Proof.
  induction l as [|a l IH]; [done|]. simpl.
  destruct (Q a), (P a) eqn:Ha; simpl; rewrite ?Ha; simpl; lia.
Qed.

Lemma filter_map_same {A} (P : A → bool) (g : A → A) (l : list A) :
  (∀ x, P (g x) = P x) →
  List.filter P (map g l) = map g (List.filter P l).
Proof.
  intros Hg. induction l as [|a l IH]; [done|]. simpl.
  rewrite Hg. destruct (P a); simpl; by rewrite IH.
Qed.

Lemma cell_assign_other (sets : list (string * value)) (r : row) (c : string) :
  c ∉ map fst sets → cell (assign sets r) c = cell r c.
Proof.
  unfold cell, assign. simpl.
  induction sets as [|[c0 v0] sets IH]; intros Hc; [done|]. simpl in *.
  apply not_elem_of_cons in Hc as [Hne Hc].
  rewrite lookup_insert_ne by done. by apply IH.
Qed.

Lemma cell_assign_not_null (sets : list (string * value)) (r : row) (c : string) :
  (∀ cv, cv ∈ sets → cv.2 ≠ Null) → cell r c ≠ Null →
  cell (assign sets r) c ≠ Null.
Proof.
  unfold cell, assign. simpl.
  induction sets as [|[c0 v0] sets IH]; intros Hv Hc; [done|]. simpl in *.
  destruct (decide (c0 = c)) as [->|Hne].
  - rewrite lookup_insert_eq. simpl. apply (Hv (c, v0)). by left.
  - rewrite lookup_insert_ne by done. apply IH; [|done].
    intros cv Hcv. apply Hv. by right.
Qed.

Lemma wf_insert_or_replace
    (l ts cu sy la lo loc : value) (p : string) (d d' : database) :
  wf_db d →
  insert_or_replace l ts (Text p) cu sy (Text p) la lo loc d = Ok d' →
  wf_db d'.
Proof.
  intros Hwf (t & r' & -> & _ & _ & -> & _ & Hrow)%insert_or_replace_Ok.
  destruct Hrow as (_ & _ & Hpath & _ & _ & Hsent & _).
  simpl in *. destruct Hwf as [Huniq Hnn]. split; simpl.
  - intros v. unfold rows_at in *. simpl.
    rewrite List.filter_app, length_app. simpl. rewrite Hpath.
    destruct (sql_eq (Text p) v) eqn:Hv.
    + apply sql_eq_Text_l in Hv as ->.
      rewrite filter_neg_filter. simpl. lia.
    + simpl. rewrite Nat.add_0_r.
      etrans; [apply length_filter_filter|apply Huniq].
  - intros Hcol r [Hr| ->%list_elem_of_singleton]%elem_of_app.
    + apply Hnn; [done|].
      by apply list_elem_of_In, List.filter_In in Hr as [?%list_elem_of_In _].
    + rewrite Hsent. apply coalesce_not_null.
Qed.

Lemma update_where_path_Ok
    (sets : list (string * value)) (p : value) (d d' : database) :
  update_where_path sets p d = Ok d' →
  ∃ t, d = Some t ∧
       (∀ c, c ∈ map fst sets ++ ["image_path"] → has_column c t = true) ∧
       d' = Some (Table (columns t)
                    (map (λ r, if sql_eq (cell r "image_path") p
                               then assign sets r else r) (rows t))
                    (seq t)).
Proof.
  unfold update_where_path. destruct d as [t|]; [|done].
  destruct (missing _ t) as [c|] eqn:Hmiss; [done|]. intros [= <-].
  exists t. split_and!; try done.
  by apply missing_has.
Qed.

Lemma wf_update_where_path
    (sets : list (string * value)) (p : value) (d d' : database) :
  "image_path" ∉ map fst sets → (∀ cv, cv ∈ sets → cv.2 ≠ Null) →
  wf_db d → update_where_path sets p d = Ok d' → wf_db d'.
Proof.
  intros Hip Hv Hwf (t & -> & _ & ->)%update_where_path_Ok.
  destruct Hwf as [Huniq Hnn]. split; simpl in *.
  - intros v. unfold rows_at in *. simpl.
    rewrite filter_map_same, length_map; [apply Huniq|].
    intros r. destruct (sql_eq (cell r "image_path") p); [|done].
    by rewrite cell_assign_other.
  - intros Hcol r' (r & -> & Hr)%list_elem_of_fmap.
    destruct (sql_eq (cell r "image_path") p); [|by apply Hnn].
    apply cell_assign_not_null; [done|by apply Hnn].
Qed.

Lemma add_column_Ok (col col_type : string) (d d' : database) :
  add_column col col_type d = Ok d' →
  ∃ t, d = Some t ∧ has_column col t = false ∧
       d' = Some (Table (columns t ++ [col])
                    (map (λ r, Row (rowid r)
                                 (<[col := default_of col_type]> (cells r)))
                         (rows t))
                    (seq t)).
Proof.
  unfold add_column. destruct d as [t|]; [|done].
  destruct (has_column col t) eqn:Hcol; [done|]. intros [= <-]. eauto.
Qed.

Lemma wf_add_column (col col_type : string) (d d' : database) :
  fold_case col = col → col ≠ "image_path" →
  (col = "telegram_sent" → default_of col_type ≠ Null) →
  wf_db d → add_column col col_type d = Ok d' → wf_db d'.
Proof.
  intros Hlow Hip Hdef Hwf (t & -> & _ & ->)%add_column_Ok.
  destruct Hwf as [Huniq Hnn]. split; simpl in *.
  - intros v. unfold rows_at in *. simpl.
    rewrite filter_map_same, length_map; [apply Huniq|].
    intros r. unfold cell. simpl. by rewrite lookup_insert_ne.
  - intros Hcol r' (r & -> & Hr)%list_elem_of_fmap.
    unfold cell. simpl.
    destruct (decide (col = "telegram_sent")) as [->|Hne].
    + rewrite lookup_insert_eq. simpl. by apply Hdef.
    + rewrite lookup_insert_ne by done. apply Hnn; [|done].
      rewrite has_column_add in Hcol.
      apply orb_true_iff in Hcol as [Hcol|Hcol]; [done|].
      apply bool_decide_eq_true_1 in Hcol. rewrite Hlow in Hcol.
      by destruct Hne.
Qed.

Lemma by_id_desc_total : Total by_id_desc.
Proof. intros a b. unfold by_id_desc. lia. Qed.

Lemma by_id_desc_trans : Transitive by_id_desc.
Proof. intros a b c. unfold by_id_desc. lia. Qed.

(** ORDER BY id DESC puts a row with the largest id of all first. *)
Lemma sorted_max_first (s l : list row) (x : row) :
  StronglySorted by_id_desc s → s ≡ₚ l ++ [x] →
  (∀ y, y ∈ l → rowid y < rowid x) →
  ∃ s', s = x :: s' ∧ s' ≡ₚ l ∧ StronglySorted by_id_desc s'.
Proof.
  intros Hs Hp Hmax.
  destruct s as [|h s'].
  { apply Permutation_nil_l in Hp. by destruct l. }
  apply StronglySorted_inv in Hs as [Hs' Hh].
  destruct (decide (h = x)) as [->|Hne].
  - exists s'. split_and!; [done| |done].
    rewrite <- Permutation_cons_append in Hp.
    by apply Permutation_cons_inv in Hp.
  - exfalso.
    assert (h ∈ l) as Hhl.
    { assert (h ∈ l ++ [x]) as Hin by (rewrite <- Hp; left).
      apply elem_of_app in Hin as [?|?%list_elem_of_singleton]; done. }
    assert (x ∈ s') as Hxs.
    { assert (x ∈ h :: s') as Hin by (rewrite Hp; apply elem_of_app; right; left).
      apply elem_of_cons in Hin as [?|?]; done. }
    rewrite Forall_forall in Hh. apply Hh in Hxs.
    apply Hmax in Hhl. unfold by_id_desc in Hxs. lia.
Qed.

Lemma select_latest_Ok (limit : Z) (t : table) :
  select_columns ++ ["id"] ⊆ columns t →
  - MAX_ROWID - 1 ≤ limit ≤ MAX_ROWID →
  select_latest limit (Some t)
  = Ok (map project (sql_limit limit (merge_sort by_id_desc (rows t)))).
Proof.
  intros Hcols Hlim. unfold select_latest.
  rewrite missing_None by done.
  by rewrite bool_decide_eq_true_2.
Qed.

Lemma select_columns_declared : select_columns ++ ["id"] ⊆ declared_columns.
Proof.
  intros c Hc. unfold select_columns, declared_columns in *. simpl in Hc.
  rewrite !elem_of_cons in *. rewrite elem_of_nil in Hc. tauto.
Qed.

End SqliteFacts.

(** ** storage.py: the record store *)

Module StorageRun.
Import Storage SqliteFacts.

Lemma get_geolocation_run (E : env) (w : world) :
  get_geolocation E w
  = (Ok (located E), World (db w) (stdout w) (net w ++ [GeoIp "me"])).
Proof.
  unfold located, get_geolocation. run_monad.
  destruct (geocoder_ip E "me") as [g|e]; simpl; [|done].
  destruct (latlng g) as [|lat [|lng rest]]; simpl; done.
Qed.

Lemma located_failure (E : env) :
  geo_failure E → located E = (None, None, "Unknown").
Proof.
  unfold geo_failure, located, get_geolocation. run_monad.
  destruct (geocoder_ip E "me") as [g|e]; simpl; [|done].
  destruct (latlng g) as [|lat [|lng rest]]; simpl.
  - intros [[_ ->]|?]; done.
  - done.
  - intros [[? _]|?]; done.
Qed.

Lemma located_found (E : env) (lat lng : float) (rest : list float)
    (place : string) :
  geocoder_ip E "me" = Ok (Geocode (lat :: lng :: rest) (Some place)) →
  place ≠ "" →
  located E = (Some lat, Some lng, place).
Proof.
  intros Hgeo Hplace. unfold located, get_geolocation. run_monad.
  rewrite Hgeo. simpl. by destruct place.
Qed.

Lemma upload_to_cloudinary_run (E : env) (label img_path : string)
    (w : world) :
  upload_to_cloudinary E label img_path (now E) w
  = (Ok (uploaded (upload_of E label img_path)),
     World (db w)
       (stdout w ++ [upload_line (upload_of E label img_path)])
       (net w ++ [CloudinaryUpload img_path "wildlife_alerts"
                    (upload_context label (now E))])).
Proof.
  unfold upload_to_cloudinary, upload_of. run_monad.
  destruct (cloudinary_upload E _ _ _) as [res|e]; simpl; done.
Qed.

Lemma store_alert_run (E : env) (label img_path : string) (w : world) :
  store_alert E label img_path w
  = (Ok (uploaded (upload_of E label img_path)),
     World
       (match local_insert E label img_path (db w) with
        | Ok d => d
        | Raise _ => db w
        end)
       (stdout w ++ [upload_line (upload_of E label img_path)]
        ++ sqlite_lines (local_insert E label img_path (db w))
        ++ mirror_lines E label img_path)
       (net w ++ [GeoIp "me";
                  CloudinaryUpload img_path "wildlife_alerts"
                    (upload_context label (now E))]
        ++ mirror_requests E label img_path)).
Proof.
  unfold store_alert.
  unfold bind at 1. rewrite get_geolocation_run.
  destruct (located E) as [[latitude longitude] location] eqn:Hloc.
  unfold bind at 1. rewrite upload_to_cloudinary_run.
  destruct (uploaded (upload_of E label img_path))
    as [cloud_url public_id] eqn:Hup.
  unfold local_insert, mirror_lines, mirror_requests, mirror_document,
    store_in_sqlite, store_in_firebase, connect.
  rewrite Hup, Hloc. run_monad.
  destruct (sqlite3_connect E) as [e|]; simpl.
  - destruct (firestore_db E) as [client|]; simpl;
      [destruct (truthy cloud_url); simpl;
       [destruct (doc_set client _ _); simpl|]|];
      rewrite <- ?(assoc_L (++)); simpl; rewrite ?app_nil_r; done.
  - destruct (insert_or_replace _ _ _ _ _ _ _ _ _ (db w)) as [d|e]; simpl;
      (destruct (firestore_db E) as [client|]; simpl;
       [destruct (truthy cloud_url); simpl;
        [destruct (doc_set client _ _); simpl|]|]);
      rewrite <- ?(assoc_L (++)); simpl; rewrite ?app_nil_r; done.
Qed.

Lemma update_alert_status_run
    (E : env) (img_path : string) (telegram_ok synced : option bool)
    (w : world) :
  update_alert_status E img_path telegram_ok synced w
  = match sqlite3_connect E with
    | Some e =>
        (Ok tt, World (db w)
                  (stdout w ++ ["[SQLite update error] " +:+ exn_text e])
                  (net w))
    | None =>
        match flag_sets telegram_ok synced with
        | [] => (Ok tt, w)
        | sets =>
            match update_where_path sets (Text img_path) (db w) with
            | Ok d => (Ok tt, World d (stdout w) (net w))
            | Raise e =>
                (Ok tt, World (db w)
                          (stdout w
                           ++ ["[SQLite update error] " +:+ exn_text e])
                          (net w))
            end
        end
    end.
Proof.
  unfold update_alert_status, connect, commit, close. run_monad.
  destruct (sqlite3_connect E) as [e|]; simpl; [done|].
  unfold bind_str.
  destruct telegram_ok as [t|], synced as [s|]; simpl; try done;
    by destruct (update_where_path _ _ _).
Qed.

Lemma get_latest_alerts_run (E : env) (limit : Z) (w : world) :
  get_latest_alerts E limit w
  = match sqlite3_connect E with
    | Some e => (Raise e, w)
    | None =>
        match select_latest limit (db w) with
        | Ok rs => (Ok rs, w)
        | Raise e => (Raise e, w)
        end
    end.
Proof.
  unfold get_latest_alerts, connect, close. run_monad.
  destruct (sqlite3_connect E) as [e|]; simpl; [done|].
  by destruct (select_latest limit (db w)).
Qed.

(** The loop of [init_db]: nothing to add once every upgrade column is
    among the columns found. *)
Lemma upgrade_loop_nothing
    (cols : list string) (todo : list (string * string)) (w : world) :
  (∀ c, c ∈ map fst todo → c ∈ cols) →
  upgrade_loop cols todo w = (Ok tt, w).
Proof.
  induction todo as [|[col ty] todo IH]; intros Hall; [done|].
  simpl. rewrite bool_decide_eq_false_2.
  - unfold bind. simpl. apply IH. intros c Hc. apply Hall. by right.
  - intros Hn. apply Hn, Hall. by left.
Qed.

(** A name in lower case is another name only if it differs from it
    letter for letter. *)
Lemma has_column_add_other
    (c col : string) (t : table) (rs : list row) (s : Z) :
  fold_case c = c → fold_case col = col → c ≠ col →
  has_column c (Table (columns t ++ [col]) rs s) = has_column c t.
Proof.
  intros Hc Hcol Hne. rewrite has_column_add, Hc, Hcol.
  rewrite (bool_decide_eq_false_2 (c = col)) by done. apply orb_false_r.
Qed.

Lemma find_ext_in {A} (f g : A → bool) (l : list A) :
  (∀ x, x ∈ l → f x = g x) → List.find f l = List.find g l.
Proof.
  induction l as [|a l IH]; intros Hfg; [done|]. simpl.
  rewrite (Hfg a) by left. destruct (g a); [done|].
  apply IH. intros x Hx. apply Hfg. by right.
Qed.

(** The loop of [init_db] when no upgrade column is there under another
    spelling: every column not found is added. *)
Lemma upgrade_loop_adds
    (cols : list string) (todo : list (string * string)) (t : table)
    (out : list string) (sent : list request) :
  NoDup (map fst todo) →
  (∀ c, c ∈ map fst todo → fold_case c = c) →
  (∀ c, c ∈ map fst todo → c ∉ cols → has_column c t = false) →
  ∃ t',
    upgrade_loop cols todo (World (Some t) out sent)
    = (Ok tt,
       World (Some t')
         (out ++ map upgrade_line
                   (List.filter (λ c, bool_decide (c ∉ cols))
                      (map fst todo)))
         sent) ∧
    columns t'
    = columns t
      ++ List.filter (λ c, bool_decide (c ∉ cols)) (map fst todo) ∧
    seq t' = seq t ∧
    map rowid (rows t') = map rowid (rows t) ∧
    ("image_path" ∉ map fst todo →
     (∀ c ty, (c, ty) ∈ todo → c = "telegram_sent" → default_of ty ≠ Null) →
     wf_table t → wf_table t').
Proof.
  revert t out.
  induction todo as [|[col ty] todo IH]; intros t out Hnd Hlow Hsp.
  { exists t. simpl. rewrite !app_nil_r. done. }
  simpl in *. apply NoDup_cons in Hnd as [Hcol Hnd].
  assert (fold_case col = col) as Hlcol by (apply Hlow; left).
  case_bool_decide as Hnew; simpl.
  - assert (has_column col t = false) as Hfresh.
    { apply Hsp; [by left|done]. }
    destruct (IH (Table (columns t ++ [col])
                    (map (λ r, Row (rowid r)
                                 (<[col := default_of ty]> (cells r)))
                         (rows t))
                    (seq t))
                (out ++ [upgrade_line col]) Hnd)
      as (t' & Hrun & Hcols & Hseq & Hids & Hwf).
    { intros c Hc. apply Hlow. by right. }
    { intros c Hc Hc'. rewrite has_column_add_other.
      - apply Hsp; [by right|done].
      - apply Hlow. by right.
      - done.
      - by intros ->. }
    exists t'. split_and!.
    + run_monad. unfold add_column. simpl.
      rewrite Hfresh. simpl.
      unfold upgrade_line in *. rewrite Hrun.
      by rewrite <- (assoc_L (++)).
    + rewrite Hcols. simpl. by rewrite <- (assoc_L (++)).
    + done.
    + rewrite Hids. simpl. rewrite List.map_map. reflexivity.
    + intros Hip Hdef Hwft. apply Hwf.
      * intros Hin. apply Hip. by right.
      * intros c ty' Hin. apply Hdef. by right.
      * apply (wf_add_column col ty (Some t) (Some _)); simpl.
        -- done.
        -- intros ->. apply Hip. by left.
        -- intros ->. by apply (Hdef "telegram_sent" ty); [left|].
        -- done.
        -- unfold add_column. simpl. by rewrite Hfresh.
  - destruct (IH t out Hnd) as (t' & Hrun & Hcols & Hseq & Hids & Hwf).
    { intros c Hc. apply Hlow. by right. }
    { intros c Hc Hc'. apply Hsp; [by right|done]. }
    exists t'. split_and!; try done.
    intros Hip Hdef Hwft. apply Hwf; [| |done].
    + intros Hin. apply Hip. by right.
    + intros c ty' Hin. apply Hdef. by right.
Qed.

(** The loop of [init_db] when an upgrade column is there under another
    spelling: the columns before it are added, then ALTER TABLE raises. *)
Lemma upgrade_loop_raises
    (cols : list string) (todo : list (string * string)) (t : table)
    (out : list string) (sent : list request) (c : string) :
  NoDup (map fst todo) →
  (∀ c, c ∈ map fst todo → fold_case c = c) →
  List.find (respelled_in cols t) (map fst todo) = Some c →
  ∃ t' out',
    upgrade_loop cols todo (World (Some t) out sent)
    = (Raise (OperationalError ("duplicate column name: " +:+ c)),
       World (Some t') out' sent) ∧
    seq t' = seq t ∧
    map rowid (rows t') = map rowid (rows t) ∧
    ("image_path" ∉ map fst todo →
     (∀ c ty, (c, ty) ∈ todo → c = "telegram_sent" → default_of ty ≠ Null) →
     wf_table t → wf_table t').
Proof.
  revert t out.
  induction todo as [|[col ty] todo IH]; intros t out Hnd Hlow Hfind;
    [done|].
  simpl in *. apply NoDup_cons in Hnd as [Hcol Hnd].
  assert (fold_case col = col) as Hlcol by (apply Hlow; left).
  assert (∀ c, c ∈ map fst todo → fold_case c = c) as Hlow'.
  { intros x Hx. apply Hlow. by right. }
  unfold respelled_in at 1 in Hfind.
  case_bool_decide as Hnew; simpl in *.
  - destruct (has_column col t) eqn:Hhas.
    + injection Hfind as <-. exists t, out. split_and!; try done.
      run_monad. unfold add_column. simpl. by rewrite Hhas.
    + destruct (IH (Table (columns t ++ [col])
                      (map (λ r, Row (rowid r)
                                   (<[col := default_of ty]> (cells r)))
                           (rows t))
                      (seq t))
                  (out ++ [upgrade_line col]) Hnd Hlow')
        as (t' & out' & Hrun & Hseq & Hids & Hwf).
      { rewrite <- Hfind. apply find_ext_in. intros x Hx.
        unfold respelled_in. f_equal.
        apply has_column_add_other; [by apply Hlow'|done|by intros ->]. }
      exists t', out'. split_and!.
      * run_monad. unfold add_column. simpl. rewrite Hhas. simpl.
        unfold upgrade_line in *. by rewrite Hrun.
      * done.
      * rewrite Hids. simpl. rewrite List.map_map. reflexivity.
      * intros Hip Hdef Hwft. apply Hwf.
        -- intros Hin. apply Hip. by right.
        -- intros x ty' Hin. apply Hdef. by right.
        -- apply (wf_add_column col ty (Some t) (Some _)); simpl.
           ++ done.
           ++ intros ->. apply Hip. by left.
           ++ intros ->. by apply (Hdef "telegram_sent" ty); [left|].
           ++ done.
           ++ unfold add_column. simpl. by rewrite Hhas.
  - destruct (IH t out Hnd Hlow' Hfind) as (t' & out' & Hrun & Hseq & Hids & Hwf).
    exists t', out'. split_and!; try done.
    intros Hip Hdef Hwft. apply Hwf; [| |done].
    + intros Hin. apply Hip. by right.
    + intros x ty' Hin. apply Hdef. by right.
Qed.

Lemma upgrades_NoDup : NoDup (map fst upgrades).
Proof. refine (bool_decide_unpack _ _). vm_compute. exact I. Qed.

Lemma upgrades_lower (c : string) :
  c ∈ map fst upgrades → fold_case c = c.
Proof.
  unfold upgrades. simpl. rewrite !elem_of_cons, elem_of_nil.
  intros [->|[->|[->|[->|[->|[]]]]]]; reflexivity.
Qed.

Lemma upgrades_declared (c : string) :
  c ∈ map fst upgrades → c ∈ declared_columns.
Proof.
  unfold upgrades, declared_columns. simpl.
  rewrite !elem_of_cons, elem_of_nil. tauto.
Qed.

Lemma upgrades_defaults (c ty : string) :
  (c, ty) ∈ upgrades → c = "telegram_sent" → default_of ty ≠ Null.
Proof.
  intros Hin ->.
  assert (ty = "INTEGER DEFAULT 0") as ->; [|done].
  unfold upgrades in Hin. rewrite !elem_of_cons in Hin.
  destruct Hin as [?|[?|[?|[?|[?|Hin]]]]]; simplify_eq; try done.
  by inversion Hin.
Qed.

Lemma upgrades_no_path : "image_path" ∉ map fst upgrades.
Proof. refine (bool_decide_unpack _ _). vm_compute. exact I. Qed.

(** No upgrade column under another spelling: a column Python does not
    find is a column the table does not have. *)
Lemma respelled_None (d : database) (c : string) :
  respelled d = None → c ∈ map fst upgrades → c ∉ found_columns d →
  has_column c (default (Table declared_columns [] 0) d) = false.
Proof.
  intros Hre Hc Hn. destruct d as [t|].
  - change (has_column c t = false). change (c ∉ columns t) in Hn.
    unfold respelled in Hre. apply list_elem_of_In in Hc.
    pose proof (List.find_none _ _ Hre c Hc) as Hf.
    unfold respelled_in in Hf.
    by rewrite bool_decide_eq_true_2 in Hf by done.
  - by apply upgrades_declared in Hc.
Qed.

Lemma respelled_declared (t : table) :
  (∀ c, c ∈ map fst upgrades → c ∈ columns t) → respelled (Some t) = None.
Proof.
  intros Hall. unfold respelled.
  destruct (List.find _ _) as [c|] eqn:Hfind; [|done].
  apply List.find_some in Hfind as [Hin Hre].
  unfold respelled_in in Hre.
  rewrite bool_decide_eq_false_2 in Hre; [done|].
  intros Hn. by apply Hn, Hall, list_elem_of_In.
Qed.


Lemma respelled_Some (d : database) (c : string) :
  respelled d = Some c →
  ∃ t, d = Some t ∧ c ∈ map fst upgrades ∧ (c ∉ columns t) ∧
       has_column c t = true.
Proof.
  destruct d as [t|]; [|done]. unfold respelled.
  intros [Hin [Hn Hhas]%andb_true_iff]%List.find_some.
  apply bool_decide_eq_true_1 in Hn. apply list_elem_of_In in Hin.
  by exists t.
Qed.

Lemma init_db_run (E : env) (w : world) :
  sqlite3_connect E = None → respelled (db w) = None →
  ∃ t',
    init_db E w
    = (Ok tt,
       World (Some t')
         (stdout w
          ++ map upgrade_line (added_columns (found_columns (db w)))
          ++ [ready_line (found_columns (db w))])
         (net w)) ∧
    columns t'
    = found_columns (db w) ++ added_columns (found_columns (db w)) ∧
    (db w = None → t' = Table declared_columns [] 0) ∧
    (∀ t, db w = Some t →
          seq t' = seq t ∧ map rowid (rows t') = map rowid (rows t)) ∧
    (wf_db (db w) → wf_table t').
Proof.
  intros Hconn Hre. unfold init_db, connect. rewrite Hconn.
  destruct w as [d out sent]. cbn [db stdout net] in *.
  destruct (upgrade_loop_adds (found_columns d) upgrades
              (default (Table declared_columns [] 0) d)
              out sent upgrades_NoDup upgrades_lower)
    as (t' & Hrun & Hcols & Hseq & Hids & Hwf).
  { intros c. by apply respelled_None. }
  exists t'. split_and!.
  - unfold bind, ret, execute, fetchall, print, commit, close.
    destruct d as [t|]; cbn -[upgrade_loop upgrades] in *;
      rewrite Hrun; cbn -[upgrade_loop upgrades];
      unfold ready_line, added_columns;
      by rewrite <- (assoc_L (++)).
  - rewrite Hcols. by destruct d.
  - intros ->. simpl in *.
    destruct t' as [c r s]. simpl in *. subst.
    by destruct r.
  - intros t ->. done.
  - intros Hwfd. apply Hwf.
    + apply upgrades_no_path.
    + apply upgrades_defaults.
    + destruct d; simpl; [done|].
      split; simpl; [intros v; unfold rows_at; simpl; lia|].
      intros _ r Hr. by inversion Hr.
Qed.

(** [init_db] on a table that has an upgrade column under another
    spelling: ALTER TABLE raises, after the upgrade columns before that one
    were added. *)
Lemma init_db_respelled (E : env) (w : world) (c : string) :
  sqlite3_connect E = None → respelled (db w) = Some c →
  ∃ t t' out',
    db w = Some t ∧
    init_db E w
    = (Raise (OperationalError ("duplicate column name: " +:+ c)),
       World (Some t') out' (net w)) ∧
    seq t' = seq t ∧ map rowid (rows t') = map rowid (rows t) ∧
    (wf_table t → wf_table t').
Proof.
  intros Hconn Hre. unfold init_db, connect. rewrite Hconn.
  destruct w as [[t|] out sent]; [|done]. cbn [db stdout net] in *.
  destruct (upgrade_loop_raises (columns t) upgrades t out sent c
              upgrades_NoDup upgrades_lower Hre)
    as (t' & out' & Hrun & Hseq & Hids & Hwf).
  exists t, t', out'. split_and!; try done.
  - unfold bind, ret, execute, fetchall, print, commit, close.
    cbn -[upgrade_loop upgrades] in *. by rewrite Hrun.
  - apply Hwf; [apply upgrades_no_path|apply upgrades_defaults].
Qed.

Lemma init_db_again
    (E : env) (t : table) (out : list string) (sent : list request) :
  sqlite3_connect E = None →
  (∀ c, c ∈ map fst upgrades → c ∈ columns t) →
  init_db E (World (Some t) out sent)
  = (Ok tt, World (Some t) (out ++ [ready_line (columns t)]) sent).
Proof.
  intros Hconn Hall. unfold init_db, connect. rewrite Hconn.
  unfold bind, ret, execute, fetchall, print, commit, close.
  cbn -[upgrade_loop upgrades].
  by rewrite upgrade_loop_nothing.
Qed.

Lemma init_db_raises (E : env) (w : world) (e : exn) :
  sqlite3_connect E = Some e → init_db E w = (Raise e, w).
Proof.
  intros Hconn. unfold init_db, connect. rewrite Hconn. by run_monad.
Qed.

(** What the table is after the INSERT OR REPLACE of [store_alert] ran. *)
Lemma local_insert_Ok
    (E : env) (label img_path : string) (d d' : database) :
  local_insert E label img_path d = Ok d' →
  sqlite3_connect E = None ∧
  ∃ t r',
    d = Some t ∧ (∀ c, c ∈ insert_columns → has_column c t = true) ∧
    top t < MAX_ROWID ∧
    d' = Some (Table (columns t)
                 (List.filter
                    (λ r, negb (sql_eq (cell r "image_path") (Text img_path)))
                    (rows t) ++ [r'])
                 (top t + 1)) ∧
    rowid r' = top t + 1 ∧
    row_is r' (Text label) (Text (now E)) (Text img_path)
      (bind_opt_str (uploaded (upload_of E label img_path)).1)
      (Integer (if truthy (uploaded (upload_of E label img_path)).1
                then 1 else 0))
      (coalesce (select_telegram_sent (Text img_path) t) (Integer 0))
      (stored_float (located E).1.1) (stored_float (located E).1.2)
      (Text (located E).2).
Proof.
  unfold local_insert. destruct (sqlite3_connect E); [done|].
  intros H%insert_or_replace_Ok. done.
Qed.

Lemma local_insert_ready
    (E : env) (label img_path : string) (t : table) :
  sqlite3_connect E = None → ready t →
  ∃ d', local_insert E label img_path (Some t) = Ok d'.
Proof.
  intros Hconn Hready. unfold local_insert. rewrite Hconn.
  by apply insert_or_replace_ready.
Qed.

Lemma stored_at_after_insert
    (img_path : string) (cols : list string) (l : list row) (r' : row)
    (s : Z) :
  cell r' "image_path" = Text img_path →
  stored_at img_path
    (Table cols
       (List.filter
          (λ r, negb (sql_eq (cell r "image_path") (Text img_path))) l
        ++ [r'])
       s)
  = [r'].
Proof.
  intros Hp. unfold stored_at, rows_at. simpl.
  rewrite List.filter_app, filter_neg_filter. simpl.
  rewrite Hp. simpl. by rewrite bool_decide_eq_true_2.
Qed.

Lemma project_row_is
    (r : row) (l ts ip cu sy se la lo loc : value) :
  row_is r l ts ip cu sy se la lo loc →
  project r = [to_py l; to_py ts; to_py cu; to_py la; to_py lo; to_py loc].
Proof.
  intros (Hl & Hts & _ & Hcu & _ & _ & Hla & Hlo & Hloc).
  unfold project, select_columns. simpl.
  by rewrite Hl, Hts, Hcu, Hla, Hlo, Hloc.
Qed.

Lemma to_py_opt_str (o : option string) : to_py (bind_opt_str o) = of_opt_str o.
Proof. by destruct o. Qed.

(** A coordinate that is neither a NaN nor -0.0 is read back as it was
    bound, and no other is. *)
Lemma to_py_stored_float (o : option float) :
  to_py (stored_float o) = of_opt_float o ↔ kept_float o.
Proof.
  unfold stored_float, kept_float, bind_opt_float.
  destruct o as [x|]; [|by split].
  destruct (isnan x) eqn:Hnan; cbn [real_affinity].
  { cbn [to_py of_opt_float]. split; [discriminate|].
    intros H. destruct (H x eq_refl). congruence. }
  destruct (is_neg_zero x) eqn:Hneg; cbn [to_py of_opt_float].
  - split; [|intros H; destruct (H x eq_refl); congruence].
    intros [= Heq]. exfalso. rewrite <- Heq in Hneg.
    vm_compute in Hneg. discriminate.
  - split; [|reflexivity]. intros _ y [= <-]. by split.
Qed.

(** One successful [store_alert]: the table before and after. *)
Lemma store_alert_inserts
    (E : env) (label img_path : string) (w : world) (t : table) :
  db w = Some t → sqlite3_connect E = None → ready t →
  ∃ r',
    db (store_alert E label img_path w).2
    = Some (Table (columns t)
              (List.filter
                 (λ r, negb (sql_eq (cell r "image_path") (Text img_path)))
                 (rows t) ++ [r'])
              (top t + 1)) ∧
    rowid r' = top t + 1 ∧
    project r' = alert_record E label img_path ∧
    row_is r' (Text label) (Text (now E)) (Text img_path)
      (bind_opt_str (uploaded (upload_of E label img_path)).1)
      (Integer (if truthy (uploaded (upload_of E label img_path)).1
                then 1 else 0))
      (coalesce (select_telegram_sent (Text img_path) t) (Integer 0))
      (stored_float (located E).1.1) (stored_float (located E).1.2)
      (Text (located E).2).
Proof.
  intros Hdb Hconn Hready. rewrite store_alert_run, Hdb. simpl.
  destruct (local_insert_ready E label img_path t Hconn Hready) as [d' Hd'].
  rewrite Hd'.
  apply local_insert_Ok in Hd'
    as (_ & t0 & r' & [= <-] & _ & _ & -> & Hid & Hrow).
  exists r'. split_and!; try done.
  rewrite (project_row_is _ _ _ _ _ _ _ _ _ _ Hrow).
  unfold alert_record. simpl.
  by rewrite to_py_opt_str.
Qed.

Lemma top_after_insert (cols : list string) (l : list row) (r' : row) (s : Z) :
  (∀ r, r ∈ l → rowid r < rowid r') → s = rowid r' → 0 ≤ s →
  top (Table cols (l ++ [r']) s) = s.
Proof.
  intros Hl -> Hs. unfold top. simpl.
  assert (max_rowid (l ++ [r']) ≤ rowid r'); [|lia].
  induction l as [|a l IH]; simpl; [lia|].
  assert (rowid a < rowid r') by (apply Hl; left).
  assert (max_rowid (l ++ [r']) ≤ rowid r'); [|lia].
  apply IH. intros r Hr. apply Hl. by right.
Qed.

Lemma top_nonneg (t : table) : 0 ≤ max_rowid (rows t).
Proof. induction (rows t); simpl; lia. Qed.

(** The rows as ORDER BY id DESC hands them out, once a row with the
    largest id was appended. *)
Lemma merge_sort_max_first (l : list row) (x : row) :
  (∀ y, y ∈ l → rowid y < rowid x) →
  ∃ s', merge_sort by_id_desc (l ++ [x]) = x :: s' ∧ s' ≡ₚ l ∧
        StronglySorted by_id_desc s'.
Proof.
  intros Hmax. apply sorted_max_first; [|apply merge_sort_Permutation|done].
  apply StronglySorted_merge_sort;
    [apply by_id_desc_trans|apply by_id_desc_total].
Qed.

Lemma filter_rowid_lt (P : row → bool) (t : table) (y : row) :
  y ∈ List.filter P (rows t) → rowid y < top t + 1.
Proof.
  intros [Hy _]%list_elem_of_In%List.filter_In.
  apply list_elem_of_In, rowid_le_top in Hy. lia.
Qed.

(** *** The invariant is kept by every operation *)

Lemma wf_store_alert (E : env) (label img_path : string) (w : world) :
  wf_db (db w) → wf_db (db (store_alert E label img_path w).2).
Proof.
  intros Hwf. rewrite store_alert_run. simpl.
  destruct (local_insert E label img_path (db w)) as [d'|e] eqn:Hins;
    [|done].
  unfold local_insert in Hins. destruct (sqlite3_connect E); [done|].
  by eapply wf_insert_or_replace.
Qed.

Lemma wf_update_alert_status
    (E : env) (img_path : string) (telegram_ok synced : option bool)
    (w : world) :
  wf_db (db w) →
  wf_db (db (update_alert_status E img_path telegram_ok synced w).2).
Proof.
  intros Hwf. rewrite update_alert_status_run.
  destruct (sqlite3_connect E); [done|].
  destruct (flag_sets telegram_ok synced) as [|cv sets] eqn:Hsets; [done|].
  destruct (update_where_path _ _ _) as [d'|e] eqn:Hupd; [|done].
  simpl. eapply wf_update_where_path; [| |done|done].
  - rewrite <- Hsets.
    destruct telegram_ok, synced; simpl; intros Hin;
      repeat (apply elem_of_cons in Hin as [Hin|Hin]; [done|]);
      by apply elem_of_nil in Hin.
  - rewrite <- Hsets. intros cv' Hin.
    destruct telegram_ok as [[]|], synced as [[]|]; simpl in Hin;
      rewrite ?elem_of_cons, elem_of_nil in Hin;
      destruct_or?; subst; done.
Qed.

Lemma wf_init_db (E : env) (w : world) :
  wf_db (db w) → wf_db (db (init_db E w).2).
Proof.
  intros Hwf. destruct (sqlite3_connect E) as [e|] eqn:Hconn.
  - by rewrite (init_db_raises E w e).
  - destruct (respelled (db w)) as [c|] eqn:Hre.
    + destruct (init_db_respelled E w c Hconn Hre)
        as (t & t' & out' & Hdb & -> & _ & _ & Ht').
      simpl. apply Ht'. by rewrite Hdb in Hwf.
    + destruct (init_db_run E w Hconn Hre) as (t' & -> & _ & _ & _ & Ht').
      simpl. by apply Ht'.
Qed.

(** Two alerts stored one after the other under different paths are the
    two newest rows. *)
Lemma store_alert_twice
    (E2 E3 : env) (l2 p2 l3 p3 : string) (w : world) (t : table) :
  db w = Some t → declared_columns ⊆ columns t →
  top t + 2 ≤ MAX_ROWID →
  sqlite3_connect E2 = None → sqlite3_connect E3 = None → p2 ≠ p3 →
  ∃ t' r3 r2 rest,
    db (store_alert E3 l3 p3 (store_alert E2 l2 p2 w).2).2 = Some t' ∧
    columns t' = columns t ∧
    merge_sort by_id_desc (rows t') = r3 :: r2 :: rest ∧
    project r3 = alert_record E3 l3 p3 ∧
    project r2 = alert_record E2 l2 p2.
Proof.
  intros Hdb Hcols Htop Hc2 Hc3 Hne.
  assert (0 ≤ top t) as H0.
  { unfold top. pose proof (top_nonneg t). lia. }
  destruct (store_alert_inserts E2 l2 p2 w t Hdb Hc2) as (r2 & Hdb2 & Hid2 & Hproj2 & Hrow2).
  { split; [done|lia]. }
  set (k2 := List.filter
               (λ r, negb (sql_eq (cell r "image_path") (Text p2)))
               (rows t)) in *.
  assert (∀ y, y ∈ k2 → rowid y < rowid r2) as Hmax2.
  { intros y Hy%filter_rowid_lt. lia. }
  set (t2 := Table (columns t) (k2 ++ [r2]) (top t + 1)) in *.
  assert (top t2 = top t + 1) as Htop2.
  { apply top_after_insert; [done|done|lia]. }
  destruct (store_alert_inserts E3 l3 p3 _ t2 Hdb2 Hc3) as (r3 & Hdb3 & Hid3 & Hproj3 & Hrow3).
  { split; [done|lia]. }
  assert (cell r2 "image_path" = Text p2) as Hp2 by apply Hrow2.
  simpl in Hdb3. rewrite List.filter_app in Hdb3. simpl in Hdb3.
  rewrite Hp2 in Hdb3. simpl in Hdb3.
  rewrite bool_decide_eq_false_2 in Hdb3 by congruence. simpl in Hdb3.
  set (k3 := List.filter
               (λ r, negb (sql_eq (cell r "image_path") (Text p3))) k2) in *.
  assert (∀ y, y ∈ k3 → rowid y < rowid r2) as Hmax3.
  { intros y [Hy _]%list_elem_of_In%List.filter_In.
    by apply Hmax2, list_elem_of_In. }
  assert (∀ y, y ∈ k3 ++ [r2] → rowid y < rowid r3) as Hmax3'.
  { intros y [Hy%Hmax3| ->%list_elem_of_singleton]%elem_of_app; lia. }
  destruct (merge_sort_max_first _ r3 Hmax3') as (s' & Hsort & Hperm & Hss).
  destruct (sorted_max_first s' k3 r2 Hss Hperm Hmax3)
    as (s'' & -> & _ & _).
  eexists _, r3, r2, s''. split; [exact Hdb3|]. by split_and!.
Qed.

Lemma store_alert_ready
    (E : env) (label img_path : string) (w : world) (t : table) (n : Z) :
  db w = Some t → declared_columns ⊆ columns t →
  top t + n + 1 ≤ MAX_ROWID →
  ∃ t',
    db (store_alert E label img_path w).2 = Some t' ∧
    declared_columns ⊆ columns t' ∧ top t' + n ≤ MAX_ROWID.
Proof.
  intros Hdb Hcols Htop.
  assert (0 ≤ top t) as H0.
  { unfold top. pose proof (top_nonneg t). lia. }
  rewrite store_alert_run, Hdb. simpl.
  destruct (local_insert E label img_path (Some t)) as [d'|e] eqn:Hins.
  - apply local_insert_Ok in Hins
      as (Hconn & t0 & r' & [= <-] & _ & Hlt & -> & Hid & _).
    eexists. split; [done|]. simpl. split; [done|].
    rewrite top_after_insert; [lia| |done|lia].
    intros y Hy%filter_rowid_lt. lia.
  - exists t. split_and!; [done|done|lia].
Qed.

Lemma flag_sets_columns (telegram_ok synced : option bool) (c : string) :
  c ∈ map fst (flag_sets telegram_ok synced) ↔
  (c = "telegram_sent" ∧ is_Some telegram_ok) ∨
  (c = "synced" ∧ is_Some synced).
Proof.
  destruct telegram_ok as [a|], synced as [b|]; simpl;
    rewrite ?elem_of_cons, elem_of_nil; split;
    intros H; destruct_or?; destruct_and?; subst;
    try done; eauto;
    try (by destruct H as [? ?]);
    try match goal with H : is_Some None |- _ => by destruct H end.
Qed.

Lemma flag_sets_nil (telegram_ok synced : option bool) :
  flag_sets telegram_ok synced = [] ↔ telegram_ok = None ∧ synced = None.
Proof. destruct telegram_ok, synced; simpl; split; by intros; destruct_and?. Qed.

(** What [update_alert_status] prints: the error of the database, if
    there is one, and nothing otherwise. *)
Lemma update_alert_status_log
    (E : env) (img_path : string) (telegram_ok synced : option bool)
    (w w' : world) :
  (update_alert_status E img_path telegram_ok synced w).2 = w' →
  (∀ e, sqlite3_connect E = Some e →
        stdout w' = stdout w ++ ["[SQLite update error] " +:+ exn_text e] ∧
        db w' = db w) ∧
  (sqlite3_connect E = None → db w = None →
   ¬ (telegram_ok = None ∧ synced = None) →
   stdout w' = stdout w ++ ["[SQLite update error] no such table: alerts"] ∧
   db w' = db w) ∧
  (∀ t c, sqlite3_connect E = None → db w = Some t →
          ¬ (telegram_ok = None ∧ synced = None) →
          missing (map fst (flag_sets telegram_ok synced) ++ ["image_path"]) t
          = Some c →
          stdout w'
          = stdout w ++ ["[SQLite update error] no such column: " +:+ c] ∧
          db w' = db w) ∧
  (∀ t, sqlite3_connect E = None → db w = Some t →
        missing (map fst (flag_sets telegram_ok synced) ++ ["image_path"]) t
        = None →
        stdout w' = stdout w).
Proof.
  rewrite update_alert_status_run. intros <-. split_and!.
  - by intros e ->.
  - intros -> Hdb Hne.
    destruct (flag_sets telegram_ok synced) as [|cv sets] eqn:Hsets.
    { by apply flag_sets_nil in Hsets. }
    by rewrite Hdb.
  - intros t c -> Hdb Hne Hmiss.
    destruct (flag_sets telegram_ok synced) as [|cv sets] eqn:Hsets.
    { by apply flag_sets_nil in Hsets. }
    rewrite Hdb. unfold update_where_path. by rewrite Hmiss.
  - intros t -> Hdb Hmiss.
    destruct (flag_sets telegram_ok synced) as [|cv sets] eqn:Hsets; [done|].
    rewrite Hdb. unfold update_where_path. by rewrite Hmiss.
Qed.

Lemma cell_assign_flags
    (telegram_ok synced : option bool) (r : row) :
  (∀ b, telegram_ok = Some b →
        cell (assign (flag_sets telegram_ok synced) r) "telegram_sent"
        = flag b) ∧
  (∀ b, synced = Some b →
        cell (assign (flag_sets telegram_ok synced) r) "synced" = flag b).
Proof.
  unfold cell, assign.
  destruct telegram_ok as [a|], synced as [b|]; simpl; split;
    intros ? [= <-]; by simplify_map_eq.
Qed.

Lemma cells_assign_other
    (sets : list (string * value)) (r : row) (c : string) :
  c ∉ map fst sets → cells (assign sets r) !! c = cells r !! c.
Proof.
  unfold assign. simpl.
  induction sets as [|[c0 v0] sets IH]; intros Hc; [done|]. simpl in *.
  apply not_elem_of_cons in Hc as [Hne Hc].
  rewrite lookup_insert_ne by done. by apply IH.
Qed.

Lemma elem_of_added_columns (cols : list string) (c : string) :
  c ∈ added_columns cols ↔ c ∈ map fst upgrades ∧ c ∉ cols.
Proof.
  unfold added_columns.
  rewrite !list_elem_of_In, List.filter_In, bool_decide_eq_true.
  by rewrite !list_elem_of_In.
Qed.


End StorageRun.

(** ** Facts about the concrete worlds *)

Module SampleFacts.
Import Storage SqliteFacts StorageRun Sample.

Lemma db_w_init : db w_init = Some (t_of w_init).
Proof. vm_compute. reflexivity. Qed.

Lemma db_w_one : db w_one = Some (t_of w_one).
Proof. vm_compute. reflexivity. Qed.

Lemma db_w_sent : db w_sent = Some (t_of w_sent).
Proof. vm_compute. reflexivity. Qed.

Lemma db_w_three : db w_three = Some (t_of w_three).
Proof. vm_compute. reflexivity. Qed.

Lemma columns_w_init : columns (t_of w_init) = declared_columns.
Proof. vm_compute. reflexivity. Qed.

Lemma columns_w_one : columns (t_of w_one) = declared_columns.
Proof. vm_compute. reflexivity. Qed.

Lemma columns_w_sent : columns (t_of w_sent) = declared_columns.
Proof. vm_compute. reflexivity. Qed.

Lemma columns_w_three : columns (t_of w_three) = declared_columns.
Proof. vm_compute. reflexivity. Qed.

Lemma ready_w_init : ready (t_of w_init).
Proof. split; [by rewrite columns_w_init|vm_compute; reflexivity]. Qed.

Lemma ready_w_one : ready (t_of w_one).
Proof. split; [by rewrite columns_w_one|vm_compute; reflexivity]. Qed.

Lemma ready_w_sent : ready (t_of w_sent).
Proof. split; [by rewrite columns_w_sent|vm_compute; reflexivity]. Qed.

Lemma ready_w_three : ready (t_of w_three).
Proof. split; [by rewrite columns_w_three|vm_compute; reflexivity]. Qed.

Lemma wf_w_sent : wf_table (t_of w_sent).
Proof.
  assert (wf_db (db w_sent)) as H.
  { apply wf_update_alert_status, wf_store_alert, wf_init_db. exact I. }
  by rewrite db_w_sent in H.
Qed.

Lemma first_row_w_sent :
  first_row w_sent ∈ rows (t_of w_sent) ∧
  cell (first_row w_sent) "image_path" = Text "cam/0001.jpg" ∧
  cell (first_row w_sent) "telegram_sent" = Integer 1.
Proof.
  split; [|split; vm_compute; reflexivity].
  apply list_elem_of_lookup. exists 0%nat. vm_compute. reflexivity.
Qed.

Lemma first_row_w_three :
  first_row w_three ∈ rows (t_of w_three) ∧
  cell (first_row w_three) "image_path" = Text "cam/0001.jpg".
Proof.
  split; [|vm_compute; reflexivity].
  apply list_elem_of_lookup. exists 0%nat. vm_compute. reflexivity.
Qed.

Lemma first_row_w_one :
  rows (t_of w_one) !! 0%nat = Some (first_row w_one) ∧
  cell (first_row w_one) "image_path" = Text "cam/0001.jpg".
Proof. split; vm_compute; reflexivity. Qed.

Lemma E_up_contract :
  upload_contract (upload_of E_up "tiger" "cam/0001.jpg").
Proof.
  exists "https://img.example/cam/0001.jpg", "wildlife_alerts/cam/0001.jpg".
  split_and!; [vm_compute; reflexivity|done|vm_compute; reflexivity].
Qed.

End SampleFacts.

(** ** storage.py: what the specification says of it *)

Module StorageSpec.
Import Storage SqliteFacts StorageRun Sample SampleFacts.

(** C1.  On a table that satisfies the invariant of the store, a row
    already stored under [img_path] hands its [telegram_sent] on: whatever
    row is stored under that path once [store_alert] returned carries the
    prior value.  When the INSERT OR REPLACE runs (the database opens, the
    table is ready) the path is afterwards held by exactly one row, a new
    one with the next rowid, and with no prior row its [telegram_sent]
    is 0. *)
Theorem store_alert_keeps_telegram_sent
    (E : env) (label img_path : string) (w : world) (t : table) :
  db w = Some t → wf_table t →
  ∃ res w' t',
    store_alert E label img_path w = (Ok res, w') ∧ db w' = Some t' ∧
    (∀ r r',
        r ∈ rows t → cell r "image_path" = Text img_path →
        r' ∈ rows t' → cell r' "image_path" = Text img_path →
        cell r' "telegram_sent" = cell r "telegram_sent") ∧
    (sqlite3_connect E = None → ready t →
     ∃ r',
       stored_at img_path t' = [r'] ∧ cell r' "label" = Text label ∧
       rowid r' = top t + 1 ∧ (r' ∉ rows t) ∧
       (stored_at img_path t = [] → cell r' "telegram_sent" = Integer 0)).
Proof.
  intros Hdb Hwf. rewrite store_alert_run, Hdb.
  destruct (local_insert E label img_path (Some t)) as [d'|e] eqn:Hins.
  - apply local_insert_Ok in Hins
      as (Hconn & t0 & r' & [= <-] & Hcols & Htop & -> & Hid & Hrow).
    eexists _, _, _. split; [done|]. split; [done|]. simpl.
    destruct Hrow as (Hlabel & _ & Hpath & _ & _ & Hsent & _).
    split.
    + intros r r0 Hr Hrp Hr0 Hr0p.
      assert (r0 = r') as ->.
      { apply elem_of_app in Hr0 as [Hr0| ->%list_elem_of_singleton];
          [|done].
        apply list_elem_of_In, List.filter_In in Hr0 as [_ Hneg].
        rewrite Hr0p in Hneg. simpl in Hneg.
        by rewrite bool_decide_eq_true_2 in Hneg. }
      rewrite Hsent, select_telegram_sent_stored.
      rewrite (stored_at_unique img_path t r) by done.
      assert (cell r "telegram_sent" ≠ Null) as Hnn.
      { apply (wf_sent t Hwf); [|done]. apply Hcols.
        unfold insert_columns. rewrite !elem_of_cons. tauto. }
      by destruct (cell r "telegram_sent").
    + intros _ _. exists r'. split_and!; try done.
      * by apply stored_at_after_insert.
      * intros Hin%rowid_le_top. lia.
      * intros Hnone. rewrite Hsent, select_telegram_sent_stored, Hnone.
        done.
  - eexists _, _, _. split; [done|]. split; [done|]. split.
    + intros r r0 Hr Hrp Hr0 Hr0p.
      pose proof (stored_at_unique img_path t r Hwf Hr Hrp) as H1.
      pose proof (stored_at_unique img_path t r0 Hwf Hr0 Hr0p) as H2.
      congruence.
    + intros Hconn Hready.
      destruct (local_insert_ready E label img_path t Hconn Hready)
        as [d' Hd']. congruence.
Qed.

(** On the sample store: the first alert was marked as sent, and storing it
    again leaves [telegram_sent] = 1 on the row under its path. *)
Lemma store_alert_keeps_telegram_sent_witness :
  db w_sent = Some (t_of w_sent) ∧ wf_table (t_of w_sent) ∧
  ∃ res w' t',
    store_alert E_up "tiger" "cam/0001.jpg" w_sent = (Ok res, w') ∧
    db w' = Some t' ∧
    ∀ r', r' ∈ rows t' → cell r' "image_path" = Text "cam/0001.jpg" →
          cell r' "telegram_sent" = Integer 1.
Proof.
  split; [exact db_w_sent|]. split; [exact wf_w_sent|].
  destruct (store_alert_keeps_telegram_sent E_up "tiger" "cam/0001.jpg"
              w_sent (t_of w_sent) db_w_sent wf_w_sent)
    as (res & w' & t' & Hrun & Hdb & Hkeep & _).
  exists res, w', t'. split; [exact Hrun|]. split; [exact Hdb|].
  intros r' Hr' Hp.
  destruct first_row_w_sent as (Hin & Hpath & Hsent).
  rewrite (Hkeep (first_row w_sent) r' Hin Hpath Hr' Hp). exact Hsent.
Defined.

(** C10.  Storing an alert again under a path the table already holds
    removes the old row and writes one whose id is strictly larger than
    every id of the table before, so a following [get_latest_alerts] with
    room for at least one record returns the re-stored record first. *)
Theorem restored_alert_comes_first
    (E E' : env) (label img_path : string) (w : world) (t : table)
    (r : row) (limit : Z) :
  db w = Some t → r ∈ rows t → cell r "image_path" = Text img_path →
  sqlite3_connect E = None → ready t →
  sqlite3_connect E' = None → 1 ≤ limit ≤ MAX_ROWID →
  ∃ res w' t' r' rest,
    store_alert E label img_path w = (Ok res, w') ∧ db w' = Some t' ∧
    stored_at img_path t' = [r'] ∧ (r ∉ rows t') ∧
    (∀ old, old ∈ rows t → rowid old < rowid r') ∧
    project r' = alert_record E label img_path ∧
    get_latest_alerts E' limit w' = (Ok (project r' :: rest), w').
Proof.
  intros Hdb Hr Hrp Hconn Hready Hconn' Hlimit.
  destruct (store_alert_inserts E label img_path w t Hdb Hconn Hready)
    as (r' & Hdb' & Hid & Hproj & Hrow).
  pose proof (store_alert_run E label img_path w) as Hrun.
  destruct (store_alert E label img_path w) as [o w'].
  injection Hrun as -> _. simpl in Hdb'.
  assert (∀ y, y ∈ List.filter
                     (λ r, negb (sql_eq (cell r "image_path") (Text img_path)))
                     (rows t) → rowid y < rowid r') as Hmax.
  { intros y Hy%filter_rowid_lt. lia. }
  destruct (merge_sort_max_first _ r' Hmax) as (s' & Hsort & _ & _).
  eexists _, w', _, r', (map project (take (Nat.pred (Z.to_nat limit)) s')).
  split; [done|]. split; [exact Hdb'|]. split_and!.
  - apply stored_at_after_insert. apply Hrow.
  - simpl. intros [Hin| ->%list_elem_of_singleton]%elem_of_app.
    + apply list_elem_of_In, List.filter_In in Hin as [_ Hneg].
      rewrite Hrp in Hneg. simpl in Hneg.
      by rewrite bool_decide_eq_true_2 in Hneg.
    + apply rowid_le_top in Hr. lia.
  - intros old Hold%rowid_le_top. lia.
  - done.
  - rewrite get_latest_alerts_run, Hconn', Hdb'.
    destruct Hready as [Hcols _].
    rewrite select_latest_Ok; simpl.
    + rewrite Hsort. unfold sql_limit.
      rewrite bool_decide_eq_false_2 by lia.
      destruct (Z.to_nat limit) as [|n] eqn:Hn; [lia|]. done.
    + intros c Hc. by apply Hcols, select_columns_declared.
    + unfold MAX_ROWID in *. lia.
Qed.

(** On the sample store of three alerts: the first one stored again, with
    the network down, is what [get_latest_alerts] returns first. *)
Lemma restored_alert_comes_first_witness :
  db w_three = Some (t_of w_three) ∧
  first_row w_three ∈ rows (t_of w_three) ∧
  cell (first_row w_three) "image_path" = Text "cam/0001.jpg" ∧
  sqlite3_connect E_offline = None ∧ ready (t_of w_three) ∧
  sqlite3_connect E_up = None ∧ 1 ≤ 20 ≤ MAX_ROWID ∧
  ∃ res w' rest,
    store_alert E_offline "tiger" "cam/0001.jpg" w_three = (Ok res, w') ∧
    get_latest_alerts E_up 20 w'
    = (Ok (alert_record E_offline "tiger" "cam/0001.jpg" :: rest), w').
Proof.
  destruct first_row_w_three as (Hin & Hpath).
  assert (1 ≤ 20 ≤ MAX_ROWID) as Hlimit by (unfold MAX_ROWID; lia).
  split; [exact db_w_three|]. split; [exact Hin|]. split; [exact Hpath|].
  split; [reflexivity|]. split; [exact ready_w_three|].
  split; [reflexivity|]. split; [exact Hlimit|].
  destruct (restored_alert_comes_first E_offline E_up "tiger" "cam/0001.jpg"
              w_three (t_of w_three) (first_row w_three) 20
              db_w_three Hin Hpath eq_refl ready_w_three eq_refl Hlimit)
    as (res & w' & t' & r' & rest & Hrun & _ & _ & _ & _ & Hproj & Hget).
  exists res, w', rest. split; [exact Hrun|]. by rewrite <- Hproj.
Defined.

(** C9, as amended.  With the database open, the table in place and a
    limit that fits SQLite's 64-bit integer, [get_latest_alerts] returns
    the rows in descending id order (a sorted permutation of all rows, so
    nothing is filtered out), each projected to (label, timestamp,
    cloud_url, latitude, longitude, location): the first [limit] of them
    for a limit of 0 or more, all of them for a negative limit.  In
    particular, after three alerts were stored under different paths,
    [get_latest_alerts 2] returns exactly the third and the second, in
    that order. *)
Theorem get_latest_alerts_newest_first :
  (∀ (E : env) (limit : Z) (w : world) (t : table),
      sqlite3_connect E = None → db w = Some t →
      declared_columns ⊆ columns t →
      - MAX_ROWID - 1 ≤ limit ≤ MAX_ROWID →
      ∃ sorted res,
        get_latest_alerts E limit w = (Ok res, w) ∧
        sorted ≡ₚ rows t ∧ StronglySorted by_id_desc sorted ∧
        (0 ≤ limit →
         res = map project (take (Z.to_nat limit) sorted) ∧
         length res = Nat.min (Z.to_nat limit) (length (rows t))) ∧
        (limit < 0 → res = map project sorted)) ∧
  (∀ (E1 E2 E3 E : env) (l1 p1 l2 p2 l3 p3 : string) (w : world)
      (t : table),
      db w = Some t → declared_columns ⊆ columns t →
      top t + 3 ≤ MAX_ROWID →
      sqlite3_connect E1 = None → sqlite3_connect E2 = None →
      sqlite3_connect E3 = None → sqlite3_connect E = None →
      p1 ≠ p2 → p1 ≠ p3 → p2 ≠ p3 →
      let w1 := (store_alert E1 l1 p1 w).2 in
      let w2 := (store_alert E2 l2 p2 w1).2 in
      let w3 := (store_alert E3 l3 p3 w2).2 in
      get_latest_alerts E 2 w3
      = (Ok [alert_record E3 l3 p3; alert_record E2 l2 p2], w3)).
Proof.
  split.
  - intros E limit w t Hconn Hdb Hcols Hlimit.
    exists (merge_sort by_id_desc (rows t)). eexists.
    rewrite get_latest_alerts_run, Hconn, Hdb.
    rewrite select_latest_Ok;
      [|intros c Hc; by apply Hcols, select_columns_declared|done].
    split; [done|]. split; [apply merge_sort_Permutation|].
    split; [apply StronglySorted_merge_sort;
            [apply by_id_desc_trans|apply by_id_desc_total]|].
    unfold sql_limit. split.
    + intros Hpos. rewrite bool_decide_eq_false_2 by lia. split; [done|].
      rewrite length_map, length_take, merge_sort_Permutation. done.
    + intros Hneg. by rewrite bool_decide_eq_true_2.
  - intros E1 E2 E3 E l1 p1 l2 p2 l3 p3 w t Hdb Hcols Htop
      Hc1 Hc2 Hc3 Hc _ _ Hne w1 w2 w3.
    destruct (store_alert_ready E1 l1 p1 w t 2 Hdb Hcols)
      as (t1 & Hdb1 & Hcols1 & Htop1); [lia|].
    destruct (store_alert_twice E2 E3 l2 p2 l3 p3 w1 t1 Hdb1 Hcols1 Htop1
                Hc2 Hc3 Hne)
      as (t3 & r3 & r2 & rest & Hdb3 & Hcols3 & Hsort & Hp3 & Hp2).
    fold w2 w3 in Hdb3.
    rewrite get_latest_alerts_run, Hc, Hdb3.
    rewrite select_latest_Ok.
    + rewrite Hsort. unfold sql_limit. simpl. by rewrite Hp3, Hp2.
    + intros c Hc'. rewrite Hcols3. by apply Hcols1, select_columns_declared.
    + unfold MAX_ROWID. lia.
Qed.

(** On the sample store: a limit of 2 over three records gives two, and
    three alerts stored in a row give the third and the second. *)
Lemma get_latest_alerts_newest_first_witness :
  (sqlite3_connect E_up = None ∧ db w_three = Some (t_of w_three) ∧
   declared_columns ⊆ columns (t_of w_three) ∧
   - MAX_ROWID - 1 ≤ 2 ≤ MAX_ROWID ∧
   ∃ res, get_latest_alerts E_up 2 w_three = (Ok res, w_three) ∧
          length res = 2%nat) ∧
  (db w_init = Some (t_of w_init) ∧
   declared_columns ⊆ columns (t_of w_init) ∧
   top (t_of w_init) + 3 ≤ MAX_ROWID ∧
   sqlite3_connect E_offline = None ∧
   "cam/0001.jpg" ≠ "cam/0002.jpg" ∧ "cam/0001.jpg" ≠ "cam/0003.jpg" ∧
   "cam/0002.jpg" ≠ "cam/0003.jpg" ∧
   let w1 := (store_alert E_up "tiger" "cam/0001.jpg" w_init).2 in
   let w2 := (store_alert E_offline "boar" "cam/0002.jpg" w1).2 in
   let w3 := (store_alert E_up "deer" "cam/0003.jpg" w2).2 in
   get_latest_alerts E_up 2 w3
   = (Ok [alert_record E_up "deer" "cam/0003.jpg";
          alert_record E_offline "boar" "cam/0002.jpg"], w3)).
Proof.
  assert (- MAX_ROWID - 1 ≤ 2 ≤ MAX_ROWID) as Hlimit
    by (unfold MAX_ROWID; lia).
  assert (top (t_of w_init) + 3 ≤ MAX_ROWID) as Htop
    by (vm_compute; discriminate).
  destruct ready_w_three as [Hcols3 _]. destruct ready_w_init as [Hcols0 _].
  destruct get_latest_alerts_newest_first as [Hgen Hthree].
  split.
  - split; [reflexivity|]. split; [exact db_w_three|].
    split; [exact Hcols3|]. split; [exact Hlimit|].
    destruct (Hgen E_up 2 w_three (t_of w_three) eq_refl db_w_three Hcols3
                Hlimit)
      as (sorted & res & Hrun & _ & _ & Hpos & _).
    exists res. split; [exact Hrun|].
    destruct Hpos as [_ Hlen]; [lia|]. rewrite Hlen. vm_compute. reflexivity.
  - split; [exact db_w_init|]. split; [exact Hcols0|].
    split; [exact Htop|]. split; [reflexivity|].
    split; [done|]. split; [done|]. split; [done|].
    exact (Hthree E_up E_offline E_up E_up "tiger" "cam/0001.jpg"
             "boar" "cam/0002.jpg" "deer" "cam/0003.jpg" w_init (t_of w_init)
             db_w_init Hcols0 Htop eq_refl eq_refl eq_refl eq_refl
             ltac:(done) ltac:(done) ltac:(done)).
Defined.

(** C2, as amended.  [store_alert] always returns a pair, in every world
    and whatever the collaborators do.  When the upload raises the pair is
    (absent, absent); when it succeeds the pair is what the answer holds
    under [secure_url] and under [public_id], each absent when the answer
    lacks it.  So an element is present only when the upload succeeded,
    and the two are present together when the image host keeps its
    contract (a successful answer carries a non-empty [secure_url] and a
    [public_id]), but not otherwise.  The row the call inserts holds the
    cloud URL returned and has [synced] = 1 exactly when that URL is
    present and not empty, the test the code makes; when the upload raises
    the row has [cloud_url] NULL and [synced] = 0. *)
Theorem store_alert_returns_pair
    (E : env) (label img_path : string) (w : world) :
  ∃ cloud_url public_id w',
    store_alert E label img_path w = (Ok (cloud_url, public_id), w') ∧
    (∀ res, upload_of E label img_path = Ok res →
            cloud_url = res !! "secure_url" ∧
            public_id = res !! "public_id") ∧
    (∀ e, upload_of E label img_path = Raise e →
          cloud_url = None ∧ public_id = None) ∧
    (is_Some cloud_url ∨ is_Some public_id →
     ∃ res, upload_of E label img_path = Ok res) ∧
    (upload_contract (upload_of E label img_path) →
     (cloud_url = None ∧ public_id = None) ∨
     (is_Some cloud_url ∧ is_Some public_id ∧ truthy cloud_url = true)) ∧
    (∀ t, db w = Some t → sqlite3_connect E = None → ready t →
          ∃ t' r',
            db w' = Some t' ∧ stored_at img_path t' = [r'] ∧
            rowid r' = top t + 1 ∧
            cell r' "cloud_url" = bind_opt_str cloud_url ∧
            cell r' "synced"
            = Integer (if truthy cloud_url then 1 else 0) ∧
            (cell r' "synced" = Integer 1 ↔
             ∃ u, cloud_url = Some u ∧ u ≠ "") ∧
            (∀ e, upload_of E label img_path = Raise e →
                  cell r' "cloud_url" = Null ∧
                  cell r' "synced" = Integer 0)).
Proof.
  pose proof (store_alert_run E label img_path w) as Hrun.
  destruct (store_alert E label img_path w) as [o w'] eqn:Hcall.
  injection Hrun as -> Hw'.
  assert (∀ t, db w = Some t → sqlite3_connect E = None → ready t →
               ∃ t' r',
                 db w' = Some t' ∧ stored_at img_path t' = [r'] ∧
                 rowid r' = top t + 1 ∧
                 cell r' "cloud_url"
                 = bind_opt_str (uploaded (upload_of E label img_path)).1 ∧
                 cell r' "synced"
                 = Integer
                     (if truthy (uploaded (upload_of E label img_path)).1
                      then 1 else 0)) as Hrow.
  { intros t Hdb Hconn Hready.
    destruct (store_alert_inserts E label img_path w t Hdb Hconn Hready)
      as (r' & Hdb' & Hid & _ & Hrow).
    rewrite Hcall in Hdb'. simpl in Hdb'.
    destruct Hrow as (_ & _ & Hpath & Hcu & Hsy & _).
    eexists _, r'. split; [exact Hdb'|].
    split; [by apply stored_at_after_insert|]. done. }
  clear Hcall Hw'.
  destruct (upload_of E label img_path) as [res|e] eqn:Hup; simpl in *.
  - exists (res !! "secure_url"), (res !! "public_id"), w'.
    split; [done|]. split_and!.
    + by intros res' [= <-].
    + done.
    + intros _. by exists res.
    + intros (u & i & Hu & Hne & Hi). right. rewrite Hu, Hi.
      split_and!; [done|done|]. simpl. by destruct u.
    + intros t Hdb Hconn Hready.
      destruct (Hrow t Hdb Hconn Hready)
        as (t' & r' & Hdb' & Hst & Hid & Hcu & Hsy).
      exists t', r'. split_and!; try done.
      rewrite Hsy. destruct (res !! "secure_url") as [[|a u]|]; simpl.
      * split; [done|]. by intros (u & [= <-] & Hne).
      * split; [|done]. intros _. by eexists.
      * split; [done|]. by intros (u & ? & _).
  - exists None, None, w'. split; [done|]. split_and!.
    + done.
    + done.
    + by intros [[? ?]|[? ?]].
    + intros _. by left.
    + intros t Hdb Hconn Hready.
      destruct (Hrow t Hdb Hconn Hready)
        as (t' & r' & Hdb' & Hst & Hid & Hcu & Hsy).
      exists t', r'. split_and!; try done.
      rewrite Hsy. split; [done|]. by intros (u & ? & _).
Qed.

(** With every collaborator up the pair is present and the row synced;
    with the image host down the pair is absent and the row is not. *)
Lemma store_alert_returns_pair_witness :
  (upload_contract (upload_of E_up "tiger" "cam/0001.jpg") ∧
   db w_init = Some (t_of w_init) ∧ sqlite3_connect E_up = None ∧
   ready (t_of w_init) ∧
   ∃ cloud_url public_id w' t' r',
     store_alert E_up "tiger" "cam/0001.jpg" w_init
     = (Ok (cloud_url, public_id), w') ∧
     ((cloud_url = None ∧ public_id = None) ∨
      (is_Some cloud_url ∧ is_Some public_id ∧ truthy cloud_url = true)) ∧
     db w' = Some t' ∧ stored_at "cam/0001.jpg" t' = [r'] ∧
     (cell r' "synced" = Integer 1 ↔ ∃ u, cloud_url = Some u ∧ u ≠ "")) ∧
  (upload_of E_offline "tiger" "cam/0001.jpg" = Raise timeout ∧
   sqlite3_connect E_offline = None ∧
   ∃ w' t' r',
     store_alert E_offline "tiger" "cam/0001.jpg" w_init
     = (Ok (None, None), w') ∧
     db w' = Some t' ∧ stored_at "cam/0001.jpg" t' = [r'] ∧
     cell r' "cloud_url" = Null ∧ cell r' "synced" = Integer 0).
Proof.
  split.
  - split; [exact E_up_contract|]. split; [exact db_w_init|].
    split; [reflexivity|]. split; [exact ready_w_init|].
    destruct (store_alert_returns_pair E_up "tiger" "cam/0001.jpg" w_init)
      as (cloud_url & public_id & w' & Hrun & _ & _ & _ & Hboth & Hrow).
    destruct (Hrow (t_of w_init) db_w_init eq_refl ready_w_init)
      as (t' & r' & Hdb & Hst & _ & _ & _ & Hsynced & _).
    exists cloud_url, public_id, w', t', r'.
    split; [exact Hrun|]. split; [exact (Hboth E_up_contract)|].
    split; [exact Hdb|]. split; [exact Hst|]. exact Hsynced.
  - split; [reflexivity|]. split; [reflexivity|].
    destruct (store_alert_returns_pair E_offline "tiger" "cam/0001.jpg" w_init)
      as (cloud_url & public_id & w' & Hrun & _ & Hraise & _ & _ & Hrow).
    destruct (Hraise timeout eq_refl) as [-> ->].
    destruct (Hrow (t_of w_init) db_w_init eq_refl ready_w_init)
      as (t' & r' & Hdb & Hst & _ & _ & _ & _ & Hnull).
    exists w', t', r'.
    split; [exact Hrun|]. split; [exact Hdb|]. split; [exact Hst|].
    exact (Hnull timeout eq_refl).
Defined.

(** Against C2 as stated: the upload succeeds and the image host answers
    with an identifier but no URL; the pair [store_alert] returns has the
    identifier present and the cloud URL absent. *)
Lemma store_alert_returns_mixed_pair :
  upload_of Sample2.E_nourl "tiger" "cam/0001.jpg" = Ok Sample2.res_nourl ∧
  (store_alert Sample2.E_nourl "tiger" "cam/0001.jpg" Sample.w_init).1
  = Ok (None, Some "wildlife_alerts/x1").
Proof. split; vm_compute; reflexivity. Qed.

(** C6.  The geolocation block of [store_alert] returns in every world
    and never raises, prints nothing and leaves the database alone.  When
    the lookup failed (it raised, it found nothing, or its coordinates are
    not a pair) latitude and longitude are absent and the location is
    ["Unknown"], and these are the values of the row [store_alert] then
    inserts. *)
Theorem geolocation_failure_degrades
    (E : env) (label img_path : string) (w : world) :
  (∃ latitude longitude location w1,
      get_geolocation E w = (Ok (latitude, longitude, location), w1) ∧
      db w1 = db w ∧ stdout w1 = stdout w ∧
      (geo_failure E →
       latitude = None ∧ longitude = None ∧ location = "Unknown")) ∧
  ∃ res w',
    store_alert E label img_path w = (Ok res, w') ∧
    (geo_failure E →
     ∀ t, db w = Some t → sqlite3_connect E = None → ready t →
          ∃ t' r',
            db w' = Some t' ∧ stored_at img_path t' = [r'] ∧
            cell r' "latitude" = Null ∧ cell r' "longitude" = Null ∧
            cell r' "location" = Text "Unknown").
Proof.
  split.
  - rewrite get_geolocation_run.
    destruct (located E) as [[latitude longitude] location] eqn:Hloc.
    eexists _, _, _, _. split; [done|]. split_and!; try done.
    intros Hfail%located_failure. rewrite Hloc in Hfail.
    by injection Hfail as -> -> ->.
  - pose proof (store_alert_run E label img_path w) as Hrun.
    destruct (store_alert E label img_path w) as [o w'] eqn:Hcall.
    injection Hrun as -> Hw'. eexists _, w'. split; [done|].
    intros Hfail%located_failure t Hdb Hconn Hready.
    destruct (store_alert_inserts E label img_path w t Hdb Hconn Hready)
      as (r' & Hdb' & _ & _ & Hrow).
    rewrite Hcall in Hdb'. simpl in Hdb'.
    destruct Hrow as (_ & _ & Hpath & _ & _ & _ & Hla & Hlo & Hloc).
    rewrite Hfail in Hla, Hlo, Hloc. simpl in *.
    eexists _, r'. split; [exact Hdb'|].
    split; [by apply stored_at_after_insert|]. done.
Qed.

(** With the geocoder down the row stored has no coordinates and the
    location [Unknown]. *)
Lemma geolocation_failure_degrades_witness :
  geo_failure E_offline ∧ db w_init = Some (t_of w_init) ∧
  sqlite3_connect E_offline = None ∧ ready (t_of w_init) ∧
  ∃ res w' t' r',
    store_alert E_offline "tiger" "cam/0001.jpg" w_init = (Ok res, w') ∧
    db w' = Some t' ∧ stored_at "cam/0001.jpg" t' = [r'] ∧
    cell r' "latitude" = Null ∧ cell r' "longitude" = Null ∧
    cell r' "location" = Text "Unknown".
Proof.
  split; [exact I|]. split; [exact db_w_init|]. split; [reflexivity|].
  split; [exact ready_w_init|].
  destruct (geolocation_failure_degrades E_offline "tiger" "cam/0001.jpg"
              w_init) as (_ & res & w' & Hrun & Hrow).
  destruct (Hrow I (t_of w_init) db_w_init eq_refl ready_w_init)
    as (t' & r' & Hdb & Hst & Hcells).
  exists res, w', t', r'. split; [exact Hrun|]. split; [exact Hdb|].
  split; [exact Hst|]. exact Hcells.
Defined.

(** C5.  Among the requests one call of [store_alert] makes there is a
    write to the document store exactly when a client is configured and a
    cloud URL was obtained.  The database the call leaves is the same for
    every document-store client, configured or not, failing or not.  When
    the write raises, [store_alert] still returns its pair, the last line
    printed is the error, and the row inserted before is in the table. *)
Theorem mirror_attempted_iff
    (E : env) (label img_path : string) (w : world) :
  ∃ cloud_url public_id w' reqs,
    store_alert E label img_path w = (Ok (cloud_url, public_id), w') ∧
    net w' = net w ++ reqs ∧
    ((∃ r, r ∈ reqs ∧ is_firestore_set r = true) ↔
     is_Some (firestore_db E) ∧ truthy cloud_url = true) ∧
    (∀ c, db (store_alert (with_firestore c E) label img_path w).2
          = db w') ∧
    (∀ client e,
        firestore_db E = Some client → truthy cloud_url = true →
        doc_set client "animal_alerts" (mirror_document E label img_path)
        = Some e →
        last (stdout w') = Some ("[Firebase Error] " +:+ exn_text e) ∧
        ∀ t, db w = Some t → sqlite3_connect E = None → ready t →
             ∃ t' r', db w' = Some t' ∧ stored_at img_path t' = [r'] ∧
                      rowid r' = top t + 1).
Proof.
  pose proof (store_alert_run E label img_path w) as Hrun.
  destruct (store_alert E label img_path w) as [o w'] eqn:Hcall.
  injection Hrun as -> Hw'.
  destruct (uploaded (upload_of E label img_path))
    as [cloud_url public_id] eqn:Hup.
  eexists cloud_url, public_id, w', _. split; [done|].
  split; [by rewrite Hw'|].
  split_and!.
  - unfold mirror_requests. rewrite Hup. simpl.
    destruct (firestore_db E) as [client|]; simpl.
    + destruct (truthy cloud_url); simpl.
      * split; [by eauto|]. intros _.
        exists (FirestoreSet "animal_alerts"
                  (mirror_document E label img_path)).
        split; [|done]. rewrite !elem_of_cons. auto.
      * split; [|by intros [_ ?]].
        intros (r & Hr & Hset).
        rewrite !elem_of_cons, elem_of_nil in Hr.
        destruct Hr as [->|[->|[]]]; done.
    + split; [|by intros [[? ?] _]].
      intros (r & Hr & Hset).
      rewrite !elem_of_cons, elem_of_nil in Hr.
      destruct Hr as [->|[->|[]]]; done.
  - intros c. rewrite store_alert_run, Hw'. done.
  - intros client e Hclient Htruthy Hset. split.
    + rewrite Hw'. cbn [stdout]. unfold mirror_lines.
      rewrite Hclient, Hup. cbn [fst]. rewrite Htruthy, Hset.
      rewrite List.app_comm_cons, (assoc_L (++)). apply last_snoc.
    + intros t Hdb Hconn Hready.
      destruct (store_alert_inserts E label img_path w t Hdb Hconn Hready)
        as (r' & Hdb' & Hid & _ & Hrow).
      rewrite Hcall in Hdb'. simpl in Hdb'.
      eexists _, r'. split; [exact Hdb'|].
      split; [|done]. apply stored_at_after_insert. apply Hrow.
Qed.

(** With the document store refusing the write, the call returns, the
    error is the last line printed and the row is in the table. *)
Lemma mirror_attempted_iff_witness :
  firestore_db E_mirror_down = Some client_down ∧
  doc_set client_down "animal_alerts"
    (mirror_document E_mirror_down "tiger" "cam/0001.jpg") = Some timeout ∧
  db w_init = Some (t_of w_init) ∧ sqlite3_connect E_mirror_down = None ∧
  ready (t_of w_init) ∧
  ∃ cloud_url public_id w' t' r',
    store_alert E_mirror_down "tiger" "cam/0001.jpg" w_init
    = (Ok (cloud_url, public_id), w') ∧
    truthy cloud_url = true ∧
    last (stdout w') = Some "[Firebase Error] timed out" ∧
    db w' = Some t' ∧ stored_at "cam/0001.jpg" t' = [r'].
Proof.
  split; [reflexivity|]. split; [reflexivity|]. split; [exact db_w_init|].
  split; [reflexivity|]. split; [exact ready_w_init|].
  destruct (mirror_attempted_iff E_mirror_down "tiger" "cam/0001.jpg" w_init)
    as (cloud_url & public_id & w' & reqs & Hrun & _ & _ & _ & Hfail).
  assert (truthy cloud_url = true) as Htruthy.
  { pose proof (f_equal fst Hrun) as Hres. vm_compute in Hres.
    injection Hres as <- _. reflexivity. }
  destruct (Hfail client_down timeout eq_refl Htruthy eq_refl)
    as (Hlast & Hrow).
  destruct (Hrow (t_of w_init) db_w_init eq_refl ready_w_init)
    as (t' & r' & Hdb & Hst & _).
  exists cloud_url, public_id, w', t', r'.
  split; [exact Hrun|]. split; [exact Htruthy|]. split; [exact Hlast|].
  split; [exact Hdb|exact Hst].
Defined.

(** What [update_alert_status] does to the rows of the table. *)
Lemma update_alert_status_rows
    (E : env) (img_path : string) (telegram_ok synced : option bool)
    (w : world) :
  ∃ w',
    update_alert_status E img_path telegram_ok synced w = (Ok tt, w') ∧
    net w' = net w ∧
    (telegram_ok = None → synced = None →
     db w' = db w ∧ (sqlite3_connect E = None → w' = w)) ∧
    (db w = None → db w' = None) ∧
    (∀ t, db w = Some t →
          ∃ t',
            db w' = Some t' ∧ columns t' = columns t ∧ seq t' = seq t ∧
            length (rows t') = length (rows t) ∧
            ∀ i r, rows t !! i = Some r →
              ∃ r',
                rows t' !! i = Some r' ∧ rowid r' = rowid r ∧
                (cell r "image_path" ≠ Text img_path → r' = r) ∧
                (∀ c, (c = "telegram_sent" → telegram_ok = None) →
                      (c = "synced" → synced = None) →
                      cells r' !! c = cells r !! c) ∧
                (sqlite3_connect E = None →
                 declared_columns ⊆ columns t →
                 cell r "image_path" = Text img_path →
                 (∀ b, telegram_ok = Some b →
                       cell r' "telegram_sent" = flag b) ∧
                 (∀ b, synced = Some b → cell r' "synced" = flag b))) ∧
    (∀ t, sqlite3_connect E = None → db w = Some t →
          declared_columns ⊆ columns t → stored_at img_path t = [] →
          w' = w) ∧
    (stdout w' = stdout w ∨
     ∃ e, stdout w' = stdout w ++ ["[SQLite update error] " +:+ exn_text e]
          ∧ db w' = db w).
Proof.
  rewrite update_alert_status_run.
  destruct (sqlite3_connect E) as [e|] eqn:Hconn.
  { eexists. split; [done|]. simpl. split_and!; try done.
    - intros t Hdb. exists t. split_and!; try done.
      intros i r Hr. exists r. split_and!; done.
    - right. by exists e. }
  destruct (flag_sets telegram_ok synced) as [|cv sets] eqn:Hsets.
  { apply flag_sets_nil in Hsets as [-> ->].
    exists w. split; [done|]. split_and!; try done; [|by left].
    intros t Hdb. exists t. split_and!; try done.
    intros i r Hr. exists r. split_and!; done. }
  rewrite <- Hsets.
  assert (flag_sets telegram_ok synced ≠ []) as Hne by (by rewrite Hsets).
  clear Hsets cv sets.
  destruct (update_where_path _ _ (db w)) as [d'|e] eqn:Hupd.
  - apply update_where_path_Ok in Hupd as (t0 & Hdb0 & Hcols & ->).
    eexists. split; [done|]. simpl. split_and!; try done.
    + intros -> ->. by destruct Hne.
    + intros Hnone. congruence.
    + intros t Hdb. assert (t0 = t) as -> by congruence.
      eexists. split; [done|]. simpl. split_and!; try done.
      { by rewrite length_map. }
      intros i r Hr.
      exists (if sql_eq (cell r "image_path") (Text img_path)
              then assign (flag_sets telegram_ok synced) r else r).
      split.
      { rewrite list_lookup_fmap, Hr. done. }
      split; [by destruct (sql_eq _ _)|]. split.
      { intros Hp. destruct (sql_eq _ _) eqn:Heq; [|done].
        by apply sql_eq_Text in Heq. }
      split.
      { intros c Hc1 Hc2. destruct (sql_eq _ _); [|done].
        apply cells_assign_other.
        intros [[-> [b Hb]]|[-> [b Hb]]]%flag_sets_columns.
        - by rewrite Hc1 in Hb.
        - by rewrite Hc2 in Hb. }
      intros _ _ Hp. apply sql_eq_Text in Hp. rewrite Hp.
      apply cell_assign_flags.
    + intros t _ Hdb Hdecl Hnone.
      assert (t0 = t) as -> by congruence.
      destruct w as [d out sent]. simpl in *. subst d. f_equal. f_equal.
      destruct t as [cols rws sq]. simpl in *. f_equal.
      unfold stored_at, rows_at in Hnone. simpl in Hnone.
      induction rws as [|a rws IH]; [done|]. simpl in *.
      destruct (sql_eq (cell a "image_path") (Text img_path)); [done|].
      f_equal. by apply IH.
    + by left.
  - eexists. split; [done|]. simpl. split_and!; try done.
    + intros -> ->. by destruct Hne.
    + intros t Hdb. exists t. split_and!; try done.
      intros i r Hr. exists r. split_and!; try done.
      intros _ Hdecl _. exfalso.
      rewrite Hdb in Hupd. unfold update_where_path in Hupd.
      rewrite missing_None in Hupd; [done|].
      intros c [Hc| ->%list_elem_of_singleton]%elem_of_app.
      * apply Hdecl. apply flag_sets_columns in Hc as [[-> _]|[-> _]];
          unfold declared_columns; rewrite !elem_of_cons; tauto.
      * apply Hdecl. unfold declared_columns; rewrite !elem_of_cons; tauto.
    + intros t _ Hdb Hdecl _. exfalso.
      rewrite Hdb in Hupd. unfold update_where_path in Hupd.
      rewrite missing_None in Hupd; [done|].
      intros c [Hc| ->%list_elem_of_singleton]%elem_of_app.
      * apply Hdecl. apply flag_sets_columns in Hc as [[-> _]|[-> _]];
          unfold declared_columns; rewrite !elem_of_cons; tauto.
      * apply Hdecl. unfold declared_columns; rewrite !elem_of_cons; tauto.
    + right. by exists e.
Qed.

(** C7.  [update_alert_status] always returns normally and makes no
    request.  With both flags absent the database is left as it was, and
    nothing at all changes when the database opens.  With a flag given,
    the table keeps its columns, its sequence and its rows in place: a row
    stored under another path is unchanged, and in a row stored under
    [img_path] every column other than the flag columns given is
    unchanged while each flag given is written as 0 or 1.  When no row is
    stored under [img_path] nothing changes and nothing is printed.  A
    database error is never raised: it is printed, as one line that
    carries its text, and the database is left as it was.  That is the
    case when the database cannot be opened (whatever the flags), and,
    with a flag given, when there is no table or the table lacks one of
    the columns the statement names.  In every other case nothing is
    printed. *)
Theorem update_alert_status_frame
    (E : env) (img_path : string) (telegram_ok synced : option bool)
    (w : world) :
  ∃ w',
    update_alert_status E img_path telegram_ok synced w = (Ok tt, w') ∧
    net w' = net w ∧
    (telegram_ok = None → synced = None →
     db w' = db w ∧ (sqlite3_connect E = None → w' = w)) ∧
    (db w = None → db w' = None) ∧
    (∀ t, db w = Some t →
          ∃ t',
            db w' = Some t' ∧ columns t' = columns t ∧ seq t' = seq t ∧
            length (rows t') = length (rows t) ∧
            ∀ i r, rows t !! i = Some r →
              ∃ r',
                rows t' !! i = Some r' ∧ rowid r' = rowid r ∧
                (cell r "image_path" ≠ Text img_path → r' = r) ∧
                (∀ c, (c = "telegram_sent" → telegram_ok = None) →
                      (c = "synced" → synced = None) →
                      cells r' !! c = cells r !! c) ∧
                (sqlite3_connect E = None →
                 declared_columns ⊆ columns t →
                 cell r "image_path" = Text img_path →
                 (∀ b, telegram_ok = Some b →
                       cell r' "telegram_sent" = flag b) ∧
                 (∀ b, synced = Some b → cell r' "synced" = flag b))) ∧
    (∀ t, sqlite3_connect E = None → db w = Some t →
          declared_columns ⊆ columns t → stored_at img_path t = [] →
          w' = w) ∧
    (∀ e, sqlite3_connect E = Some e →
          stdout w' = stdout w ++ ["[SQLite update error] " +:+ exn_text e] ∧
          db w' = db w) ∧
    (sqlite3_connect E = None → db w = None →
     ¬ (telegram_ok = None ∧ synced = None) →
     stdout w'
     = stdout w ++ ["[SQLite update error] no such table: alerts"] ∧
     db w' = db w) ∧
    (∀ t c, sqlite3_connect E = None → db w = Some t →
            ¬ (telegram_ok = None ∧ synced = None) →
            missing (map fst (flag_sets telegram_ok synced)
                     ++ ["image_path"]) t = Some c →
            stdout w'
            = stdout w ++ ["[SQLite update error] no such column: " +:+ c] ∧
            db w' = db w) ∧
    (∀ t, sqlite3_connect E = None → db w = Some t →
          missing (map fst (flag_sets telegram_ok synced)
                   ++ ["image_path"]) t = None →
          stdout w' = stdout w) ∧
    (sqlite3_connect E = None → telegram_ok = None → synced = None →
     stdout w' = stdout w).
Proof.
  destruct (update_alert_status_rows E img_path telegram_ok synced w)
    as (w' & Hrun & Hnet & Hnone & Hnodb & Hrows & Hzero & _).
  destruct (update_alert_status_log E img_path telegram_ok synced w w')
    as (Hconn & Htable & Hcolumn & Hquiet); [by rewrite Hrun|].
  exists w'. split_and!; try done.
  intros Hc -> ->. by destruct (proj2 (Hnone eq_refl eq_refl) Hc).
Qed.

(** Marking the first alert as sent writes [telegram_sent] = 1 and leaves
    [synced] and [cloud_url] of that row as they were. *)
Lemma update_alert_status_frame_witness :
  db w_one = Some (t_of w_one) ∧
  rows (t_of w_one) !! 0%nat = Some (first_row w_one) ∧
  sqlite3_connect E_up = None ∧ declared_columns ⊆ columns (t_of w_one) ∧
  cell (first_row w_one) "image_path" = Text "cam/0001.jpg" ∧
  ∃ w' t' r',
    update_alert_status E_up "cam/0001.jpg" (Some true) None w_one
    = (Ok tt, w') ∧
    db w' = Some t' ∧ rows t' !! 0%nat = Some r' ∧
    cell r' "telegram_sent" = Integer 1 ∧
    cells r' !! "synced" = cells (first_row w_one) !! "synced" ∧
    cells r' !! "cloud_url" = cells (first_row w_one) !! "cloud_url".
Proof.
  destruct first_row_w_one as (Hfirst & Hpath).
  destruct ready_w_one as (Hcols & _).
  split; [exact db_w_one|]. split; [exact Hfirst|]. split; [reflexivity|].
  split; [exact Hcols|]. split; [exact Hpath|].
  destruct (update_alert_status_frame E_up "cam/0001.jpg" (Some true) None
              w_one) as (w' & Hrun & _ & _ & _ & Hframe & _).
  destruct (Hframe (t_of w_one) db_w_one)
    as (t' & Hdb & _ & _ & _ & Hrows).
  destruct (Hrows 0%nat (first_row w_one) Hfirst)
    as (r' & Hr' & _ & _ & Hother & Hflags).
  destruct (Hflags eq_refl Hcols Hpath) as (Hsent & _).
  exists w', t', r'. split; [exact Hrun|]. split; [exact Hdb|].
  split; [exact Hr'|]. split; [exact (Hsent true eq_refl)|].
  split; apply Hother; intros Hc; first [discriminate Hc|reflexivity].
Defined.




(** Against C9 as stated: a limit of -1 returns all three records stored,
    more than the limit; a limit beyond 64 bits and a database without the
    table make the call raise. *)
Lemma get_latest_alerts_negative_limit :
  (∃ res,
      get_latest_alerts Sample.E_up (-1) Sample.w_three
      = (Ok res, Sample.w_three) ∧
      length res = 3%nat ∧ ¬ Z.of_nat (length res) ≤ -1) ∧
  get_latest_alerts Sample.E_up 9223372036854775808 Sample.w_three
  = (Raise (OverflowError
              "Python int too large to convert to SQLite INTEGER"),
     Sample.w_three) ∧
  get_latest_alerts Sample.E_up 2 Sample.empty_world
  = (Raise (OperationalError "no such table: alerts"), Sample.empty_world).
Proof.
  split_and!.
  - eexists. split; [vm_compute; reflexivity|]. split; [done|]. simpl. lia.
  - vm_compute. reflexivity.
  - vm_compute. reflexivity.
Qed.

End StorageSpec.

(** ** The error policy of the whole system *)

Module SystemSpec.
Import Storage SqliteFacts StorageRun Sample SampleFacts.

(** C3, as amended.  [send_alert], [store_alert] and
    [update_alert_status] return normally in every world, whatever the
    collaborators do, and each failure leaves a degraded result and a
    printed line.  [send_alert] prints exactly one line and returns false
    with the exception text when the image cannot be opened or the
    transport raises, and with status and body when the status is not
    200.  [store_alert] returns (absent, absent) and prints the error when
    the upload raises, prints the error and leaves the database as it was
    when the database cannot be opened or has no table, and prints the
    error when the write to the document store raises.
    [update_alert_status] prints the error and leaves the database as it
    was.  The one silent failure is the geolocation lookup, which degrades
    to no coordinates and [Unknown] without printing anything.  [init_db]
    and [get_latest_alerts] have no handler: [init_db] raises when the
    database cannot be opened and when the table has an upgrade column
    under another spelling (a duplicate column for ALTER TABLE), and
    returns otherwise; [get_latest_alerts] raises what opening the
    database or the SELECT raises, for instance when the table does not
    exist. *)
Theorem wrapped_operations_never_raise :
  (∀ E label timestamp img_path extra_msg w,
      ∃ b w' line,
        Alert.send_alert E label timestamp img_path extra_msg w
        = (Ok b, w') ∧
        stdout w' = stdout w ++ [line] ∧
        (∀ e, open_rb E img_path = Raise e →
              b = false ∧ line = "[Telegram Exception] " +:+ exn_text e) ∧
        (∀ img e,
            open_rb E img_path = Ok img →
            requests_post E (Alert.url E) (Alert.files img)
              (Alert.data E (Alert.caption label timestamp extra_msg))
            = Raise e →
            b = false ∧ line = "[Telegram Exception] " +:+ exn_text e) ∧
        (∀ img resp,
            open_rb E img_path = Ok img →
            requests_post E (Alert.url E) (Alert.files img)
              (Alert.data E (Alert.caption label timestamp extra_msg))
            = Ok resp →
            status_code resp ≠ 200 →
            b = false ∧
            line = "[Telegram Error] " +:+ pretty (status_code resp)
                   +:+ ": " +:+ text resp)) ∧
  (∀ E label img_path w,
      ∃ res w',
        store_alert E label img_path w = (Ok res, w') ∧
        (∀ e, upload_of E label img_path = Raise e →
              res = (None, None) ∧
              "[Cloudinary Error] " +:+ exn_text e ∈ stdout w') ∧
        (∀ e, sqlite3_connect E = Some e →
              "[SQLite Error] " +:+ exn_text e ∈ stdout w' ∧
              db w' = db w) ∧
        (sqlite3_connect E = None → db w = None →
         "[SQLite Error] no such table: alerts" ∈ stdout w' ∧
         db w' = None) ∧
        (∀ client e,
            firestore_db E = Some client → truthy res.1 = true →
            doc_set client "animal_alerts" (mirror_document E label img_path)
            = Some e →
            "[Firebase Error] " +:+ exn_text e ∈ stdout w')) ∧
  (∀ E w,
      ∃ location w',
        get_geolocation E w = (Ok location, w') ∧ stdout w' = stdout w ∧
        (∀ e, geocoder_ip E "me" = Raise e →
              location = (None, None, "Unknown"))) ∧
  (∀ E img_path telegram_ok synced w,
      ∃ w',
        update_alert_status E img_path telegram_ok synced w = (Ok tt, w') ∧
        (∀ e, sqlite3_connect E = Some e →
              stdout w'
              = stdout w ++ ["[SQLite update error] " +:+ exn_text e] ∧
              db w' = db w) ∧
        (sqlite3_connect E = None → db w = None →
         ¬ (telegram_ok = None ∧ synced = None) →
         stdout w'
         = stdout w ++ ["[SQLite update error] no such table: alerts"] ∧
         db w' = db w)) ∧
  (∀ E w e,
      sqlite3_connect E = Some e → init_db E w = (Raise e, w)) ∧
  (∀ E w c,
      sqlite3_connect E = None → respelled (db w) = Some c →
      (∃ t, db w = Some t ∧ c ∈ map fst upgrades ∧ (c ∉ columns t) ∧
            has_column c t = true) ∧
      ∃ w', init_db E w
            = (Raise (OperationalError ("duplicate column name: " +:+ c)),
               w')) ∧
  (∀ E w,
      sqlite3_connect E = None → respelled (db w) = None →
      ∃ w', init_db E w = (Ok tt, w')) ∧
  (∀ E limit w e,
      sqlite3_connect E = Some e →
      get_latest_alerts E limit w = (Raise e, w)) ∧
  (∀ E limit w,
      sqlite3_connect E = None →
      get_latest_alerts E limit w
      = match select_latest limit (db w) with
        | Ok rs => (Ok rs, w)
        | Raise e => (Raise e, w)
        end) ∧
  (∀ E limit w,
      sqlite3_connect E = None → db w = None →
      get_latest_alerts E limit w
      = (Raise (OperationalError "no such table: alerts"), w)).
Proof.
  split_and!.
  - intros E label timestamp img_path extra_msg w.
    unfold Alert.send_alert. run_monad.
    destruct (open_rb E img_path) as [img|e] eqn:Hopen; simpl.
    + destruct (requests_post E (Alert.url E) (Alert.files img) _)
        as [resp|e] eqn:Hpost; simpl.
      * case_bool_decide as Hst; simpl.
        -- eexists true, _, _. split; [done|]. split; [done|].
           split_and!; [done| |].
           ++ intros img' e' [= <-] Hresp. congruence.
           ++ intros img' resp' [= <-] Hresp Hne. congruence.
        -- eexists false, _, _. split; [done|]. split; [done|].
           split_and!; [done| |].
           ++ intros img' e' [= <-] Hresp. congruence.
           ++ intros img' resp' [= <-] Hresp _.
              rewrite Hpost in Hresp. by injection Hresp as <-.
      * eexists false, _, _. split; [done|]. split; [done|].
        split_and!; [done| |].
        -- intros img' e' [= <-] Hresp.
           rewrite Hpost in Hresp. by injection Hresp as <-.
        -- intros img' resp' [= <-] Hresp _. congruence.
    + eexists false, _, _. split; [done|]. split; [done|].
      split_and!; [|done|done]. by intros e' [= <-].
  - intros E label img_path w. rewrite store_alert_run.
    eexists _, _. split; [done|]. simpl. split_and!.
    + intros e ->. simpl. split; [done|].
      rewrite elem_of_app, elem_of_cons. auto.
    + intros e He. unfold local_insert. rewrite He. simpl. split; [|done].
      rewrite elem_of_app, !elem_of_cons. auto.
    + intros Hconn ->. unfold local_insert. rewrite Hconn. simpl.
      split; [|done]. rewrite elem_of_app, !elem_of_cons. auto.
    + intros client e Hclient Htruthy Hset. unfold mirror_lines.
      rewrite Hclient, Htruthy, Hset.
      rewrite elem_of_app, elem_of_cons, elem_of_app,
        list_elem_of_singleton.
      auto.
  - intros E w. rewrite get_geolocation_run. eexists _, _.
    split; [done|]. split; [done|].
    intros e He. apply located_failure. unfold geo_failure. by rewrite He.
  - intros E img_path telegram_ok synced w.
    pose proof (update_alert_status_run E img_path telegram_ok synced w)
      as Hrun.
    destruct (update_alert_status_log E img_path telegram_ok synced w _
                eq_refl) as (Hconn & Htable & _).
    assert (∃ w', update_alert_status E img_path telegram_ok synced w
                  = (Ok tt, w')) as [w' Hw'].
    { rewrite Hrun. destruct (sqlite3_connect E); [by eexists|].
      destruct (flag_sets telegram_ok synced); [by eexists|].
      destruct (update_where_path _ _ _); by eexists. }
    rewrite Hw' in Hconn, Htable. by exists w'.
  - intros E w e. apply init_db_raises.
  - intros E w c Hconn Hre. split; [by apply respelled_Some|].
    destruct (init_db_respelled E w c Hconn Hre)
      as (t & t' & out' & _ & Hrun & _).
    by eexists.
  - intros E w Hconn Hre.
    destruct (init_db_run E w Hconn Hre) as (t' & Hrun & _). by eexists.
  - intros E limit w e He. by rewrite get_latest_alerts_run, He.
  - intros E limit w He. by rewrite get_latest_alerts_run, He.
  - intros E limit w He Hdb. by rewrite get_latest_alerts_run, He, Hdb.
Qed.

(** With a database file that cannot be opened: [store_alert] and
    [update_alert_status] print the error and return, [init_db] and
    [get_latest_alerts] raise it. *)
Lemma wrapped_operations_never_raise_witness :
  sqlite3_connect E_nodb = Some locked ∧
  (∃ res w',
      store_alert E_nodb "tiger" "cam/0001.jpg" empty_world = (Ok res, w') ∧
      "[SQLite Error] unable to open database file" ∈ stdout w' ∧
      db w' = None) ∧
  (∃ w',
      update_alert_status E_nodb "cam/0001.jpg" (Some true) None empty_world
      = (Ok tt, w') ∧
      stdout w' = ["[SQLite update error] unable to open database file"]) ∧
  init_db E_nodb empty_world = (Raise locked, empty_world) ∧
  get_latest_alerts E_nodb 20 empty_world = (Raise locked, empty_world).
Proof.
  destruct wrapped_operations_never_raise
    as (_ & Hstore & _ & Hupdate & Hinit & _ & _ & Hlatest & _).
  split; [reflexivity|]. split.
  { destruct (Hstore E_nodb "tiger" "cam/0001.jpg" empty_world)
      as (res & w' & Hrun & _ & Hdb & _).
    exists res, w'. split; [exact Hrun|]. exact (Hdb locked eq_refl). }
  split.
  { destruct (Hupdate E_nodb "cam/0001.jpg" (Some true) None empty_world)
      as (w' & Hrun & Hlog & _).
    exists w'. split; [exact Hrun|]. exact (proj1 (Hlog locked eq_refl)). }
  split; [exact (Hinit E_nodb empty_world locked eq_refl)|].
  exact (Hlatest E_nodb 20 empty_world locked eq_refl).
Defined.

(** Against C3 as stated: on a database without the table
    [get_latest_alerts] raises, and [init_db] raises when the database
    cannot be opened. *)
Lemma unwrapped_operations_raise :
  get_latest_alerts Sample.E_up 20 Sample.empty_world
  = (Raise (OperationalError "no such table: alerts"), Sample.empty_world) ∧
  init_db Sample.E_nodb Sample.empty_world
  = (Raise Sample.locked, Sample.empty_world).
Proof. split; vm_compute; reflexivity. Qed.

End SystemSpec.

(** ** The scenarios of the specification, run on the model *)

Module Scenarios.
Import Storage Sample.

(** Re-inserting a path keeps a [telegram_sent] set by an explicit update. *)
Example reinsert_keeps_telegram_sent :
  map (λ r, (rowid r, cell r "label", cell r "telegram_sent"))
      (stored_at "cam/0001.jpg"
         (t_of (store_alert E_offline "tiger again" "cam/0001.jpg"
                  w_three).2))
  = [(4, Text "tiger again", Integer 1)].
Proof. vm_compute. reflexivity. Qed.

(** Three records stored, two asked for: the last two, newest first. *)
Example latest_two_of_three :
  (get_latest_alerts E_up 2 w_three).1
  = Ok [[PyStr "deer"; PyStr "2024-05-01 10:00:00";
         PyStr "https://img.example/cam/0003.jpg";
         PyFloat (Float 4632251); PyFloat (Float 4617315); PyStr "Chennai"];
        [PyStr "boar"; PyStr "2024-05-01 10:00:00";
         PyStr "https://img.example/cam/0002.jpg";
         PyFloat (Float 4632251); PyFloat (Float 4617315); PyStr "Chennai"]].
Proof. vm_compute. reflexivity. Qed.

(** The image host is down: the pair is absent, the row is still written. *)
Example upload_raises :
  (store_alert E_offline "tiger" "cam/0009.jpg" w_init).1 = Ok (None, None) ∧
  map (λ r, (cell r "cloud_url", cell r "synced", cell r "location"))
      (stored_at "cam/0009.jpg"
         (t_of (store_alert E_offline "tiger" "cam/0009.jpg" w_init).2))
  = [(Null, Integer 0, Text "Unknown")] ∧
  stdout (store_alert E_offline "tiger" "cam/0009.jpg" w_init).2
  = stdout w_init ++ ["[Cloudinary Error] timed out"].
Proof. split_and!; vm_compute; reflexivity. Qed.

(** A status update for a path nobody stored changes nothing. *)
Example update_unknown_path :
  update_alert_status E_up "cam/none.jpg" (Some true) (Some true) w_three
  = (Ok tt, w_three).
Proof. vm_compute. reflexivity. Qed.

(** A table of an older schema, without the upgrade columns, is upgraded
    once. *)
Example upgrade_old_table :
  let old := World (Some (Table ["id"; "label"; "timestamp"; "image_path";
                                 "cloud_url"]
                            [Row 1 {[ "label" := Text "fox" ]}] 1)) [] [] in
  (columns <$> db (init_db E_up old).2) = Some declared_columns ∧
  (map (λ r, (cell r "synced", cell r "telegram_sent", cell r "location"))
     <$> (rows <$> db (init_db E_up old).2))
  = Some [(Integer 0, Integer 0, Null)] ∧
  db (init_db E_up (init_db E_up old).2).2 = db (init_db E_up old).2.
Proof. split_and!; vm_compute; reflexivity. Qed.

End Scenarios.

(** ** More of the code: facts *)

Module MoreFacts.
Import Storage SqliteFacts StorageRun.

Lemma no_client_no_mirror
    (E : env) (label img_path : string) (w0 : world) (r : request) :
  r ∈ net (store_alert (with_firestore None E) label img_path w0).2 →
  is_firestore_set r = true → r ∈ net w0.
Proof.
  rewrite store_alert_run. simpl. unfold mirror_requests. simpl.
  rewrite elem_of_app, !elem_of_cons, elem_of_nil.
  intros [?|[->|[->|[]]]]; done.
Qed.

Lemma filter_filter_same {A} (P : A → bool) (l : list A) :
  List.filter P (List.filter P l) = List.filter P l.
Proof.
  induction l as [|a l IH]; [done|]. simpl.
  destruct (P a) eqn:Ha; simpl; [|done]. by rewrite Ha, IH.
Qed.

Lemma rows_elsewhere_after_insert
    (path : string) (cols : list string) (l : list row) (r' : row) (s : Z) :
  cell r' "image_path" = Text path →
  rows_elsewhere path
    (Table cols
       (List.filter
          (λ r, negb (sql_eq (cell r "image_path") (Text path))) l ++ [r'])
       s)
  = List.filter (λ r, negb (sql_eq (cell r "image_path") (Text path))) l.
Proof.
  intros Hp. unfold rows_elsewhere. simpl.
  rewrite List.filter_app, filter_filter_same. simpl.
  rewrite Hp. simpl. rewrite bool_decide_eq_true_2 by done. simpl.
  by rewrite app_nil_r.
Qed.

(** Reading back right after a successful [store_alert]. *)
Lemma read_back
    (E E' : env) (label img_path : string) (w : world) (t : table)
    (limit : Z) :
  db w = Some t → sqlite3_connect E = None → ready t →
  sqlite3_connect E' = None → 1 ≤ limit ≤ MAX_ROWID →
  ∃ rest,
    get_latest_alerts E' limit (store_alert E label img_path w).2
    = (Ok (alert_record E label img_path :: rest),
       (store_alert E label img_path w).2) ∧
    length rest
    = Nat.min (Nat.pred (Z.to_nat limit))
        (length (rows_elsewhere img_path t)).
Proof.
  intros Hdb Hconn Hready Hconn' Hlimit.
  destruct (store_alert_inserts E label img_path w t Hdb Hconn Hready)
    as (r' & Hdb' & Hid & Hproj & Hrow).
  set (w' := (store_alert E label img_path w).2) in *.
  assert (∀ y, y ∈ List.filter
                     (λ r, negb (sql_eq (cell r "image_path") (Text img_path)))
                     (rows t) → rowid y < rowid r') as Hmax.
  { intros y Hy%filter_rowid_lt. lia. }
  destruct (merge_sort_max_first _ r' Hmax) as (s' & Hsort & Hperm & _).
  exists (map project (take (Nat.pred (Z.to_nat limit)) s')).
  split.
  - rewrite get_latest_alerts_run, Hconn', Hdb'.
    destruct Hready as [Hcols _].
    rewrite select_latest_Ok; simpl.
    + rewrite Hsort. unfold sql_limit.
      rewrite bool_decide_eq_false_2 by lia.
      destruct (Z.to_nat limit) as [|n] eqn:Hn; [lia|].
      simpl. by rewrite Hproj.
    + intros c Hc. by apply Hcols, select_columns_declared.
    + unfold MAX_ROWID in *. lia.
  - rewrite length_map, length_take. unfold rows_elsewhere.
    by rewrite Hperm.
Qed.

(** The loop of [init_db], row by row. *)
Lemma upgrade_loop_rows
    (cols : list string) (todo : list (string * string)) (t : table)
    (out : list string) (sent : list request) :
  NoDup (map fst todo) →
  (∀ c, c ∈ map fst todo → fold_case c = c) →
  (∀ c, c ∈ map fst todo → c ∉ cols → has_column c t = false) →
  ∃ t' out',
    upgrade_loop cols todo (World (Some t) out sent)
    = (Ok tt, World (Some t') out' sent) ∧
    length (rows t') = length (rows t) ∧
    ∀ i r, rows t !! i = Some r →
      ∃ r', rows t' !! i = Some r' ∧ rowid r' = rowid r ∧
            (∀ c, (c ∈ map fst todo → c ∈ cols) →
                  cells r' !! c = cells r !! c) ∧
            (∀ c ty, (c, ty) ∈ todo → c ∉ cols →
                     cell r' c = default_of ty).
Proof.
  revert t out.
  induction todo as [|[col ty] todo IH]; intros t out Hnd Hlow Hsp.
  { exists t, out. split; [done|]. split; [done|].
    intros i r Hr. exists r. split_and!; try done.
    intros c ty Hin. by apply elem_of_nil in Hin. }
  simpl in *. apply NoDup_cons in Hnd as [Hcol Hnd].
  assert (fold_case col = col) as Hlcol by (apply Hlow; left).
  assert (∀ c, c ∈ map fst todo → fold_case c = c) as Hlow'.
  { intros x Hx. apply Hlow. by right. }
  case_bool_decide as Hnew; simpl.
  - assert (has_column col t = false) as Hfresh.
    { apply Hsp; [by left|done]. }
    destruct (IH (Table (columns t ++ [col])
                    (map (λ r, Row (rowid r)
                                 (<[col := default_of ty]> (cells r)))
                         (rows t))
                    (seq t))
                (out ++ [upgrade_line col]) Hnd Hlow')
      as (t' & out' & Hrun & Hlen & Hrows).
    { intros c Hc Hc'. rewrite has_column_add_other.
      - apply Hsp; [by right|done].
      - by apply Hlow'.
      - done.
      - by intros ->. }
    exists t', out'. split_and!.
    + run_monad. unfold add_column. simpl.
      rewrite Hfresh. simpl.
      unfold upgrade_line in *. by rewrite Hrun.
    + rewrite Hlen. simpl. by rewrite length_map.
    + intros i r Hr.
      destruct (Hrows i (Row (rowid r) (<[col := default_of ty]> (cells r))))
        as (r' & Hr' & Hid & Hkeep & Hnewc).
      { simpl. rewrite list_lookup_fmap, Hr. done. }
      exists r'. split_and!; try done.
      * intros c Hc. rewrite Hkeep.
        -- simpl. apply lookup_insert_ne. intros <-. apply Hnew, Hc. by left.
        -- intros Hin. apply Hc. by right.
      * intros c ty' [[= -> ->]|Hin]%elem_of_cons Hc.
        -- unfold cell. rewrite Hkeep; [|done]. simpl.
           by rewrite lookup_insert_eq.
        -- by apply Hnewc.
  - destruct (IH t out Hnd Hlow') as (t' & out' & Hrun & Hlen & Hrows).
    { intros c Hc Hc'. apply Hsp; [by right|done]. }
    exists t', out'. split_and!; try done.
    intros i r Hr. destruct (Hrows i r Hr) as (r' & Hr' & Hid & Hkeep & Hnewc).
    exists r'. split_and!; try done.
    + intros c Hc. apply Hkeep. intros Hin. apply Hc. by right.
    + intros c ty' [[= -> ->]|Hin]%elem_of_cons Hc; [done|].
      by apply Hnewc.
Qed.

Lemma max_rowid_ids (l1 l2 : list row) :
  map rowid l1 = map rowid l2 → max_rowid l1 = max_rowid l2.
Proof.
  revert l2. induction l1 as [|a l1 IH]; intros [|b l2] Heq; try done.
  simpl in *. injection Heq as Hab Heq. by rewrite Hab, (IH l2).
Qed.

(** [init_db] leaves a table the other operations can work on. *)
Lemma init_db_ready (E : env) (w : world) :
  sqlite3_connect E = None →
  (db w = None ∨
   ∃ t, db w = Some t ∧ base_columns ⊆ columns t ∧
        respelled (Some t) = None ∧ top t < MAX_ROWID) →
  ∃ t', db (init_db E w).2 = Some t' ∧ ready t' ∧
        (db w = None → rows t' = []).
Proof.
  intros Hconn Hold.
  assert (respelled (db w) = None) as Hre.
  { destruct Hold as [->|(t & -> & _ & Hre & _)]; done. }
  destruct (init_db_run E w Hconn Hre)
    as (t' & Hrun & Hcols & Hnew & Hsame & _).
  exists t'. rewrite Hrun. split; [done|]. split.
  - destruct Hold as [Hnone|(t & Hdb & Hbase & _ & Htop)].
    + rewrite (Hnew Hnone). split; [done|]. vm_compute. reflexivity.
    + split.
      * intros c Hc. rewrite Hcols, Hdb. simpl. apply elem_of_app.
        destruct (decide (c ∈ columns t)) as [|Hn]; [by left|right].
        apply elem_of_added_columns. split; [|done].
        unfold declared_columns in Hc. unfold upgrades. simpl.
        rewrite !elem_of_cons in *.
        destruct Hc as [->|[->|[->|[->|[->|Hc]]]]];
          try (exfalso; apply Hn, Hbase; unfold base_columns;
               rewrite !elem_of_cons; tauto).
        rewrite elem_of_nil in Hc. tauto.
      * destruct (Hsame t Hdb) as [Hseq Hids].
        unfold top in *. by rewrite Hseq, (max_rowid_ids _ _ Hids).
  - intros Hnone. by rewrite (Hnew Hnone).
Qed.

(** The table [update_alert_status] leaves when its statement runs. *)
Lemma update_db
    (E : env) (img_path : string) (telegram_ok synced : option bool)
    (w : world) (t : table) :
  sqlite3_connect E = None → db w = Some t →
  declared_columns ⊆ columns t →
  db (update_alert_status E img_path telegram_ok synced w).2
  = Some (Table (columns t)
            (map (λ r, if sql_eq (cell r "image_path") (Text img_path)
                       then assign (flag_sets telegram_ok synced) r else r)
                 (rows t))
            (seq t)).
Proof.
  intros Hconn Hdb Hcols. rewrite update_alert_status_run, Hconn.
  destruct (flag_sets telegram_ok synced) as [|cv sets] eqn:Hsets.
  { simpl. rewrite Hdb. f_equal. destruct t as [c r s]. simpl. f_equal.
    rewrite <- (List.map_id r) at 1. apply List.map_ext. intros a.
    destruct (sql_eq _ _); [|done]. by destruct a. }
  rewrite <- Hsets. rewrite Hdb. unfold update_where_path.
  rewrite missing_None; [done|].
  intros c [Hc| ->%list_elem_of_singleton]%elem_of_app.
  - apply Hcols. apply flag_sets_columns in Hc as [[-> _]|[-> _]];
      unfold declared_columns; rewrite !elem_of_cons; tauto.
  - apply Hcols. unfold declared_columns; rewrite !elem_of_cons; tauto.
Qed.

Lemma assign_path (sets : list (string * value)) (r : row) :
  "image_path" ∉ map fst sets →
  cell (assign sets r) "image_path" = cell r "image_path".
Proof. apply cell_assign_other. Qed.

Lemma flag_sets_no_path (telegram_ok synced : option bool) :
  "image_path" ∉ map fst (flag_sets telegram_ok synced).
Proof.
  intros [[? _]|[? _]]%flag_sets_columns; done.
Qed.

(** Two status updates for the same path, one after the other. *)
Lemma update_twice
    (E1 E2 : env) (img_path : string) (t1 s1 t2 s2 : option bool)
    (w : world) (t : table) :
  sqlite3_connect E1 = None → sqlite3_connect E2 = None →
  db w = Some t → declared_columns ⊆ columns t →
  db (update_alert_status E2 img_path t2 s2
        (update_alert_status E1 img_path t1 s1 w).2).2
  = Some (Table (columns t)
            (map (λ r, if sql_eq (cell r "image_path") (Text img_path)
                       then assign (flag_sets t2 s2)
                              (assign (flag_sets t1 s1) r)
                       else r)
                 (rows t))
            (seq t)).
Proof.
  intros Hc1 Hc2 Hdb Hcols.
  pose proof (update_db E1 img_path t1 s1 w t Hc1 Hdb Hcols) as H1.
  rewrite (update_db E2 img_path t2 s2 _ _ Hc2 H1) by done.
  simpl. f_equal. f_equal. rewrite List.map_map. apply List.map_ext.
  intros r. destruct (sql_eq (cell r "image_path") (Text img_path)) eqn:Hr.
  - rewrite assign_path by apply flag_sets_no_path. by rewrite Hr.
  - by rewrite Hr.
Qed.

Lemma store_inv_wf (t : table) : store_inv t → wf_table t.
Proof.
  intros Hinv. split; [apply Hinv|].
  intros _ r Hr. destruct (inv_flags t Hinv r Hr) as [_ [Hs|Hs]];
    rewrite Hs; done.
Qed.

Lemma sorted_filter (P : row → bool) (l : list row) :
  StronglySorted id_asc l → StronglySorted id_asc (List.filter P l).
Proof.
  induction 1 as [|a l Hl IH Ha]; simpl; [constructor|].
  destruct (P a); [|done]. constructor; [done|].
  rewrite Forall_forall in *. intros x Hx. apply Ha.
  by apply list_elem_of_In, List.filter_In in Hx as [?%list_elem_of_In _].
Qed.

Lemma sorted_map_same_id (g : row → row) (l : list row) :
  (∀ r, rowid (g r) = rowid r) →
  StronglySorted id_asc l → StronglySorted id_asc (map g l).
Proof.
  intros Hg. induction 1 as [|a l Hl IH Ha]; simpl; constructor; [done|].
  rewrite Forall_forall in *. intros x (y & -> & Hy)%list_elem_of_fmap.
  specialize (Ha y Hy). unfold id_asc in *. by rewrite !Hg.
Qed.

Lemma top_inv (t : table) : store_inv t → top t = seq t.
Proof.
  intros Hinv. unfold top.
  assert (max_rowid (rows t) ≤ seq t); [|lia].
  pose proof (inv_seq t Hinv) as Hseq.
  pose proof (inv_ids t Hinv) as Hids.
  induction (rows t) as [|a l IH]; simpl; [done|].
  assert (rowid a ≤ seq t) by (apply Hids; left).
  assert (max_rowid l ≤ seq t); [|lia].
  apply IH. intros r Hr. apply Hids. by right.
Qed.

Lemma select_telegram_sent_flag (p : value) (t : table) :
  store_inv t →
  is_flag (coalesce (select_telegram_sent p t) (Integer 0)).
Proof.
  intros Hinv. unfold select_telegram_sent.
  destruct (List.filter _ (rows t)) as [|r l] eqn:Hf; [by left|].
  assert (r ∈ rows t) as Hr.
  { assert (r ∈ List.filter (λ r, sql_eq (cell r "image_path") p) (rows t))
      as Hin by (rewrite Hf; left).
    by apply list_elem_of_In, List.filter_In in Hin as [?%list_elem_of_In _]. }
  destruct (inv_flags t Hinv r Hr) as [_ [Hs|Hs]]; rewrite Hs; [by left|by right].
Qed.

Lemma store_inv_store_alert
    (E : env) (label img_path : string) (w : world) :
  inv_db (db w) → inv_db (db (store_alert E label img_path w).2).
Proof.
  intros Hinv. rewrite store_alert_run. simpl.
  destruct (local_insert E label img_path (db w)) as [d'|e] eqn:Hins;
    [|done].
  pose proof Hins as Hins'.
  apply local_insert_Ok in Hins
    as (Hconn & t & r' & Hdb & _ & Htop & -> & Hid & Hrow).
  rewrite Hdb in Hinv, Hins'. simpl in Hinv.
  pose proof (top_inv t Hinv) as Htopseq.
  pose proof (inv_seq t Hinv) as Hseq.
  destruct Hrow as (Hl & Hts & Hp & _ & Hsy & Hse & _ & _ & Hloc).
  split; simpl.
  - apply Hinv.
  - assert (wf_db (Some t)) as Hwf by by apply store_inv_wf.
    unfold local_insert in Hins'. rewrite Hconn in Hins'.
    pose proof (wf_insert_or_replace _ _ _ _ _ _ _ _ _ _ Hwf Hins') as Hwf'.
    apply Hwf'.
  - apply StronglySorted_app_2.
    + intros x1 x2 Hx1%filter_rowid_lt ->%list_elem_of_singleton.
      unfold id_asc. lia.
    + apply sorted_filter, Hinv.
    + repeat constructor.
  - intros r [Hr| ->%list_elem_of_singleton]%elem_of_app.
    + apply list_elem_of_In, List.filter_In in Hr as [Hr%list_elem_of_In _].
      pose proof (inv_ids t Hinv r Hr). lia.
    + lia.
  - lia.
  - intros r [Hr| ->%list_elem_of_singleton]%elem_of_app.
    + apply list_elem_of_In, List.filter_In in Hr as [Hr%list_elem_of_In _].
      by apply Hinv.
    + rewrite Hl, Hts, Hp, Hloc. unfold is_text. eauto 10.
  - intros r [Hr| ->%list_elem_of_singleton]%elem_of_app.
    + apply list_elem_of_In, List.filter_In in Hr as [Hr%list_elem_of_In _].
      by apply Hinv.
    + rewrite Hsy, Hse. split.
      * destruct (truthy _); [by right|by left].
      * by apply select_telegram_sent_flag.
Qed.

Lemma flag_is_flag (b : bool) : is_flag (flag b).
Proof. destruct b; [by right|by left]. Qed.

Lemma assign_flags_inv
    (telegram_ok synced : option bool) (r : row) :
  is_flag (cell r "synced") → is_flag (cell r "telegram_sent") →
  is_flag (cell (assign (flag_sets telegram_ok synced) r) "synced") ∧
  is_flag (cell (assign (flag_sets telegram_ok synced) r) "telegram_sent").
Proof.
  intros Hs Ht. unfold cell, assign in *.
  destruct telegram_ok as [a|], synced as [b|]; simpl;
    rewrite ?lookup_insert; simpl; split; try done;
    apply flag_is_flag.
Qed.

Lemma store_inv_update_alert_status
    (E : env) (img_path : string) (telegram_ok synced : option bool)
    (w : world) :
  inv_db (db w) →
  inv_db (db (update_alert_status E img_path telegram_ok synced w).2).
Proof.
  intros Hinv. rewrite update_alert_status_run.
  destruct (sqlite3_connect E); [done|].
  destruct (flag_sets telegram_ok synced) as [|cv sets] eqn:Hsets; [done|].
  rewrite <- Hsets.
  destruct (update_where_path _ _ _) as [d'|e] eqn:Hupd; [|done].
  simpl. pose proof Hupd as Hupd'.
  apply update_where_path_Ok in Hupd as (t & Hdb & _ & ->).
  rewrite Hdb in Hinv, Hupd'. simpl in Hinv.
  assert (∀ r c, c ≠ "synced" → c ≠ "telegram_sent" →
                 cell (if sql_eq (cell r "image_path") (Text img_path)
                       then assign (flag_sets telegram_ok synced) r else r) c
                 = cell r c) as Hother.
  { intros r c Hc1 Hc2. destruct (sql_eq _ _); [|done].
    apply cell_assign_other.
    intros [[? _]|[? _]]%flag_sets_columns; done. }
  split; simpl.
  - apply Hinv.
  - assert (wf_db (Some t)) as Hwf by by apply store_inv_wf.
    assert (wf_db (Some (Table (columns t)
                           (map (λ r, if sql_eq (cell r "image_path")
                                            (Text img_path)
                                      then assign
                                             (flag_sets telegram_ok synced) r
                                      else r) (rows t)) (seq t)))) as Hwf'.
    { eapply wf_update_where_path; [| |exact Hwf|exact Hupd'].
      - apply flag_sets_no_path.
      - intros cv' Hin.
        destruct telegram_ok as [[]|], synced as [[]|]; simpl in Hin;
          rewrite ?elem_of_cons, elem_of_nil in Hin;
          destruct_or?; subst; done. }
    apply Hwf'.
  - apply sorted_map_same_id; [|apply Hinv].
    intros r. by destruct (sql_eq _ _).
  - intros r' (r & -> & Hr)%list_elem_of_fmap.
    pose proof (inv_ids t Hinv r Hr). by destruct (sql_eq _ _).
  - apply Hinv.
  - intros r' (r & -> & Hr)%list_elem_of_fmap.
    rewrite !Hother by done. by apply Hinv.
  - intros r' (r & -> & Hr)%list_elem_of_fmap.
    destruct (inv_flags t Hinv r Hr) as [Hs Ht].
    destruct (sql_eq _ _); [|done]. by apply assign_flags_inv.
Qed.

Lemma store_inv_init_db (E : env) (w : world) :
  inv_db (db w) → inv_db (db (init_db E w).2).
Proof.
  intros Hinv. destruct (sqlite3_connect E) as [e|] eqn:Hconn.
  { by rewrite (init_db_raises E w e). }
  destruct w as [[t|] out sent]; simpl in Hinv.
  - rewrite init_db_again; [done|done|].
    intros c Hc. rewrite (inv_columns t Hinv).
    unfold upgrades in Hc. simpl in Hc. unfold declared_columns.
    rewrite !elem_of_cons in *. tauto.
  - destruct (init_db_run E (World None out sent) Hconn eq_refl)
      as (t' & -> & _ & Hnew & _). simpl.
    rewrite (Hnew eq_refl). split; simpl; try done.
    + intros v. unfold rows_at. simpl. lia.
    + constructor.
    + intros r Hr. by apply elem_of_nil in Hr.
    + intros r Hr. by apply elem_of_nil in Hr.
    + intros r Hr. by apply elem_of_nil in Hr.
Qed.

Lemma send_alert_db
    (E : env) (label timestamp img_path : string)
    (extra_msg : option string) (w : world) :
  db (Alert.send_alert E label timestamp img_path extra_msg w).2 = db w.
Proof.
  unfold Alert.send_alert. run_monad.
  destruct (open_rb E img_path) as [img|e]; simpl; [|done].
  destruct (requests_post E _ _ _) as [resp|e]; simpl; [|done].
  by case_bool_decide.
Qed.

Lemma get_latest_alerts_world (E : env) (limit : Z) (w : world) :
  (get_latest_alerts E limit w).2 = w.
Proof.
  rewrite get_latest_alerts_run.
  destruct (sqlite3_connect E); [done|]. by destruct (select_latest _ _).
Qed.

Lemma store_inv_after (E : env) (c : call) (w : world) :
  inv_db (db w) → inv_db (db (after E c w)).
Proof.
  intros Hinv. destruct c; simpl.
  - by apply store_inv_init_db.
  - by apply store_inv_store_alert.
  - by rewrite get_latest_alerts_world.
  - by apply store_inv_update_alert_status.
  - by rewrite send_alert_db.
Qed.

Lemma sorted_reverse (l : list row) :
  StronglySorted id_asc l → StronglySorted by_id_desc (reverse l).
Proof.
  induction 1 as [|a l Hl IH Ha]; [constructor|].
  rewrite reverse_cons. apply StronglySorted_app_2; [|done|repeat constructor].
  intros x1 x2 Hx1 ->%list_elem_of_singleton.
  rewrite elem_of_reverse in Hx1. rewrite Forall_forall in Ha. specialize (Ha x1 Hx1).
  unfold id_asc, by_id_desc in *. lia.
Qed.

Lemma sorted_same_id (l : list row) (x y : row) :
  StronglySorted id_asc l → x ∈ l → y ∈ l → rowid x = rowid y → x = y.
Proof.
  induction 1 as [|a l Hl IH Ha]; intros Hx Hy Heq.
  { by apply elem_of_nil in Hx. }
  rewrite Forall_forall in Ha. unfold id_asc in Ha.
  apply elem_of_cons in Hx as [->|Hx]; apply elem_of_cons in Hy as [->|Hy].
  - done.
  - specialize (Ha y Hy). lia.
  - specialize (Ha x Hx). lia.
  - by apply IH.
Qed.

(** ORDER BY id DESC on rows stored in id order reads them backwards. *)
Lemma merge_sort_reverse (l : list row) :
  StronglySorted id_asc l → merge_sort by_id_desc l = reverse l.
Proof.
  intros Hsorted. apply (StronglySorted_unique_strong by_id_desc).
  - intros x1 x2 Hx1 Hx2 H1 H2. rewrite elem_of_reverse in Hx2.
    rewrite merge_sort_Permutation in Hx1.
    apply (sorted_same_id l); try done.
    unfold by_id_desc in *. lia.
  - apply StronglySorted_merge_sort;
      [apply by_id_desc_trans|apply by_id_desc_total].
  - by apply sorted_reverse.
  - by rewrite merge_sort_Permutation, reverse_Permutation.
Qed.

Lemma select_latest_inv (limit : Z) (t : table) :
  store_inv t → - MAX_ROWID - 1 ≤ limit ≤ MAX_ROWID →
  select_latest limit (Some t)
  = Ok (map project (sql_limit limit (reverse (rows t)))).
Proof.
  intros Hinv Hlimit. rewrite select_latest_Ok; [|..|done].
  - by rewrite merge_sort_reverse by apply Hinv.
  - rewrite (inv_columns t Hinv). apply select_columns_declared.
Qed.



End MoreFacts.

Module MoreSampleFacts.
Import Storage SqliteFacts StorageRun MoreFacts Sample SampleFacts Sample2.

Lemma inv_w_three : store_inv (t_of w_three).
Proof.
  assert (inv_db (db w_three)) as H.
  { apply store_inv_store_alert, store_inv_store_alert,
      store_inv_update_alert_status, store_inv_store_alert,
      store_inv_init_db. exact I. }
  by rewrite db_w_three in H.
Qed.

Lemma db_w_legacy : db w_legacy = Some (t_of w_legacy).
Proof. reflexivity. Qed.

Lemma respelled_w_legacy : respelled (Some (t_of w_legacy)) = None.
Proof. vm_compute. reflexivity. Qed.

Lemma w_legacy_old :
  ∃ t, db w_legacy = Some t ∧ base_columns ⊆ columns t ∧
       respelled (Some t) = None ∧ top t < MAX_ROWID.
Proof.
  exists (t_of w_legacy). split; [done|]. split; [done|].
  split; [exact respelled_w_legacy|done].
Qed.

End MoreSampleFacts.

(** ** storage.py: the client built at import time *)

Module BootSpec.
Import Storage StorageRun MoreFacts Boot.

(** X1.  The block that builds the document-store client at import time
    never raises and prints exactly one line.  The client is configured
    exactly when the key file exists and the three SDK calls (reading the
    key, initialising the app, creating the client) all succeed; then the
    line says so.  Without a key file the client is absent and the line is
    the warning.  With the client absent, [store_alert] makes no write to
    the document store. *)
Theorem firebase_init_configured_iff (B : boot) (w : world) :
  ∃ fdb line,
    firebase_init B w
    = (Ok fdb, World (db w) (stdout w ++ [line]) (net w)) ∧
    (is_Some fdb ↔
     path_exists B (firebase_json B) = true ∧
     ∃ cred client,
       Certificate B (firebase_json B) = Ok cred ∧
       initialize_app B cred = Ok tt ∧
       firestore_client_new B = Ok client ∧ fdb = Some client) ∧
    (is_Some fdb →
     line = "[INFO] Firebase connected using " +:+ firebase_json B) ∧
    (path_exists B (firebase_json B) = false →
     fdb = None ∧
     line = "[WARN] Firebase credentials file not found. Firebase disabled.") ∧
    (fdb = None →
     ∀ E label img_path w0 r,
       r ∈ net (store_alert (with_firestore fdb E) label img_path w0).2 →
       is_firestore_set r = true → r ∈ net w0).
Proof.
  unfold firebase_init. run_monad.
  destruct (path_exists B (firebase_json B)) eqn:Hex; simpl;
    [destruct (Certificate B (firebase_json B)) as [cred|e] eqn:Hcert; simpl;
     [destruct (initialize_app B cred) as [u|e] eqn:Happ; simpl;
      [destruct u;
       destruct (firestore_client_new B) as [client|e] eqn:Hcli; simpl|]|]|];
    eexists _, _; (split; [done|]); split_and!; try done.
  - split; [intros _|by eauto]. split; [done|]. by exists cred, client.
  - split; [by intros [? ?]|].
    intros (_ & ? & ? & ? & ? & ? & ?). simplify_eq.
  - intros _ E label img_path w0 r. by apply no_client_no_mirror.
  - split; [by intros [? ?]|].
    intros (_ & ? & ? & ? & ? & ? & ?). simplify_eq.
  - intros _ E label img_path w0 r. by apply no_client_no_mirror.
  - split; [by intros [? ?]|].
    intros (_ & ? & ? & ? & ? & ? & ?). simplify_eq.
  - intros _ E label img_path w0 r. by apply no_client_no_mirror.
  - split; [by intros [? ?]|]. by intros (? & _).
  - intros _ E label img_path w0 r. by apply no_client_no_mirror.
Qed.

End BootSpec.

(** ** alert.py: the request *)

Module AlertMore.
Import Alert.

(** X2.  [send_alert] leaves the database alone and makes at most one
    request: none when the image cannot be opened, otherwise one POST to
    the bot URL carrying the opened image as [photo], the chat id and the
    caption.  The caption is the alert line, followed by a newline and the
    extra message only when one is given and not empty.  With no bot token
    configured the request still goes out, to the URL spelled with
    [None]. *)
Theorem send_alert_one_request
    (E : env) (label timestamp img_path : string)
    (extra_msg : option string) (w : world) :
  let w' := (send_alert E label timestamp img_path extra_msg w).2 in
  db w' = db w ∧
  net w'
  = net w ++ match open_rb E img_path with
             | Ok img =>
                 [HttpPost (url E) (files img)
                    (data E (caption label timestamp extra_msg))]
             | Raise _ => []
             end ∧
  (∀ img, files img !! "photo" = Some img) ∧
  data E (caption label timestamp extra_msg) !! "chat_id"
  = Some (of_opt_str (CHAT_ID E)) ∧
  data E (caption label timestamp extra_msg) !! "caption"
  = Some (PyStr
            (match extra_msg with
             | None | Some "" =>
                 "[ALERT] " +:+ label +:+ " detected at " +:+ timestamp
             | Some extra =>
                 ("[ALERT] " +:+ label +:+ " detected at " +:+ timestamp)
                 +:+ newline +:+ extra
             end)) ∧
  (BOT_TOKEN E = None →
   url E = "https://api.telegram.org/botNone/sendPhoto").
Proof.
  cbv zeta. split_and!.
  - unfold send_alert. run_monad.
    destruct (open_rb E img_path) as [img|e]; simpl; [|done].
    destruct (requests_post E _ _ _) as [resp|e]; simpl; [|done].
    by case_bool_decide.
  - unfold send_alert. run_monad.
    destruct (open_rb E img_path) as [img|e]; simpl;
      [|by rewrite app_nil_r].
    destruct (requests_post E _ _ _) as [resp|e]; simpl; [|done].
    by case_bool_decide.
  - intros img. unfold files. apply lookup_singleton_eq.
  - unfold data. apply lookup_insert_eq.
  - unfold data. rewrite lookup_insert_ne by done. rewrite lookup_insert_eq.
    unfold caption. by destruct extra_msg as [[|a s]|].
  - intros Htok. unfold url. by rewrite Htok.
Qed.

End AlertMore.

(** ** storage.py: how the operations compose *)

Module StorageMore.
Import Storage SqliteFacts StorageRun MoreFacts.
Import Sample SampleFacts Sample2 MoreSampleFacts.

(** X3.  [store_alert] never touches a row stored under another path:
    those rows are the same, in the same order, before and after.  The
    table keeps its columns, and either stays as it was or gains exactly
    one row, stored under [img_path] with the next rowid.  When the insert
    runs the table then holds the rows stored elsewhere plus one, and one
    row under [img_path]. *)
Theorem store_alert_keeps_other_rows
    (E : env) (label img_path : string) (w : world) (t : table) :
  db w = Some t →
  ∃ t',
    db (store_alert E label img_path w).2 = Some t' ∧
    columns t' = columns t ∧
    rows_elsewhere img_path t' = rows_elsewhere img_path t ∧
    (t' = t ∨
     ∃ r', rows t' = rows_elsewhere img_path t ++ [r'] ∧
           cell r' "image_path" = Text img_path ∧
           rowid r' = top t + 1 ∧ seq t' = top t + 1) ∧
    (sqlite3_connect E = None → ready t →
     length (rows t') = S (length (rows_elsewhere img_path t)) ∧
     length (stored_at img_path t') = 1%nat).
Proof.
  intros Hdb. rewrite store_alert_run, Hdb. simpl.
  destruct (local_insert E label img_path (Some t)) as [d'|e] eqn:Hins.
  - apply local_insert_Ok in Hins
      as (Hconn & t0 & r' & [= <-] & _ & _ & -> & Hid & Hrow).
    assert (cell r' "image_path" = Text img_path) as Hp by apply Hrow.
    eexists. split; [done|]. simpl. split; [done|]. split_and!.
    + by apply rows_elsewhere_after_insert.
    + right. by exists r'.
    + intros _ _. rewrite length_app. simpl. split.
      * unfold rows_elsewhere. lia.
      * by rewrite stored_at_after_insert.
  - exists t. split_and!; try done; [by left|].
    intros Hconn Hready.
    destruct (local_insert_ready E label img_path t Hconn Hready) as [d' Hd'].
    congruence.
Qed.

(** On the sample store: storing a second alert leaves the first row
    alone and makes two rows. *)
Lemma store_alert_keeps_other_rows_witness :
  db w_sent = Some (t_of w_sent) ∧ sqlite3_connect E_up = None ∧
  ready (t_of w_sent) ∧
  ∃ t',
    db (store_alert E_up "boar" "cam/0002.jpg" w_sent).2 = Some t' ∧
    rows_elsewhere "cam/0002.jpg" t'
    = rows_elsewhere "cam/0002.jpg" (t_of w_sent) ∧
    length (rows t') = 2%nat.
Proof.
  split; [exact db_w_sent|]. split; [reflexivity|].
  split; [exact ready_w_sent|].
  destruct (store_alert_keeps_other_rows E_up "boar" "cam/0002.jpg" w_sent
              (t_of w_sent) db_w_sent)
    as (t' & Hdb & _ & Hkeep & _ & Hcount).
  exists t'. split; [exact Hdb|]. split; [exact Hkeep|].
  destruct (Hcount eq_refl ready_w_sent) as [Hlen _]. rewrite Hlen.
  vm_compute. reflexivity.
Defined.

(** X4.  What [store_alert] returns and the requests it makes do not depend
    on the world it runs in: first the geolocation lookup, then the upload,
    then whatever is mirrored.  In particular, with a client configured and
    a cloud URL obtained, the alert is written to the document store even
    when the database has no table and nothing was stored locally. *)
Theorem store_alert_ignores_local_store
    (E : env) (label img_path : string) (w1 w2 : world) :
  (store_alert E label img_path w1).1 = (store_alert E label img_path w2).1 ∧
  ∃ reqs rest,
    net (store_alert E label img_path w1).2 = net w1 ++ reqs ∧
    net (store_alert E label img_path w2).2 = net w2 ++ reqs ∧
    reqs = GeoIp "me"
           :: CloudinaryUpload img_path "wildlife_alerts"
                (upload_context label (now E))
           :: rest ∧
    (∀ cloud_url public_id client,
        (store_alert E label img_path w1).1 = Ok (cloud_url, public_id) →
        firestore_db E = Some client → truthy cloud_url = true →
        db w1 = None →
        rest = [FirestoreSet "animal_alerts"
                  (mirror_document E label img_path)] ∧
        db (store_alert E label img_path w1).2 = None).
Proof.
  rewrite !store_alert_run. simpl. split; [done|].
  eexists _, _. split; [done|]. split; [done|]. split; [done|].
  intros cloud_url public_id client Hres Hclient Htruthy Hdb.
  injection Hres as Hres. unfold mirror_requests.
  rewrite Hclient, Hres. simpl. rewrite Htruthy. split; [done|].
  rewrite Hdb. unfold local_insert.
  destruct (sqlite3_connect E); done.
Qed.



(** X6.  With the database open and the table in place, a smaller limit
    returns a prefix of what a larger limit returns; a limit of 0 returns
    nothing; and a limit of at least the number of rows returns all of
    them, as the limit -1 does. *)
Theorem get_latest_alerts_prefix
    (E : env) (limit1 limit2 : Z) (w : world) (t : table) :
  sqlite3_connect E = None → db w = Some t →
  declared_columns ⊆ columns t →
  0 ≤ limit1 ≤ limit2 → limit2 ≤ MAX_ROWID →
  ∃ res1 res2,
    get_latest_alerts E limit1 w = (Ok res1, w) ∧
    get_latest_alerts E limit2 w = (Ok res2, w) ∧
    res1 = take (Z.to_nat limit1) res2 ∧
    (limit1 = 0 → res1 = []) ∧
    (Z.of_nat (length (rows t)) ≤ limit2 →
     length res2 = length (rows t) ∧
     get_latest_alerts E (-1) w = (Ok res2, w)).
Proof.
  intros Hconn Hdb Hcols Hl Hmax.
  assert (select_columns ++ ["id"] ⊆ columns t) as Hsel.
  { intros c Hc. by apply Hcols, select_columns_declared. }
  rewrite !get_latest_alerts_run, Hconn, Hdb.
  rewrite !select_latest_Ok by (done || unfold MAX_ROWID in *; lia).
  unfold sql_limit.
  rewrite !bool_decide_eq_false_2 by lia.
  rewrite bool_decide_eq_true_2 by lia.
  eexists _, _. split; [done|]. split; [done|]. split_and!.
  - rewrite <- fmap_take, take_take. do 2 f_equal. lia.
  - intros ->. done.
  - intros Hall.
    assert (length (merge_sort by_id_desc (rows t)) = length (rows t))
      as Hlen by by rewrite merge_sort_Permutation.
    rewrite take_ge by lia. by rewrite length_map.
Qed.

(** On the sample store: one record asked for is the first of two. *)
Lemma get_latest_alerts_prefix_witness :
  sqlite3_connect E_up = None ∧ db w_three = Some (t_of w_three) ∧
  declared_columns ⊆ columns (t_of w_three) ∧ 0 ≤ 1 ≤ 2 ∧ 2 ≤ MAX_ROWID ∧
  ∃ res1 res2,
    get_latest_alerts E_up 1 w_three = (Ok res1, w_three) ∧
    get_latest_alerts E_up 2 w_three = (Ok res2, w_three) ∧
    res1 = take 1 res2.
Proof.
  destruct ready_w_three as [Hcols _].
  assert (0 ≤ 1 ≤ 2) as H12 by lia.
  assert (2 ≤ MAX_ROWID) as Hmax by (unfold MAX_ROWID; lia).
  split; [reflexivity|]. split; [exact db_w_three|]. split; [exact Hcols|].
  split; [exact H12|]. split; [exact Hmax|].
  destruct (get_latest_alerts_prefix E_up 1 2 w_three (t_of w_three)
              eq_refl db_w_three Hcols H12 Hmax)
    as (res1 & res2 & H1 & H2 & Hpre & _).
  exists res1, res2. split; [exact H1|]. split; [exact H2|exact Hpre].
Defined.

(** X7.  Upgrading an existing table with [init_db] keeps its rows, when
    the table has no upgrade column under a spelling that differs in the
    case of its letters: the same number of rows, in the same order, each
    with its rowid and with the value it had in every column but the ones
    the upgrade adds.  A column the upgrade adds reads 0 for [synced] and
    [telegram_sent] and NULL for [latitude], [longitude] and
    [location]. *)
Theorem init_db_keeps_rows (E : env) (w : world) (t : table) :
  sqlite3_connect E = None → db w = Some t → respelled (Some t) = None →
  ∃ t',
    db (init_db E w).2 = Some t' ∧ seq t' = seq t ∧
    length (rows t') = length (rows t) ∧
    ∀ i r, rows t !! i = Some r →
      ∃ r', rows t' !! i = Some r' ∧ rowid r' = rowid r ∧
            (∀ c, (c ∈ map fst upgrades → c ∈ columns t) →
                  cells r' !! c = cells r !! c) ∧
            (∀ c, c ∉ columns t →
                  (c = "synced" ∨ c = "telegram_sent" →
                   cell r' c = Integer 0) ∧
                  (c = "latitude" ∨ c = "longitude" ∨ c = "location" →
                   cell r' c = Null)).
Proof.
  intros Hconn Hdb Hre.
  destruct (init_db_run E w Hconn) as (t1 & Hrun & _ & _ & Hsame & _);
    [by rewrite Hdb|].
  destruct (Hsame t Hdb) as [Hseq _].
  destruct w as [d out sent]. simpl in Hdb. subst d.
  destruct (upgrade_loop_rows (columns t) upgrades t out sent upgrades_NoDup
              upgrades_lower)
    as (t' & out' & Hloop & Hlen & Hrows).
  { intros c. by apply (respelled_None (Some t)). }
  assert (t1 = t') as ->.
  { revert Hrun. unfold init_db, connect. rewrite Hconn.
    unfold bind, ret, execute, fetchall, print, commit, close.
    cbn -[upgrade_loop upgrades]. rewrite Hloop.
    cbn -[upgrade_loop upgrades]. congruence. }
  exists t'. rewrite Hrun. split; [done|]. split; [done|]. split; [done|].
  intros i r Hr. destruct (Hrows i r Hr) as (r' & Hr' & Hid & Hkeep & Hnewc).
  exists r'. split_and!; try done.
  intros c Hc. split.
  - intros [-> | ->].
    + apply (Hnewc "synced" "INTEGER DEFAULT 0"); [|done].
      unfold upgrades. rewrite !elem_of_cons. tauto.
    + apply (Hnewc "telegram_sent" "INTEGER DEFAULT 0"); [|done].
      unfold upgrades. rewrite !elem_of_cons. tauto.
  - intros [-> | [-> | ->]].
    + apply (Hnewc "latitude" "REAL"); [|done].
      unfold upgrades. rewrite !elem_of_cons. tauto.
    + apply (Hnewc "longitude" "REAL"); [|done].
      unfold upgrades. rewrite !elem_of_cons. tauto.
    + apply (Hnewc "location" "TEXT"); [|done].
      unfold upgrades. rewrite !elem_of_cons. tauto.
Qed.

(** On a table of the first schema: the row keeps its id and label and
    reads 0 in the new [synced]. *)
Lemma init_db_keeps_rows_witness :
  sqlite3_connect E_up = None ∧ db w_legacy = Some (t_of w_legacy) ∧
  respelled (Some (t_of w_legacy)) = None ∧
  rows (t_of w_legacy) !! 0%nat = Some (first_row w_legacy) ∧
  "label" ∈ columns (t_of w_legacy) ∧
  ("synced" ∉ columns (t_of w_legacy)) ∧
  ∃ t' r',
    db (init_db E_up w_legacy).2 = Some t' ∧ rows t' !! 0%nat = Some r' ∧
    rowid r' = 1 ∧ cells r' !! "label" = Some (Text "fox") ∧
    cell r' "synced" = Integer 0.
Proof.
  assert ("label" ∈ columns (t_of w_legacy)) as Hlabel.
  { simpl. rewrite !elem_of_cons. tauto. }
  assert ("synced" ∉ columns (t_of w_legacy)) as Hsynced.
  { simpl. rewrite !elem_of_cons, elem_of_nil.
    intros [H|[H|[H|[H|[H|[]]]]]]; discriminate H. }
  split; [reflexivity|]. split; [exact db_w_legacy|].
  split; [exact respelled_w_legacy|]. split; [reflexivity|].
  split; [exact Hlabel|]. split; [exact Hsynced|].
  destruct (init_db_keeps_rows E_up w_legacy (t_of w_legacy) eq_refl
              db_w_legacy respelled_w_legacy) as (t' & Hdb & _ & _ & Hrows).
  destruct (Hrows 0%nat (first_row w_legacy) eq_refl)
    as (r' & Hr' & Hid & Hkeep & Hnew).
  exists t', r'. split; [exact Hdb|]. split; [exact Hr'|].
  split; [exact Hid|]. split; [exact (Hkeep "label" (λ _, Hlabel))|].
  destruct (Hnew "synced" Hsynced) as [H0 _]. apply H0. by left.
Defined.

(** X8.  On a database with no table, or with a table that has the columns
    of the first schema, no upgrade column under another spelling, and
    rowids left, [init_db] leaves a table that is ready; an alert stored
    next is read back first, with its coordinates as the table keeps them,
    and on a new database it is the only record. *)
Theorem init_db_then_store_then_read
    (E0 E E' : env) (label img_path : string) (w : world) (limit : Z) :
  sqlite3_connect E0 = None → sqlite3_connect E = None →
  sqlite3_connect E' = None →
  (db w = None ∨
   ∃ t, db w = Some t ∧ base_columns ⊆ columns t ∧
        respelled (Some t) = None ∧ top t < MAX_ROWID) →
  1 ≤ limit ≤ MAX_ROWID →
  let w1 := (init_db E0 w).2 in
  let w2 := (store_alert E label img_path w1).2 in
  ∃ t1 rest,
    db w1 = Some t1 ∧ ready t1 ∧
    get_latest_alerts E' limit w2
    = (Ok ([PyStr label; PyStr (now E);
            of_opt_str (uploaded (upload_of E label img_path)).1;
            to_py (stored_float (located E).1.1);
            to_py (stored_float (located E).1.2);
            PyStr (located E).2] :: rest), w2) ∧
    (db w = None → rest = []).
Proof.
  intros Hc0 Hc Hc' Hold Hlimit w1 w2.
  destruct (init_db_ready E0 w Hc0 Hold) as (t1 & Hdb1 & Hready & Hempty).
  destruct (read_back E E' label img_path w1 t1 limit Hdb1 Hc Hready Hc'
              Hlimit) as (rest & Hget & Hlen).
  exists t1, rest. split_and!; try done.
  intros Hnone. unfold rows_elsewhere in Hlen.
  rewrite (Hempty Hnone) in Hlen. simpl in Hlen.
  rewrite Nat.min_0_r in Hlen. by destruct rest.
Qed.

(** On a table of the first schema: upgrade, store, read back. *)
Lemma init_db_then_store_then_read_witness :
  sqlite3_connect E_up = None ∧ sqlite3_connect E_offline = None ∧
  (db w_legacy = None ∨
   ∃ t, db w_legacy = Some t ∧ base_columns ⊆ columns t ∧
        respelled (Some t) = None ∧ top t < MAX_ROWID) ∧
  1 ≤ 5 ≤ MAX_ROWID ∧
  ∃ rest,
    get_latest_alerts E_up 5
      (store_alert E_offline "boar" "cam/0002.jpg" (init_db E_up w_legacy).2).2
    = (Ok (alert_record E_offline "boar" "cam/0002.jpg" :: rest),
       (store_alert E_offline "boar" "cam/0002.jpg"
          (init_db E_up w_legacy).2).2).
Proof.
  assert (1 ≤ 5 ≤ MAX_ROWID) as Hlimit by (unfold MAX_ROWID; lia).
  split; [reflexivity|]. split; [reflexivity|].
  split; [right; exact w_legacy_old|]. split; [exact Hlimit|].
  destruct (init_db_then_store_then_read E_up E_offline E_up "boar"
              "cam/0002.jpg" w_legacy 5 eq_refl eq_refl eq_refl
              (or_intror w_legacy_old) Hlimit)
    as (t1 & rest & _ & _ & Hget & _).
  exists rest. exact Hget.
Defined.

(** X9.  With the database open and the table in place, setting the two
    flags of a path in two calls, in either order, leaves the same database
    as setting both in one call; repeating a call changes nothing more; and
    of two calls that set both flags the later one wins. *)
Theorem update_alert_status_composes
    (E1 E2 E : env) (img_path : string) (w : world) (t : table) :
  sqlite3_connect E1 = None → sqlite3_connect E2 = None →
  sqlite3_connect E = None →
  db w = Some t → declared_columns ⊆ columns t →
  (∀ a b,
      db (update_alert_status E2 img_path None (Some b)
            (update_alert_status E1 img_path (Some a) None w).2).2
      = db (update_alert_status E img_path (Some a) (Some b) w).2 ∧
      db (update_alert_status E2 img_path (Some a) None
            (update_alert_status E1 img_path None (Some b) w).2).2
      = db (update_alert_status E img_path (Some a) (Some b) w).2) ∧
  (∀ telegram_ok synced,
      db (update_alert_status E2 img_path telegram_ok synced
            (update_alert_status E1 img_path telegram_ok synced w).2).2
      = db (update_alert_status E img_path telegram_ok synced w).2) ∧
  (∀ a a' b b',
      db (update_alert_status E2 img_path (Some a') (Some b')
            (update_alert_status E1 img_path (Some a) (Some b) w).2).2
      = db (update_alert_status E img_path (Some a') (Some b') w).2).
Proof.
  intros Hc1 Hc2 Hc Hdb Hcols.
  assert (∀ t1 s1 t2 s2 t3 s3,
             (∀ m : gmap string value,
                 foldr (λ cv m, <[cv.1 := cv.2]> m)
                   (foldr (λ cv m, <[cv.1 := cv.2]> m) m (flag_sets t1 s1))
                   (flag_sets t2 s2)
                 = foldr (λ cv m, <[cv.1 := cv.2]> m) m (flag_sets t3 s3)) →
             db (update_alert_status E2 img_path t2 s2
                   (update_alert_status E1 img_path t1 s1 w).2).2
             = db (update_alert_status E img_path t3 s3 w).2) as Hgen.
  { intros t1 s1 t2 s2 t3 s3 Hmaps.
    rewrite (update_twice E1 E2 img_path t1 s1 t2 s2 w t) by done.
    rewrite (update_db E img_path t3 s3 w t) by done.
    f_equal. f_equal. apply List.map_ext. intros r.
    destruct (sql_eq _ _); [|done]. unfold assign. simpl. f_equal.
    apply Hmaps. }
  split_and!.
  - intros a b. split; apply Hgen; intros m; simpl; [|done].
    apply map_eq. intros k. rewrite !lookup_insert.
    by repeat case_decide; simplify_eq.
  - intros [a|] [b|]; apply Hgen; intros m; simpl;
      apply map_eq; intros k; rewrite ?lookup_insert;
      by repeat case_decide; simplify_eq.
  - intros a a' b b'. apply Hgen. intros m. simpl.
    apply map_eq. intros k. rewrite !lookup_insert.
    by repeat case_decide; simplify_eq.
Qed.

(** On the sample store: sent then not synced, in two calls or in one. *)
Lemma update_alert_status_composes_witness :
  sqlite3_connect E_up = None ∧ sqlite3_connect E_offline = None ∧
  db w_three = Some (t_of w_three) ∧
  declared_columns ⊆ columns (t_of w_three) ∧
  db (update_alert_status E_offline "cam/0002.jpg" None (Some false)
        (update_alert_status E_up "cam/0002.jpg" (Some true) None w_three).2).2
  = db (update_alert_status E_up "cam/0002.jpg" (Some true) (Some false)
          w_three).2.
Proof.
  destruct ready_w_three as [Hcols _].
  split; [reflexivity|]. split; [reflexivity|]. split; [exact db_w_three|].
  split; [exact Hcols|].
  destruct (update_alert_status_composes E_up E_offline E_up "cam/0002.jpg"
              w_three (t_of w_three) eq_refl eq_refl eq_refl db_w_three Hcols)
    as (Hsplit & _ & _).
  exact (proj1 (Hsplit true false)).
Defined.

End StorageMore.

(** ** Sequences of calls *)

Module SessionSpec.
Import Storage SqliteFacts StorageRun MoreFacts.
Import Sample SampleFacts Sample2 MoreSampleFacts.

(** X10.  Every sequence of calls keeps the invariant of the store: from a
    database that has no table or whose table satisfies it (an empty
    directory does) the table has the ten declared columns, at most one row
    per image path, rows in strictly ascending rowid order with ids
    between 1 and the sequence number, text in [label], [timestamp],
    [image_path] and [location], and 0 or 1 in [synced] and
    [telegram_sent]. *)
Theorem session_keeps_store_inv (calls : list (env * call)) (w : world) :
  inv_db (db w) → inv_db (db (session calls w)).
Proof.
  revert w. induction calls as [|[E c] calls IH]; intros w Hinv; [done|].
  simpl. apply IH. by apply store_inv_after.
Qed.

(** A day of the pipeline, with its failures, ends on a table of two rows
    that satisfies the invariant. *)
Lemma session_keeps_store_inv_witness :
  inv_db (db fresh) ∧
  ∃ t, db (session day fresh) = Some t ∧ store_inv t ∧
       length (rows t) = 2%nat.
Proof.
  split; [exact I|].
  pose proof (session_keeps_store_inv day fresh I) as Hinv.
  assert (db (session day fresh) = Some (t_of (session day fresh))) as Hdb
    by (vm_compute; reflexivity).
  rewrite Hdb in Hinv. exists (t_of (session day fresh)).
  split; [exact Hdb|]. split; [exact Hinv|]. vm_compute. reflexivity.
Defined.

(** X11.  On a table that satisfies the invariant, [get_latest_alerts] with
    a limit of 0 or more returns the rows in reverse storage order, the
    first [limit] of them: newest first is last stored first. *)
Theorem get_latest_alerts_reads_backwards
    (E : env) (limit : Z) (w : world) (t : table) :
  sqlite3_connect E = None → db w = Some t → store_inv t →
  0 ≤ limit ≤ MAX_ROWID →
  get_latest_alerts E limit w
  = (Ok (map project (take (Z.to_nat limit) (reverse (rows t)))), w).
Proof.
  intros Hconn Hdb Hinv Hlimit.
  rewrite get_latest_alerts_run, Hconn, Hdb.
  rewrite select_latest_inv; [|done|unfold MAX_ROWID in *; lia].
  unfold sql_limit. by rewrite bool_decide_eq_false_2 by lia.
Qed.

(** On the sample store: the last two rows stored, backwards. *)
Lemma get_latest_alerts_reads_backwards_witness :
  sqlite3_connect E_up = None ∧ db w_three = Some (t_of w_three) ∧
  store_inv (t_of w_three) ∧ 0 ≤ 2 ≤ MAX_ROWID ∧
  get_latest_alerts E_up 2 w_three
  = (Ok (map project (take 2 (reverse (rows (t_of w_three))))), w_three).
Proof.
  assert (0 ≤ 2 ≤ MAX_ROWID) as Hlimit by (unfold MAX_ROWID; lia).
  split; [reflexivity|]. split; [exact db_w_three|].
  split; [exact inv_w_three|]. split; [exact Hlimit|].
  exact (get_latest_alerts_reads_backwards E_up 2 w_three (t_of w_three)
           eq_refl db_w_three inv_w_three Hlimit).
Defined.

(** X12.  On a table that satisfies the invariant, a status update does not
    change what [get_latest_alerts] returns, for any limit and whether the
    update succeeds or not: the flags are not among the fields read. *)
Theorem status_update_is_invisible_to_reads
    (E E' : env) (img_path : string) (telegram_ok synced : option bool)
    (limit : Z) (w : world) (t : table) :
  db w = Some t → store_inv t →
  (get_latest_alerts E' limit
     (update_alert_status E img_path telegram_ok synced w).2).1
  = (get_latest_alerts E' limit w).1.
Proof.
  intros Hdb Hinv.
  pose proof (store_inv_update_alert_status E img_path telegram_ok synced w)
    as Hinv'.
  rewrite Hdb in Hinv'. specialize (Hinv' Hinv).
  rewrite !get_latest_alerts_run.
  destruct (sqlite3_connect E') as [e|]; [done|].
  assert (∃ t', db (update_alert_status E img_path telegram_ok synced w).2
                = Some t' ∧ store_inv t' ∧
                map project (rows t') = map project (rows t)) as Hupd.
  { revert Hinv'. rewrite update_alert_status_run.
    destruct (sqlite3_connect E); [by eauto|].
    destruct (flag_sets telegram_ok synced) as [|cv sets] eqn:Hsets;
      [by eauto|].
    rewrite <- Hsets.
    destruct (update_where_path _ _ _) as [d'|e] eqn:Hupd; [|by eauto].
    apply update_where_path_Ok in Hupd as (t0 & Hdb0 & _ & ->).
    assert (t0 = t) as -> by congruence. simpl.
    intros Hinv'. eexists. split; [done|]. split; [done|]. simpl.
    rewrite List.map_map. apply List.map_ext. intros r.
    destruct (sql_eq _ _); [|done].
    unfold project, select_columns. simpl.
    rewrite !cell_assign_other; [done|..];
      intros [[? _]|[? _]]%flag_sets_columns; done. }
  destruct Hupd as (t' & Hdb' & Hinvt' & Hproj).
  rewrite Hdb', Hdb.
  destruct (decide (- MAX_ROWID - 1 ≤ limit ≤ MAX_ROWID)) as [Hl|Hl].
  - rewrite !select_latest_inv by done. simpl. f_equal.
    change (project <$> rows t' = project <$> rows t) in Hproj.
    change (project <$> sql_limit limit (reverse (rows t'))
            = project <$> sql_limit limit (reverse (rows t))).
    unfold sql_limit. case_bool_decide.
    + by rewrite !fmap_reverse, Hproj.
    + by rewrite !fmap_take, !fmap_reverse, Hproj.
  - unfold select_latest.
    rewrite !missing_None.
    + by rewrite !bool_decide_eq_false_2 by done.
    + rewrite (inv_columns t Hinv). apply select_columns_declared.
    + rewrite (inv_columns t' Hinvt'). apply select_columns_declared.
Qed.

(** On the sample store: the same twenty records before and after a
    status update. *)
Lemma status_update_is_invisible_to_reads_witness :
  db w_three = Some (t_of w_three) ∧ store_inv (t_of w_three) ∧
  (get_latest_alerts E_up 20
     (update_alert_status E_up "cam/0002.jpg" (Some true) (Some false)
        w_three).2).1
  = (get_latest_alerts E_up 20 w_three).1.
Proof.
  split; [exact db_w_three|]. split; [exact inv_w_three|].
  exact (status_update_is_invisible_to_reads E_up E_up "cam/0002.jpg"
           (Some true) (Some false) 20 w_three (t_of w_three)
           db_w_three inv_w_three).
Defined.

End SessionSpec.

(** ** storage.py: partial answers of the collaborators *)

Module StorageEdges.
Import Storage SqliteFacts StorageRun MoreFacts.
Import Sample SampleFacts Sample2 MoreSampleFacts.

(** X13.  The geolocation block on every answer of the geocoder.  It always
    returns, after one lookup request and without printing.  When the
    lookup raises, and also when the coordinates have a single entry, the
    result is no coordinates and ["Unknown"], whatever city was found.
    Otherwise the coordinates are the first two entries, or absent when
    there are none, and the location is the city, or ["Unknown"] when the
    city is absent or empty: a partial answer is kept. *)
Theorem get_geolocation_cases (E : env) (w : world) :
  ∃ latitude longitude location,
    get_geolocation E w
    = (Ok (latitude, longitude, location),
       World (db w) (stdout w) (net w ++ [GeoIp "me"])) ∧
    (∀ e, geocoder_ip E "me" = Raise e →
          (latitude, longitude, location) = (None, None, "Unknown")) ∧
    (∀ g, geocoder_ip E "me" = Ok g →
          match latlng g with
          | [] =>
              latitude = None ∧ longitude = None ∧
              location = (if truthy (city g) then fmt (city g) else "Unknown")
          | [_] =>
              (latitude, longitude, location) = (None, None, "Unknown")
          | lat :: lng :: _ =>
              latitude = Some lat ∧ longitude = Some lng ∧
              location = (if truthy (city g) then fmt (city g) else "Unknown")
          end).
Proof.
  unfold get_geolocation. run_monad.
  destruct (geocoder_ip E "me") as [g|e]; simpl.
  - destruct (latlng g) as [|lat [|lng rest]] eqn:Hll; simpl;
      eexists _, _, _; (split; [done|]); (split; [done|]);
      intros g' [= <-]; rewrite Hll; done.
  - eexists _, _, _. split; [done|]. split; [done|]. done.
Qed.

(** X14.  When the upload succeeds but its answer has no usable URL (no
    [secure_url], or an empty one), [store_alert] returns what the answer
    holds, prints the upload line, makes no write to the document store,
    and the row it inserts has that [cloud_url] (NULL when absent) and
    [synced] = 0. *)
Theorem upload_without_url_is_not_synced
    (E : env) (label img_path : string) (w : world)
    (res : gmap string string) :
  upload_of E label img_path = Ok res →
  truthy (res !! "secure_url") = false →
  let w' := (store_alert E label img_path w).2 in
  (store_alert E label img_path w).1
  = Ok (res !! "secure_url", res !! "public_id") ∧
  "[Cloudinary] Uploaded: " +:+ fmt (res !! "secure_url") ∈ stdout w' ∧
  net w'
  = net w ++ [GeoIp "me";
              CloudinaryUpload img_path "wildlife_alerts"
                (upload_context label (now E))] ∧
  (∀ t, db w = Some t → sqlite3_connect E = None → ready t →
        ∃ t' r',
          db w' = Some t' ∧ stored_at img_path t' = [r'] ∧
          cell r' "cloud_url" = bind_opt_str (res !! "secure_url") ∧
          cell r' "synced" = Integer 0).
Proof.
  intros Hup Hfalse w'. subst w'.
  split_and!.
  - rewrite store_alert_run. simpl. by rewrite Hup.
  - rewrite store_alert_run. simpl. rewrite Hup. simpl.
    rewrite elem_of_app, elem_of_cons. auto.
  - rewrite store_alert_run. simpl. unfold mirror_requests.
    rewrite Hup. simpl. rewrite Hfalse.
    by destruct (firestore_db E).
  - intros t Hdb Hconn Hready.
    destruct (store_alert_inserts E label img_path w t Hdb Hconn Hready)
      as (r' & Hdb' & _ & _ & Hrow).
    destruct Hrow as (_ & _ & Hp & Hcu & Hsy & _).
    rewrite Hup in Hcu, Hsy. simpl in Hcu, Hsy. rewrite Hfalse in Hsy.
    eexists _, r'. split; [exact Hdb'|].
    split; [by apply stored_at_after_insert|]. done.
Qed.

(** The image host answers with an identifier only: the pair has no URL
    and the row stored is not synced. *)
Lemma upload_without_url_is_not_synced_witness :
  upload_of E_nourl "tiger" "cam/0005.jpg" = Ok res_nourl ∧
  truthy (res_nourl !! "secure_url") = false ∧
  db w_init = Some (t_of w_init) ∧ sqlite3_connect E_nourl = None ∧
  ready (t_of w_init) ∧
  (store_alert E_nourl "tiger" "cam/0005.jpg" w_init).1
  = Ok (None, Some "wildlife_alerts/x1") ∧
  ∃ t' r',
    db (store_alert E_nourl "tiger" "cam/0005.jpg" w_init).2 = Some t' ∧
    stored_at "cam/0005.jpg" t' = [r'] ∧ cell r' "cloud_url" = Null ∧
    cell r' "synced" = Integer 0.
Proof.
  split; [reflexivity|]. split; [reflexivity|]. split; [exact db_w_init|].
  split; [reflexivity|]. split; [exact ready_w_init|].
  destruct (upload_without_url_is_not_synced E_nourl "tiger" "cam/0005.jpg"
              w_init res_nourl eq_refl eq_refl)
    as (Hres & _ & _ & Hrow).
  split; [exact Hres|].
  destruct (Hrow (t_of w_init) db_w_init eq_refl ready_w_init)
    as (t' & r' & Hdb & Hst & Hcu & Hsy).
  exists t', r'. split; [exact Hdb|]. split; [exact Hst|].
  split; [exact Hcu|exact Hsy].
Defined.

(** X15.  When the insert runs and the alert is mirrored, the document
    written is the last request of the call.  Its [label], [timestamp],
    [cloud_url] and [location] hold the values of the row stored and its
    [local_path] the row's [image_path].  Its [latitude] and [longitude]
    are the coordinates computed, while the row holds what the table keeps
    of them: document and row agree on a coordinate exactly when it is
    neither a NaN, which the row stores as NULL, nor -0.0, which the row
    gives back as 0.0.  The document has these seven fields and no flag. *)
Theorem mirrored_document_agrees_with_row
    (E : env) (label img_path : string) (w : world) (t : table)
    (client : firestore_client) :
  db w = Some t → sqlite3_connect E = None → ready t →
  firestore_db E = Some client →
  truthy (uploaded (upload_of E label img_path)).1 = true →
  ∃ doc t' r',
    last (net (store_alert E label img_path w).2)
    = Some (FirestoreSet "animal_alerts" doc) ∧
    db (store_alert E label img_path w).2 = Some t' ∧
    stored_at img_path t' = [r'] ∧
    (∀ c, c ∈ ["label"; "timestamp"; "cloud_url"; "location"] →
          doc !! c = Some (to_py (cell r' c))) ∧
    doc !! "local_path" = Some (to_py (cell r' "image_path")) ∧
    doc !! "latitude" = Some (of_opt_float (located E).1.1) ∧
    doc !! "longitude" = Some (of_opt_float (located E).1.2) ∧
    cell r' "latitude" = stored_float (located E).1.1 ∧
    cell r' "longitude" = stored_float (located E).1.2 ∧
    (doc !! "latitude" = Some (to_py (cell r' "latitude")) ↔
     kept_float (located E).1.1) ∧
    (doc !! "longitude" = Some (to_py (cell r' "longitude")) ↔
     kept_float (located E).1.2) ∧
    dom doc
    = list_to_set ["label"; "timestamp"; "cloud_url"; "local_path";
                   "latitude"; "longitude"; "location"].
Proof.
  intros Hdb Hconn Hready Hclient Htruthy.
  destruct (store_alert_inserts E label img_path w t Hdb Hconn Hready)
    as (r' & Hdb' & _ & _ & Hrow).
  destruct Hrow as (Hl & Hts & Hp & Hcu & _ & _ & Hla & Hlo & Hloc).
  assert (mirror_document E label img_path !! "latitude"
          = Some (of_opt_float (located E).1.1)) as Hdla.
  { unfold mirror_document, alert_document. by simplify_map_eq. }
  assert (mirror_document E label img_path !! "longitude"
          = Some (of_opt_float (located E).1.2)) as Hdlo.
  { unfold mirror_document, alert_document. by simplify_map_eq. }
  exists (mirror_document E label img_path). eexists _, r'.
  split_and!.
  - rewrite store_alert_run. cbn [net snd]. unfold mirror_requests.
    rewrite Hclient, Htruthy. rewrite !(assoc_L (++)). apply last_snoc.
  - exact Hdb'.
  - by apply stored_at_after_insert.
  - intros c Hc. rewrite !elem_of_cons, elem_of_nil in Hc.
    unfold mirror_document, alert_document.
    destruct Hc as [->|[->|[->|[->|[]]]]];
      [rewrite Hl|rewrite Hts|rewrite Hcu, to_py_opt_str|rewrite Hloc];
      by simplify_map_eq.
  - rewrite Hp. unfold mirror_document, alert_document. by simplify_map_eq.
  - exact Hdla.
  - exact Hdlo.
  - exact Hla.
  - exact Hlo.
  - rewrite Hdla, Hla, <- to_py_stored_float.
    split; [by intros [= ->]|by intros ->].
  - rewrite Hdlo, Hlo, <- to_py_stored_float.
    split; [by intros [= ->]|by intros ->].
  - unfold mirror_document, alert_document.
    by rewrite dom_list_to_map_L.
Qed.

(** With the geocoder answering a NaN and -0.0: the document mirrored
    carries the label of the row stored and the coordinates computed,
    while the row has no latitude and the longitude 0.0. *)
Lemma mirrored_document_agrees_with_row_witness :
  db w_init = Some (t_of w_init) ∧ sqlite3_connect E_odd = None ∧
  ready (t_of w_init) ∧
  firestore_db E_odd = Some (FirestoreClient (λ _ _, None)) ∧
  truthy (uploaded (upload_of E_odd "tiger" "cam/0001.jpg")).1 = true ∧
  ∃ doc t' r',
    last (net (store_alert E_odd "tiger" "cam/0001.jpg" w_init).2)
    = Some (FirestoreSet "animal_alerts" doc) ∧
    db (store_alert E_odd "tiger" "cam/0001.jpg" w_init).2 = Some t' ∧
    stored_at "cam/0001.jpg" t' = [r'] ∧
    doc !! "label" = Some (to_py (cell r' "label")) ∧
    doc !! "latitude" = Some (PyFloat nan) ∧
    doc !! "longitude" = Some (PyFloat neg_zero) ∧
    cell r' "latitude" = Null ∧ cell r' "longitude" = Real pos_zero.
Proof.
  split; [exact db_w_init|]. split; [reflexivity|].
  split; [exact ready_w_init|]. split; [reflexivity|].
  split; [reflexivity|].
  destruct (mirrored_document_agrees_with_row E_odd "tiger" "cam/0001.jpg"
              w_init (t_of w_init) (FirestoreClient (λ _ _, None))
              db_w_init eq_refl ready_w_init eq_refl eq_refl)
    as (doc & t' & r' & Hlast & Hdb & Hst & Hfields & _ & Hdla & Hdlo
        & Hla & Hlo & _).
  exists doc, t', r'. split; [exact Hlast|]. split; [exact Hdb|].
  split; [exact Hst|]. split; [apply Hfields; left|].
  split; [exact Hdla|]. split; [exact Hdlo|].
  split; [exact Hla|exact Hlo].
Defined.

End StorageEdges.
